(** * Prisma schema to TypeScript type generator: a shallow embedding of
    [main.py] and the properties of its parser, type mapper and emitters.

    Python [str] values are sequences of Unicode code points; they are
    modelled as lists of [N].  Python dictionaries keep insertion order, so
    they are modelled as association lists with in-place overwrite. *)

From Stdlib Require Import String Ascii.
From Stdlib Require Import List NArith Arith Bool Lia Sorted.
Import ListNotations.
Local Open Scope N_scope.
Local Open Scope list_scope.

Set Implicit Arguments.

(* ================================================================== *)
(** ** Python strings *)
(* ================================================================== *)

Definition char := N.
Definition str := list char.

(** An ASCII literal read as a Python string. *)
Definition py (s : string) : str := map N_of_ascii (list_ascii_of_string s).
Arguments py s%_string.

(** The double-quote character. *)
Definition dq : char := 34%N.
(** The newline character. *)
Definition nl : char := 10%N.

Fixpoint str_eqb (a b : str) : bool :=
  match a, b with
  | [], [] => true
  | x :: a', y :: b' => N.eqb x y && str_eqb a' b'
  | _, _ => false
  end.

(** [s.startswith(p)] *)
Fixpoint startswith (s p : str) {struct p} : bool :=
  match p with
  | [] => true
  | a :: p' =>
      match s with
      | [] => false
      | b :: s' => N.eqb a b && startswith s' p'
      end
  end.

(** [s.endswith(p)] *)
Definition endswith (s p : str) : bool := startswith (rev s) (rev p).

(** [c in s] for a one-character string [c]. *)
Definition contains_char (c : char) (s : str) : bool := existsb (N.eqb c) s.

(** [sub in s] *)
Fixpoint contains_sub (sub s : str) : bool :=
  startswith s sub ||
  match s with
  | [] => false
  | _ :: s' => contains_sub sub s'
  end.

(** [s.split(sep, 1)] for a non-empty separator: at most one cut, at the
    leftmost occurrence of [sep]. *)
Fixpoint split_max1 (sep s : str) : list str :=
  if startswith s sep then [ [] ; skipn (length sep) s ]
  else match s with
       | [] => [ [] ]
       | c :: s' =>
           match split_max1 sep s' with
           | h :: t => (c :: h) :: t
           | [] => [ [c] ]
           end
       end.

(** [str.isspace] on one code point (CPython's [_PyUnicode_IsWhitespace]). *)
Definition is_space (c : char) : bool :=
  ((9 <=? c) && (c <=? 13)) || ((28 <=? c) && (c <=? 32))
  || (c =? 133) || (c =? 160) || (c =? 5760)
  || ((8192 <=? c) && (c <=? 8202))
  || (c =? 8232) || (c =? 8233) || (c =? 8239) || (c =? 8287)
  || (c =? 12288).

(** The line boundaries recognised by [str.splitlines]. *)
Definition is_linebreak (c : char) : bool :=
  ((10 <=? c) && (c <=? 13)) || ((28 <=? c) && (c <=? 30))
  || (c =? 133) || (c =? 8232) || (c =? 8233).

Fixpoint dropwhile (p : char -> bool) (s : str) : str :=
  match s with
  | [] => []
  | c :: s' => if p c then dropwhile p s' else s
  end.

Fixpoint takewhile (p : char -> bool) (s : str) : str :=
  match s with
  | [] => []
  | c :: s' => if p c then c :: takewhile p s' else []
  end.

Definition lstrip (s : str) : str := dropwhile is_space s.
Definition rstrip (s : str) : str := rev (dropwhile is_space (rev s)).
(** [s.strip()] *)
Definition strip (s : str) : str := rstrip (lstrip s).

(** [s.split()]: the maximal runs of non-whitespace characters. *)
Fixpoint split_ws (s : str) : list str :=
  match s with
  | [] => []
  | c :: s' =>
      if is_space c then split_ws s'
      else match s' with
           | [] => [ [c] ]
           | d :: _ =>
               if is_space d then [c] :: split_ws s'
               else match split_ws s' with
                    | t :: ts => (c :: t) :: ts
                    | [] => [ [c] ]
                    end
           end
  end.

(** [s.splitlines()]: a carriage return followed by a line feed is one
    boundary; no empty line is produced after a final boundary. *)
Fixpoint splitlines (s : str) : list str :=
  match s with
  | [] => []
  | c :: s' =>
      if is_linebreak c then
        match s' with
        | d :: s'' =>
            if (c =? 13) && (d =? 10) then [] :: splitlines s''
            else [] :: splitlines s'
        | [] => [ [] ]
        end
      else match splitlines s' with
           | l :: ls => (c :: l) :: ls
           | [] => [ [c] ]
           end
  end.

(** [sep.join(ls)] *)
Fixpoint join (sep : str) (ls : list str) : str :=
  match ls with
  | [] => []
  | l :: ls' =>
      match ls' with
      | [] => l
      | _ :: _ => l ++ sep ++ join sep ls'
      end
  end.

(** Comparison of strings by code points, as Python's [<=] on [str]. *)
Fixpoint str_leb (a b : str) : bool :=
  match a, b with
  | [], _ => true
  | _ :: _, [] => false
  | x :: a', y :: b' => (x <? y) || ((x =? y) && str_leb a' b')
  end.

Definition str_lt (a b : str) : Prop := str_leb a b = true /\ a <> b.

(** [sorted(xs)] on strings. *)
Fixpoint insert_sorted (x : str) (xs : list str) : list str :=
  match xs with
  | [] => [x]
  | y :: ys => if str_leb x y then x :: xs else y :: insert_sorted x ys
  end.

Definition sorted (xs : list str) : list str := fold_right insert_sorted [] xs.

Local Close Scope N_scope.

(* ================================================================== *)
(** ** Python containers *)
(* ================================================================== *)

(** A [set] of strings: a duplicate-free list; only membership, emptiness
    and [sorted] are ever observed. *)
Definition pyset := list str.

Definition set_in (x : str) (s : pyset) : bool := existsb (str_eqb x) s.
Definition set_add (s : pyset) (x : str) : pyset :=
  if set_in x s then s else s ++ [x].

Section Dict.
Variable V : Type.

(** An insertion-ordered dictionary with string keys. *)
Definition dict := list (str * V).

Fixpoint dict_get (d : dict) (k : str) : option V :=
  match d with
  | [] => None
  | (k', v) :: d' => if str_eqb k' k then Some v else dict_get d' k
  end.

(** [d[k] = v]: an existing key keeps its position. *)
Fixpoint dict_set (d : dict) (k : str) (v : V) : dict :=
  match d with
  | [] => [(k, v)]
  | (k', v') :: d' =>
      if str_eqb k' k then (k', v) :: d' else (k', v') :: dict_set d' k v
  end.

Definition dict_keys (d : dict) : list str := map fst d.
Definition dict_values (d : dict) : list V := map snd d.
Definition dict_mem (d : dict) (k : str) : bool := set_in k (dict_keys d).
End Dict.

(* ================================================================== *)
(** ** Data structures *)
(* ================================================================== *)

Module EnumDef.
Record t := mk { name : str; values : list str }.
End EnumDef.

Module FieldDef.
Record t := mk {
  name : str;
  type_name : str;
  is_optional : bool;
  is_list : bool;
  raw_line : str
}.
End FieldDef.

Module ModelDef.
Record t := mk {
  name : str;
  fields : list FieldDef.t;
  schema : option str
}.
End ModelDef.

(* ================================================================== *)
(** ** Parsing helpers *)
(* ================================================================== *)

Definition SCALAR_TS_MAP : dict str :=
  [ (py "String", py "string");
    (py "Int", py "number");
    (py "Float", py "number");
    (py "Boolean", py "boolean");
    (py "DateTime", py "DateTimeString");
    (py "Json", py "JsonValue");
    (py "BigInt", py "number");
    (py "Decimal", py "number") ].

(** One line of [strip_line_comments]'s loop body. *)
Definition strip_comment (line : str) : str :=
  if contains_sub (py "//") line
  then nth 0 (split_max1 (py "//") line) []
  else line.

Definition strip_line_comments (schema : str) : str :=
  let lines := fold_left (fun lines line => lines ++ [strip_comment line])
                         (splitlines schema) [] in
  join [nl] lines.

(* ================================================================== *)
(** ** TS generation helpers *)
(* ================================================================== *)

Definition prisma_field_to_ts
  (field : FieldDef.t) (model_names enum_names : pyset) : str :=
  let base := FieldDef.type_name field in
  let is_model := set_in base model_names in
  let is_enum := set_in base enum_names in
  let ts_base :=
    match dict_get SCALAR_TS_MAP base with
    | Some ts => ts
    | None => if is_enum then base else base
    end in
  if FieldDef.is_list field then
    let ts_base_list := ts_base ++ py "[]" in
    if is_model then ts_base_list ++ py " | null" else ts_base_list
  else if negb is_model && FieldDef.is_optional field then
    ts_base ++ py " | null"
  else if is_model then ts_base ++ py " | null"
  else ts_base.

Definition prisma_field_to_ts_flat
  (field : FieldDef.t) (enum_names : pyset) : str :=
  let base := FieldDef.type_name field in
  let is_enum := set_in base enum_names in
  let ts_base :=
    match dict_get SCALAR_TS_MAP base with
    | Some ts => ts
    | None => if is_enum then base else py "any"
    end in
  if FieldDef.is_list field then
    let ts_base_list := ts_base ++ py "[]" in
    if FieldDef.is_optional field then ts_base_list ++ py " | null"
    else ts_base_list
  else if FieldDef.is_optional field then ts_base ++ py " | null"
  else ts_base.

(* ================================================================== *)
(** ** Outcomes of Python code: a result, a raised exception, or a loop
       that was cut off by the step budget of the model *)
(* ================================================================== *)

Inductive exn := IndexError | KeyError.

Inductive outcome (A : Type) : Type :=
| Ret (a : A)
| Raise (e : exn)
| OutOfFuel.
Arguments Ret {A} a.
Arguments Raise {A} e.
Arguments OutOfFuel {A}.

Definition bind {A B : Type} (c : outcome A) (k : A -> outcome B) : outcome B :=
  match c with
  | Ret a => k a
  | Raise e => Raise e
  | OutOfFuel => OutOfFuel
  end.

Notation "x <- c1 ;; c2" := (bind c1 (fun x => c2))
  (at level 61, c1 at next level, right associativity).
Notation "' pat <- c1 ;; c2" := (bind c1 (fun x => match x with pat => c2 end))
  (at level 61, pat pattern, c1 at next level, right associativity).

(** [l[i]] for a non-negative index. *)
Definition getitem {A : Type} (l : list A) (i : nat) : outcome A :=
  match nth_error l i with
  | Some a => Ret a
  | None => Raise IndexError
  end.

(** A [for] loop threading a state through a body that may raise. *)
Fixpoint for_each {A S : Type} (body : S -> A -> outcome S)
  (xs : list A) (s : S) : outcome S :=
  match xs with
  | [] => Ret s
  | x :: xs' => s' <- body s x ;; for_each body xs' s'
  end.

(** [lines.append(l)] *)
Definition append {A : Type} (lines : list A) (l : A) : list A := lines ++ [l].

Definition is_empty {A : Type} (l : list A) : bool :=
  match l with [] => true | _ :: _ => false end.

(** [s[:-k]] *)
Definition drop_last (k : nat) (s : str) : str := firstn (length s - k) s.

(* ================================================================== *)
(** ** The parser *)
(* ================================================================== *)

(** The search for the schema annotation in a model body line: the
    literal [@@schema(], a double quote, a non-empty run of characters other
    than the double quote (group 1), a double quote and [)].  This is the
    match anchored at the start of [s]; it returns group 1. *)
Definition schema_match_here (s : str) : option str :=
  let prefix := py "@@schema(" ++ [dq] in
  if startswith s prefix then
    let rest := skipn (length prefix) s in
    let not_dq := fun c => negb (N.eqb c dq) in
    let grp := takewhile not_dq rest in
    let after := dropwhile not_dq rest in
    if negb (is_empty grp) && startswith after (dq :: py ")")
    then Some grp else None
  else None.

(** The leftmost match. *)
Fixpoint re_search_schema (s : str) : option str :=
  match schema_match_here s with
  | Some g => Some g
  | None =>
      match s with
      | [] => None
      | _ :: s' => re_search_schema s'
      end
  end.

(** The loop advancing [i] to the next line that contains an opening
    brace (code point 123), or to [len(lines)]. *)
Fixpoint find_brace (fuel : nat) (lines : list str) (i : nat) : outcome nat :=
  match fuel with
  | O => OutOfFuel
  | S fuel' =>
      if Nat.ltb i (length lines) then
        cur <- getitem lines i ;;
        if negb (contains_char 123%N cur) then find_brace fuel' lines (i + 1)
        else Ret i
      else Ret i
  end.

(** The loop collecting [body_lines] up to a line that is exactly [}]. *)
Fixpoint collect_body (fuel : nat) (lines : list str) (i : nat)
  (body_lines : list str) : outcome (list str * nat) :=
  match fuel with
  | O => OutOfFuel
  | S fuel' =>
      if Nat.ltb i (length lines) then
        current <- getitem lines i ;;
        if str_eqb (strip current) (py "}") then Ret (body_lines, i)
        else collect_body fuel' lines (i + 1) (append body_lines current)
      else Ret (body_lines, i)
  end.

(** Body of the loop over an enum's lines; the state is [enum.values]. *)
Definition enum_body_step (values : list str) (raw : str)
  : outcome (list str) :=
  let l := strip raw in
  if is_empty l then Ret values
  else if startswith l (py "@@schema") then Ret values
  else if startswith l (py "@") || startswith l (py "@@") then Ret values
  else
    token <- getitem (split_ws l) 0 ;;
    if negb (is_empty token) then Ret (append values token) else Ret values.

(** Body of the loop over a model's lines; the state is
    [(model.fields, schema_name)]. *)
Definition model_body_step (st : list FieldDef.t * option str) (raw : str)
  : outcome (list FieldDef.t * option str) :=
  let '(fields, schema_name) := st in
  let l := strip raw in
  if is_empty l then Ret st
  else if startswith l (py "@@schema") then
    match re_search_schema l with
    | Some g => Ret (fields, Some g)
    | None => Ret st
    end
  else if startswith l (py "@") || startswith l (py "@@") then Ret st
  else
    let parts_f := split_ws l in
    if Nat.ltb (length parts_f) 2 then Ret st
    else
      field_name <- getitem parts_f 0 ;;
      type_token <- getitem parts_f 1 ;;
      let is_optional := endswith type_token (py "?") in
      let raw_type := if is_optional then drop_last 1 type_token
                      else type_token in
      let is_list := endswith raw_type (py "[]") in
      let base_type := if is_list then drop_last 2 raw_type else raw_type in
      let field_def := FieldDef.mk field_name base_type is_optional is_list l in
      Ret (append fields field_def, schema_name).

(** The main [while i < len(lines)] loop of [parse_prisma]. *)
Fixpoint parse_loop (fuel : nat) (lines : list str) (i : nat)
  (enums : dict EnumDef.t) (models : dict ModelDef.t)
  : outcome (dict EnumDef.t * dict ModelDef.t) :=
  match fuel with
  | O => OutOfFuel
  | S fuel' =>
      if Nat.ltb i (length lines) then
        raw <- getitem lines i ;;
        let line := strip raw in
        if startswith line (py "model ") || startswith line (py "enum ") then
          let parts := split_ws line in
          if Nat.ltb (length parts) 2 then
            parse_loop fuel' lines (i + 1) enums models
          else
            kind <- getitem parts 0 ;;
            name <- getitem parts 1 ;;
            i1 <- (if negb (contains_char 123%N line) then
                     j <- find_brace fuel' lines (i + 1) ;; Ret (j + 1)
                   else Ret (i + 1)) ;;
            '(body_lines, i2) <- collect_body fuel' lines i1 [] ;;
            if str_eqb kind (py "enum") then
              values <- for_each enum_body_step body_lines [] ;;
              let enum := EnumDef.mk name values in
              parse_loop fuel' lines (i2 + 1) (dict_set enums name enum) models
            else if str_eqb kind (py "model") then
              '(fields, schema_name) <-
                 for_each model_body_step body_lines ([], None) ;;
              let model := ModelDef.mk name fields schema_name in
              parse_loop fuel' lines (i2 + 1) enums (dict_set models name model)
            else parse_loop fuel' lines (i2 + 1) enums models
        else parse_loop fuel' lines (i + 1) enums models
      else Ret (enums, models)
  end.

Definition parse_prisma_fuel (fuel : nat) (schema : str)
  : outcome (dict EnumDef.t * dict ModelDef.t) :=
  let schema_no_comments := strip_line_comments schema in
  let lines := splitlines schema_no_comments in
  parse_loop fuel lines 0 [] [].

(** The cursor advances at every turn of the main loop, so one more step
    than there are lines is always enough. *)
Definition parse_prisma (schema : str)
  : outcome (dict EnumDef.t * dict ModelDef.t) :=
  parse_prisma_fuel (S (length (splitlines (strip_line_comments schema))))
                    schema.

(* ================================================================== *)
(** ** The emitters *)
(* ================================================================== *)

(** The union-of-literals declaration of one enum. *)
Definition enum_union_line (enum : EnumDef.t) : str :=
  let values_union :=
    join (py " | ") (map (fun v => dq :: v ++ [dq]) (EnumDef.values enum)) in
  py "export type " ++ EnumDef.name enum ++ py " = " ++ values_union ++ py ";".

(** The loop over [enums.values()] that appends the enum declarations. *)
Definition emit_enums (lines : list str) (enums : dict EnumDef.t) : list str :=
  fold_left
    (fun lines enum =>
       if is_empty (EnumDef.values enum) then lines
       else
         let lines := append lines (enum_union_line enum) in
         append lines [])
    (dict_values enums) lines.

Definition field_line (field : FieldDef.t) (ts_type : str) : str :=
  py "  " ++ FieldDef.name field ++ py ": " ++ ts_type ++ py ";".

(** The loop over [model.fields] of the full interface. *)
Definition emit_fields (lines : list str) (fields : list FieldDef.t)
  (model_names enum_names : pyset) : list str :=
  fold_left
    (fun lines field =>
       let ts_type := prisma_field_to_ts field model_names enum_names in
       append lines (field_line field ts_type))
    fields lines.

(** The loop over [model.fields] of the flat interface, which skips the
    fields whose type is a model name. *)
Definition emit_flat_fields (lines : list str) (fields : list FieldDef.t)
  (model_names enum_names : pyset) : list str :=
  fold_left
    (fun lines field =>
       if set_in (FieldDef.type_name field) model_names then lines
       else
         let ts_type_flat := prisma_field_to_ts_flat field enum_names in
         append lines (field_line field ts_type_flat))
    fields lines.

(** The body of the loop over models, shared by both emitters. *)
Definition emit_model (generate_flat : bool) (model_names enum_names : pyset)
  (lines : list str) (model : ModelDef.t) : list str :=
  let lines :=
    append lines (py "export interface " ++ ModelDef.name model ++ py " " ++ py "{") in
  let lines := emit_fields lines (ModelDef.fields model) model_names enum_names in
  let lines := append lines (py "}") in
  let lines := append lines [] in
  if generate_flat then
    let lines :=
      append lines
        (py "export interface " ++ ModelDef.name model ++ py "Flat " ++ py "{") in
    let lines :=
      emit_flat_fields lines (ModelDef.fields model) model_names enum_names in
    let lines := append lines (py "}") in
    append lines []
  else lines.

(** The list [lines] of [generate_single_file] just before it is joined. *)
Definition single_file_lines (enums : dict EnumDef.t)
  (models : dict ModelDef.t) (generate_flat : bool) : list str :=
  let model_names := dict_keys models in
  let enum_names := dict_keys enums in
  let lines := [] in
  let lines := append lines (py "// Auto-generated from Prisma schema.") in
  let lines := append lines (py "// Generated by Prisma TypeTags (single file).") in
  let lines := append lines [] in
  let lines := append lines (py "export type DateTimeString = string;") in
  let lines := append lines (py "export type JsonValue = any;") in
  let lines := append lines [] in
  let lines :=
    if negb (is_empty enums) then
      let lines := append lines (py "// =========================") in
      let lines := append lines (py "// ENUM TYPES") in
      let lines := append lines (py "// =========================") in
      let lines := append lines [] in
      emit_enums lines enums
    else lines in
  let lines := append lines (py "// =========================") in
  let lines := append lines (py "// FORWARD DECLARATIONS") in
  let lines := append lines (py "// =========================") in
  let lines := append lines [] in
  let lines :=
    fold_left
      (fun lines model_name =>
         append lines (py "export interface " ++ model_name ++ py " {}"))
      (dict_keys models) lines in
  let lines := append lines [] in
  let lines := append lines (py "// =========================") in
  let lines := append lines (py "// MODELS") in
  let lines := append lines (py "// =========================") in
  let lines := append lines [] in
  fold_left (emit_model generate_flat model_names enum_names)
            (dict_values models) lines.

Definition generate_single_file (enums : dict EnumDef.t)
  (models : dict ModelDef.t) (generate_flat : bool) : str :=
  join [nl] (single_file_lines enums models generate_flat).

(** [m.schema or "default"] *)
Definition schema_or_default (m : ModelDef.t) : str :=
  match ModelDef.schema m with
  | Some s => if is_empty s then py "default" else s
  | None => py "default"
  end.

(** [d[key].append(m)] on a [defaultdict(list)]. *)
Definition defaultdict_append {A : Type} (d : dict (list A)) (key : str) (m : A)
  : dict (list A) :=
  match dict_get d key with
  | Some lst => dict_set d key (append lst m)
  | None => dict_set d key (append [] m)
  end.

(** [d[key].add(x)] on a [defaultdict(set)]. *)
Definition defaultdict_add (d : dict pyset) (key : str) (x : str) : dict pyset :=
  match dict_get d key with
  | Some s => dict_set d key (set_add s x)
  | None => dict_set d key (set_add [] x)
  end.

Definition partition_models (models : dict ModelDef.t)
  : dict (list ModelDef.t) :=
  fold_left (fun models_by_schema m =>
               let key := schema_or_default m in
               defaultdict_append models_by_schema key m)
            (dict_values models) [].

Definition build_model_to_schema (models_by_schema : dict (list ModelDef.t))
  : dict str :=
  fold_left
    (fun model_to_schema item =>
       let '(schema_name, lst) := item in
       fold_left (fun model_to_schema m =>
                    dict_set model_to_schema (ModelDef.name m) schema_name)
                 lst model_to_schema)
    models_by_schema [].

(** [model_to_schema.get(k, default)] *)
Definition dict_get_default {V : Type} (d : dict V) (k : str) (default : V) : V :=
  match dict_get d k with
  | Some v => v
  | None => default
  end.

(** The two nested loops filling [cross_imports] for one partition. *)
Definition collect_cross_imports (schema_name : str)
  (schema_models : list ModelDef.t) (model_names : pyset)
  (model_to_schema : dict str) : dict pyset :=
  fold_left
    (fun cross_imports m =>
       fold_left
         (fun cross_imports field =>
            if set_in (FieldDef.type_name field) model_names then
              let other_schema :=
                dict_get_default model_to_schema (FieldDef.type_name field)
                                 schema_name in
              if negb (str_eqb other_schema schema_name) then
                defaultdict_add cross_imports other_schema
                                (FieldDef.type_name field)
              else cross_imports
            else cross_imports)
         (ModelDef.fields m) cross_imports)
    schema_models [].

Definition import_line (imported_names : list str) (other_schema : str) : str :=
  py "import type { " ++ join (py ", ") imported_names ++ py " } from "
  ++ [dq] ++ py "../" ++ other_schema ++ py "/models" ++ [dq] ++ py ";".

(** The loop over [cross_imports.items()] that appends the import lines. *)
Definition emit_cross_imports (lines : list str) (cross_imports : dict pyset)
  : list str :=
  fold_left
    (fun lines item =>
       let '(other_schema, names) := item in
       if is_empty names then lines
       else
         let imported_names := sorted names in
         append lines (import_line imported_names other_schema))
    cross_imports lines.

(** The list [lines] of one partition's artifact just before it is joined. *)
Definition schema_file_lines (enums : dict EnumDef.t) (generate_flat : bool)
  (model_names enum_names : pyset) (model_to_schema : dict str)
  (schema_name : str) (schema_models : list ModelDef.t) : list str :=
  let lines := [] in
  let lines := append lines (py "// Auto-generated by Prisma TypeTags") in
  let lines := append lines (py "// Types for schema: " ++ schema_name) in
  let lines :=
    append lines
      (py "import type { DateTimeString, JsonValue } from "
       ++ [dq] ++ py "../common/base" ++ [dq] ++ py ";") in
  let lines :=
    if negb (is_empty enums) then
      let enum_imports := join (py ", ") (sorted enum_names) in
      append lines
        (py "import type { " ++ enum_imports ++ py " } from "
         ++ [dq] ++ py "../common/enums" ++ [dq] ++ py ";")
    else lines in
  let lines := append lines [] in
  let cross_imports :=
    collect_cross_imports schema_name schema_models model_names
                          model_to_schema in
  let lines := emit_cross_imports lines cross_imports in
  let lines := if negb (is_empty cross_imports) then append lines [] else lines in
  fold_left (emit_model generate_flat model_names enum_names)
            schema_models lines.

Definition generate_split_files (enums : dict EnumDef.t)
  (models : dict ModelDef.t) (generate_flat generate_index : bool)
  : dict str :=
  let files : dict str := [] in
  let model_names := dict_keys models in
  let enum_names := dict_keys enums in
  let base_lines := [] in
  let base_lines := append base_lines (py "// Auto-generated by Prisma TypeTags") in
  let base_lines := append base_lines (py "// Common base types") in
  let base_lines := append base_lines (py "export type DateTimeString = string;") in
  let base_lines := append base_lines (py "export type JsonValue = any;") in
  let base_lines := append base_lines [] in
  let files := dict_set files (py "common/base.ts") (join [nl] base_lines) in
  let enums_lines := [] in
  let enums_lines := append enums_lines (py "// Auto-generated by Prisma TypeTags") in
  let enums_lines := append enums_lines (py "// Enums for the whole schema") in
  let enums_lines :=
    if negb (is_empty enums) then
      let enums_lines := append enums_lines [] in
      emit_enums enums_lines enums
    else enums_lines in
  let files := dict_set files (py "common/enums.ts") (join [nl] enums_lines) in
  let models_by_schema := partition_models models in
  let model_to_schema := build_model_to_schema models_by_schema in
  let files :=
    fold_left
      (fun files item =>
         let '(schema_name, schema_models) := item in
         let lines :=
           schema_file_lines enums generate_flat model_names enum_names
                             model_to_schema schema_name schema_models in
         dict_set files (schema_name ++ py "/models.ts") (join [nl] lines))
      models_by_schema files in
  if generate_index then
    let idx_lines := [] in
    let idx_lines :=
      append idx_lines (py "export * from " ++ [dq] ++ py "./common/base" ++ [dq] ++ py ";") in
    let idx_lines :=
      append idx_lines (py "export * from " ++ [dq] ++ py "./common/enums" ++ [dq] ++ py ";") in
    let idx_lines :=
      fold_left
        (fun idx_lines schema_name =>
           append idx_lines
             (py "export * from " ++ [dq] ++ py "./" ++ schema_name
              ++ py "/models" ++ [dq] ++ py ";"))
        (sorted (dict_keys models_by_schema)) idx_lines in
    let idx_lines := append idx_lines [] in
    dict_set files (py "index.ts") (join [nl] idx_lines)
  else files.

Definition prisma_to_ts (schema : str) : outcome str :=
  '(enums, models) <- parse_prisma schema ;;
  Ret (generate_single_file enums models false).

(* ================================================================== *)
(** ** Notions used to state the properties *)
(* ================================================================== *)

(** The source scalars that the table sends to a given target name. *)
Definition scalar_sources (target : str) : list str :=
  dict_keys (filter (fun kv => str_eqb (snd kv) target) SCALAR_TS_MAP).

(** A list of lines without its last element when that element is empty:
    what [splitlines] reads back from lines joined by newlines. *)
Fixpoint drop_final_empty (ls : list str) : list str :=
  match ls with
  | [] => []
  | l :: ls' =>
      match ls' with
      | [] => if is_empty l then [] else [l]
      | _ :: _ => l :: drop_final_empty ls'
      end
  end.

(** No character of the string is a line boundary. *)
Definition one_line (l : str) : Prop := Forall (fun c => is_linebreak c = false) l.

(** No character of the string is whitespace. *)
Definition no_space (s : str) : Prop := Forall (fun c => is_space c = false) s.

(** A token as produced by [split]: non-empty and free of whitespace. *)
Definition is_token (s : str) : Prop := s <> [] /\ no_space s.

(** What the parser guarantees about a field, an enum and a model. *)
Definition wf_field (f : FieldDef.t) : Prop :=
  is_token (FieldDef.name f) /\ no_space (FieldDef.type_name f).

(** The partition name of a model, when present, is non-empty and lies on
    one line. *)
Definition wf_schema (schema_name : option str) : Prop :=
  forall g, schema_name = Some g -> g <> [] /\ one_line g.

Definition wf_enum (k : str) (e : EnumDef.t) : Prop :=
  EnumDef.name e = k /\ is_token k /\ Forall is_token (EnumDef.values e).

Definition wf_model (k : str) (m : ModelDef.t) : Prop :=
  ModelDef.name m = k /\ is_token k
  /\ Forall wf_field (ModelDef.fields m)
  /\ wf_schema (ModelDef.schema m).

(** A dictionary as Python builds it: no key occurs twice. *)
Definition wf_dict {V : Type} (wf : str -> V -> Prop) (d : dict V) : Prop :=
  NoDup (dict_keys d) /\ Forall (fun kv => wf (fst kv) (snd kv)) d.

(** The lines declaring one enum: nothing for an enum without values. *)
Definition enum_lines (enum : EnumDef.t) : list str :=
  if is_empty (EnumDef.values enum) then [] else [enum_union_line enum; []].

(** The fields that are not relations. *)
Definition flat_fields (model_names : pyset) (fields : list FieldDef.t)
  : list FieldDef.t :=
  filter (fun f => negb (set_in (FieldDef.type_name f) model_names)) fields.

(** The full interface of a model, as a block of lines. *)
Definition full_interface (model_names enum_names : pyset) (m : ModelDef.t)
  : list str :=
  [py "export interface " ++ ModelDef.name m ++ py " " ++ py "{"]
  ++ map (fun f => field_line f (prisma_field_to_ts f model_names enum_names))
         (ModelDef.fields m)
  ++ [py "}"; []].

(** The flat interface of a model, as a block of lines. *)
Definition flat_interface (model_names enum_names : pyset) (m : ModelDef.t)
  : list str :=
  [py "export interface " ++ ModelDef.name m ++ py "Flat " ++ py "{"]
  ++ map (fun f => field_line f (prisma_field_to_ts_flat f enum_names))
         (flat_fields model_names (ModelDef.fields m))
  ++ [py "}"; []].

Definition model_lines (generate_flat : bool) (model_names enum_names : pyset)
  (m : ModelDef.t) : list str :=
  full_interface model_names enum_names m
  ++ (if generate_flat then flat_interface model_names enum_names m else []).

(* ================================================================== *)
(** ** Example schemas *)
(* ================================================================== *)

(** A model [User] with one scalar field, and a model [Post] with a scalar
    field and a relation to [User]. *)
Definition post_schema : str :=
  py "model User {" ++ [nl] ++ py "  id String" ++ [nl] ++ py "}" ++ [nl]
  ++ py "model Post {" ++ [nl] ++ py "  id String" ++ [nl]
  ++ py "  author User" ++ [nl] ++ py "}" ++ [nl].

Definition post_model : ModelDef.t :=
  ModelDef.mk (py "Post")
    [FieldDef.mk (py "id") (py "String") false false (py "id String");
     FieldDef.mk (py "author") (py "User") false false (py "author User")]
    None.

Definition post_models : dict ModelDef.t :=
  [(py "User",
    ModelDef.mk (py "User")
      [FieldDef.mk (py "id") (py "String") false false (py "id String")] None);
   (py "Post", post_model)].

(* ================================================================== *)
(** ** Reading declarations back from an artifact *)
(* ================================================================== *)

Definition str_eq_dec : forall a b : str, {a = b} + {a <> b} :=
  list_eq_dec N.eq_dec.

(** The identifier that a line of an artifact declares, when the line is an
    exported type or interface declaration: the word after the keyword. *)
Definition declared_identifier (line : str) : option str :=
  let word := takewhile (fun c => negb (is_space c)) in
  if startswith line (py "export type ") then
    Some (word (skipn (length (py "export type ")) line))
  else if startswith line (py "export interface ") then
    Some (word (skipn (length (py "export interface ")) line))
  else None.

Definition declaration_of (line : str) : list str :=
  match declared_identifier line with
  | Some x => [x]
  | None => []
  end.

(** The declared identifiers of an artifact, in order of appearance. *)
Definition declared_identifiers (artifact : str) : list str :=
  flat_map declaration_of (splitlines artifact).

(** An enum with no value, then a model with no field. *)
Definition empty_blocks_schema : str :=
  py "enum E {" ++ [nl] ++ py "}" ++ [nl] ++ py "model A {" ++ [nl] ++ py "}".

(* ================================================================== *)
(** ** Notions about the split-file artifacts *)
(* ================================================================== *)

(** The text of one partition's artifact. *)
Definition schema_file_lines_text (enums : dict EnumDef.t) (generate_flat : bool)
  (model_names enum_names : pyset) (model_to_schema : dict str)
  (schema_name : str) (schema_models : list ModelDef.t) : str :=
  join [nl]
    (schema_file_lines enums generate_flat model_names enum_names
       model_to_schema schema_name schema_models).

(** A line that imports names from some partition's models artifact. *)
Definition is_models_import (line : str) : bool :=
  startswith line (py "import type { ")
  && endswith line (py "/models" ++ [dq] ++ py ";").

(** Strictly increasing for the order on strings. *)
Definition strictly_sorted (names : list str) : Prop :=
  StronglySorted str_lt names.

(** The pairs [(other_schema, type_name)] that the loops over a partition's
    fields record in [cross_imports], in order. *)
Definition cross_pairs (schema_name : str) (schema_models : list ModelDef.t)
  (model_names : pyset) (model_to_schema : dict str) : list (str * str) :=
  flat_map
    (fun m =>
       flat_map
         (fun field =>
            let t := FieldDef.type_name field in
            if set_in t model_names then
              let other_schema := dict_get_default model_to_schema t schema_name in
              if negb (str_eqb other_schema schema_name)
              then [(other_schema, t)] else []
            else [])
         (ModelDef.fields m))
    schema_models.

(** The import lines of a [cross_imports] dictionary. *)
Definition cross_import_lines (cross_imports : dict pyset) : list str :=
  flat_map (fun item : str * pyset =>
              if is_empty (snd item) then []
              else [import_line (sorted (snd item)) (fst item)])
           cross_imports.

(** Model [A] in partition [x] with a relation to model [B] in partition
    [y]. *)
Definition ab_schema : str :=
  py "model A {" ++ [nl]
  ++ py "  b B" ++ [nl]
  ++ py "  @@schema(" ++ [dq] ++ py "x" ++ [dq] ++ py ")" ++ [nl]
  ++ py "}" ++ [nl]
  ++ py "model B {" ++ [nl]
  ++ py "  @@schema(" ++ [dq] ++ py "y" ++ [dq] ++ py ")" ++ [nl]
  ++ py "}" ++ [nl].

Definition a_model : ModelDef.t :=
  ModelDef.mk (py "A")
    [FieldDef.mk (py "b") (py "B") false false (py "b B")] (Some (py "x")).

Definition b_model : ModelDef.t := ModelDef.mk (py "B") [] (Some (py "y")).

Definition ab_models : dict ModelDef.t := [(py "A", a_model); (py "B", b_model)].

(* ================================================================== *)
(** ** Notions about blocks of the schema text *)
(* ================================================================== *)

(** The opening brace, code point 123. *)
Definition lbrace : char := 123%N.

(** The lines between a block header and the block body: none when the
    header line carries the opening brace; otherwise the lines without a
    brace that follow the header, and the first line with a brace. *)
Inductive opening_of (hdr : str) : list str -> Prop :=
| opening_inline :
    contains_char lbrace (strip hdr) = true -> opening_of hdr []
| opening_later (gap : list str) (brace_line : str) :
    contains_char lbrace (strip hdr) = false ->
    Forall (fun g => contains_char lbrace g = false) gap ->
    contains_char lbrace brace_line = true ->
    opening_of hdr (gap ++ [brace_line]).

(** A line that starts no block. *)
Definition no_header (line : str) : Prop :=
  startswith (strip line) (py "model ") || startswith (strip line) (py "enum ")
  = false.

(** A line that does not close a block. *)
Definition not_closing (line : str) : Prop := strip line <> py "}".

(** What the parser does with a block once its kind, name and body lines
    are known: the definition built from the body is stored under the name,
    in the enum map or in the model map. *)
Definition store_block (is_enum : bool) (name : str) (body_lines : list str)
  (enums : dict EnumDef.t) (models : dict ModelDef.t)
  : outcome (dict EnumDef.t * dict ModelDef.t) :=
  if is_enum then
    values <- for_each enum_body_step body_lines [] ;;
    Ret (dict_set enums name (EnumDef.mk name values), models)
  else
    '(fields, schema_name) <- for_each model_body_step body_lines ([], None) ;;
    Ret (enums, dict_set models name (ModelDef.mk name fields schema_name)).

(** The keyword that starts a block header, with its separating space. *)
Definition header_keyword (is_enum : bool) : str :=
  if is_enum then py "enum " else py "model ".

(* ================================================================== *)
(** ** Notions about stored fields *)
(* ================================================================== *)

(** The raw type token that a stored field stands for: the type name, then
    the list marker, then the optional marker. *)
Definition type_token_of (f : FieldDef.t) : str :=
  FieldDef.type_name f
  ++ (if FieldDef.is_list f then py "[]" else [])
  ++ (if FieldDef.is_optional f then py "?" else []).

(** A stored field agrees with the line it was read from: the line's first
    token is the field name and its second token is the type token; neither
    the line nor the name begins with [@]. *)
Definition field_faithful (f : FieldDef.t) : Prop :=
  (exists tl,
      split_ws (FieldDef.raw_line f)
      = FieldDef.name f :: type_token_of f :: tl)
  /\ startswith (FieldDef.raw_line f) (py "@") = false
  /\ startswith (FieldDef.name f) (py "@") = false.

(* ================================================================== *)
(** ** Notions about the index artifact *)
(* ================================================================== *)

(** The path of a partition's artifact. *)
Definition models_path (schema_name : str) : str := schema_name ++ py "/models.ts".

(** The line of the index that re-exports a partition's artifact. *)
Definition export_line (schema_name : str) : str :=
  py "export * from " ++ [dq] ++ py "./" ++ schema_name ++ py "/models"
  ++ [dq] ++ py ";".

(* ================================================================== *)
(** ** The generation step of the application *)
(* ================================================================== *)

(** [d[k]] on a dictionary. *)
Definition getitem_key {V : Type} (d : dict V) (k : str) : outcome V :=
  match dict_get d k with
  | Some v => Ret v
  | None => Raise KeyError
  end.

(** The body of the [try] block of [PrismaToTSApp.generate_ts], as a
    function of the text of the schema pane and of the three options.  It
    returns what the method stores in [generated_files] and in
    [preview_file], and the text it puts in the preview pane; the widget
    updates themselves and the status label are left out.  An exception
    raised here is what the method's handler turns into an error dialog. *)
Definition generate_ts_body (schema : str)
  (split_by_schema generate_flat generate_index : bool)
  : outcome (dict str * str * str) :=
  '(enums, models) <- parse_prisma schema ;;
  let files :=
    if split_by_schema then
      generate_split_files enums models generate_flat generate_index
    else
      let main_ts := generate_single_file enums models generate_flat in
      let files := dict_set [] (py "models.ts") main_ts in
      if generate_index then
        dict_set files (py "index.ts")
          (py "export * from " ++ [dq] ++ py "./models" ++ [dq] ++ py ";" ++ [nl])
      else files in
  let generated_files := files in
  preview_name <-
    (if dict_mem files (py "models.ts") then Ret (py "models.ts")
     else if dict_mem files (py "index.ts") then Ret (py "index.ts")
     else getitem (sorted (dict_keys files)) 0) ;;
  let header := py "// Archivos generados:" ++ [nl] in
  let header :=
    fold_left (fun header name => header ++ py "// - " ++ name ++ [nl])
              (sorted (dict_keys files)) header in
  let header := header ++ [nl] in
  preview_text <- getitem_key files preview_name ;;
  Ret (generated_files, preview_name, header ++ preview_text).

(** [PrismaToTSApp.generate_ts]: nothing is generated ([None]) when the
    schema pane holds only whitespace. *)
Definition generate_ts (schema : str)
  (split_by_schema generate_flat generate_index : bool)
  : outcome (option (dict str * str * str)) :=
  if is_empty (strip schema) then Ret None
  else
    r <- generate_ts_body schema split_by_schema generate_flat generate_index ;;
    Ret (Some r).

(* ================================================================== *)
(** ** A schema that declares names twice over *)
(* ================================================================== *)

(** A model named like the scalar [String], and the name [Role] declared
    both as an enum and as a model. *)
Definition shadow_schema : str :=
  py "model String {" ++ [nl] ++ py "  tags String[]" ++ [nl] ++ py "}" ++ [nl]
  ++ py "enum Role {" ++ [nl] ++ py "  ADMIN" ++ [nl] ++ py "}" ++ [nl]
  ++ py "model Role {" ++ [nl] ++ py "  role Role" ++ [nl] ++ py "}" ++ [nl].

Definition shadow_enums : dict EnumDef.t :=
  [(py "Role", EnumDef.mk (py "Role") [py "ADMIN"])].

Definition shadow_models : dict ModelDef.t :=
  [(py "String",
    ModelDef.mk (py "String")
      [FieldDef.mk (py "tags") (py "String") false true (py "tags String[]")]
      None);
   (py "Role",
    ModelDef.mk (py "Role")
      [FieldDef.mk (py "role") (py "Role") false false (py "role Role")]
      None)].

(* ================================================================== *)
(** * Properties *)
(* ================================================================== *)

(** ** Strings and sets *)

Lemma str_eqb_eq (a b : str) : str_eqb a b = true <-> a = b.
Proof.
  revert b; induction a as [|x a IH]; intros [|y b]; simpl;
    try (split; (reflexivity || discriminate)).
  rewrite andb_true_iff, N.eqb_eq, IH.
  split; [intros [-> ->]; reflexivity | intros H; inversion H; auto].
Qed.

Lemma str_eqb_refl (a : str) : str_eqb a a = true.
Proof. apply str_eqb_eq; reflexivity. Qed.

Lemma str_eqb_neq (a b : str) : str_eqb a b = false <-> a <> b.
Proof.
  rewrite <- str_eqb_eq. destruct (str_eqb a b); split; congruence.
Qed.

Lemma str_eqb_sym (a b : str) : str_eqb a b = str_eqb b a.
Proof.
  destruct (str_eqb a b) eqn:E.
  - apply str_eqb_eq in E; subst; symmetry; apply str_eqb_refl.
  - symmetry; apply str_eqb_neq; apply str_eqb_neq in E; congruence.
Qed.

Lemma set_in_In (x : str) (s : pyset) : set_in x s = true <-> In x s.
Proof.
  unfold set_in; rewrite existsb_exists; split.
  - intros (y & Hy & E); apply str_eqb_eq in E; subst; assumption.
  - intros H; exists x; split; [assumption | apply str_eqb_refl].
Qed.

Lemma set_in_not_In (x : str) (s : pyset) : set_in x s = false <-> ~ In x s.
Proof.
  rewrite <- set_in_In; destruct (set_in x s); split; congruence.
Qed.

(** ** The type mapper *)

(** C4, as stated, fails: the numeric target is not the image of exactly
    three source scalars. *)
Lemma scalar_number_sources_not_three :
  ~ (NoDup (scalar_sources (py "number"))
     /\ length (scalar_sources (py "number")) = 3).
Proof. intros [_ H]; vm_compute in H; discriminate. Qed.

(** C4 (amended): the scalar table has pairwise distinct keys, so every
    source scalar has exactly one target; the target [number] is the image of
    exactly four distinct source scalars, [Int], [Float], [BigInt] and
    [Decimal]; the table also maps [String] to [string], [Boolean] to
    [boolean], [DateTime] to the alias [DateTimeString] and [Json] to the
    alias [JsonValue]. *)
Theorem scalar_table_shape :
  NoDup (dict_keys SCALAR_TS_MAP)
  /\ scalar_sources (py "number")
     = [py "Int"; py "Float"; py "BigInt"; py "Decimal"]
  /\ NoDup (scalar_sources (py "number"))
  /\ length (scalar_sources (py "number")) = 4
  /\ dict_get SCALAR_TS_MAP (py "String") = Some (py "string")
  /\ dict_get SCALAR_TS_MAP (py "Boolean") = Some (py "boolean")
  /\ dict_get SCALAR_TS_MAP (py "DateTime") = Some (py "DateTimeString")
  /\ dict_get SCALAR_TS_MAP (py "Json") = Some (py "JsonValue").
Proof.
  assert (Hk : NoDup (dict_keys SCALAR_TS_MAP)).
  { vm_compute.
    repeat (constructor; [simpl; intuition discriminate|]). constructor. }
  assert (Hn : NoDup (scalar_sources (py "number"))).
  { vm_compute.
    repeat (constructor; [simpl; intuition discriminate|]). constructor. }
  repeat split; try assumption; reflexivity.
Qed.

(** C1, as stated, fails when a name is declared twice over: with a model
    named [String], the list scalar field [tags String[]] yields
    [string[] | null], not [string[]]; with [Role] declared both as an enum
    and as a model, the required field [role Role] yields [Role | null], not
    [Role]. *)
Lemma prisma_field_to_ts_shadowed :
  parse_prisma shadow_schema = Ret (shadow_enums, shadow_models)
  /\ prisma_field_to_ts
       (FieldDef.mk (py "tags") (py "String") false true (py "tags String[]"))
       (dict_keys shadow_models) (dict_keys shadow_enums)
     = py "string[] | null"
  /\ py "string[] | null" <> py "string[]"
  /\ prisma_field_to_ts
       (FieldDef.mk (py "role") (py "Role") false false (py "role Role"))
       (dict_keys shadow_models) (dict_keys shadow_enums)
     = py "Role | null"
  /\ py "Role | null" <> py "Role".
Proof. vm_compute. repeat split; discriminate. Qed.

Section TypeMapper.
Variables model_names enum_names : pyset.

(** C1 (amended): the modifier lattice of the nested policy.  Let [s] be
    a scalar with target [ts], [m] a declared model and [e] a declared enum,
    neither of them a scalar name.  A list of [s] is [ts[]], followed by
    [ | null] when [s] is also a declared model name; an optional non-list
    [s] is [ts | null]; a non-list [s] that is also a declared model name is
    [ts | null] whatever the optional flag; a non-list [m] is [m | null]
    whatever the optional flag; a list of [m] is [m[] | null]; a required
    non-list [e] is [e], followed by [ | null] when [e] is also a declared
    model name. *)
Theorem prisma_field_to_ts_lattice (s ts m e : str)
  (Hs : dict_get SCALAR_TS_MAP s = Some ts)
  (Hm : set_in m model_names = true)
  (Hms : dict_get SCALAR_TS_MAP m = None)
  (He : set_in e enum_names = true)
  (Hes : dict_get SCALAR_TS_MAP e = None) :
  (forall n o r,
      prisma_field_to_ts (FieldDef.mk n s o true r) model_names enum_names
      = ts ++ py "[]"
        ++ (if set_in s model_names then py " | null" else []))
  /\ (forall n r,
      prisma_field_to_ts (FieldDef.mk n s true false r) model_names enum_names
      = ts ++ py " | null")
  /\ (forall n o r,
      set_in s model_names = true ->
      prisma_field_to_ts (FieldDef.mk n s o false r) model_names enum_names
      = ts ++ py " | null")
  /\ (forall n o r,
      prisma_field_to_ts (FieldDef.mk n m o false r) model_names enum_names
      = m ++ py " | null")
  /\ (forall n o r,
      prisma_field_to_ts (FieldDef.mk n m o true r) model_names enum_names
      = m ++ py "[]" ++ py " | null")
  /\ (forall n r,
      prisma_field_to_ts (FieldDef.mk n e false false r) model_names enum_names
      = e ++ (if set_in e model_names then py " | null" else [])).
Proof.
  unfold prisma_field_to_ts; cbn [FieldDef.type_name FieldDef.is_list
                                   FieldDef.is_optional].
  rewrite Hs, Hm, Hms, He, Hes.
  repeat split; intros; cbn [negb andb];
    try destruct o; try destruct (set_in m enum_names);
    try destruct (set_in s model_names); try destruct (set_in e model_names);
    try discriminate;
    cbn [negb andb]; rewrite <- ?app_assoc, ?app_nil_r; reflexivity.
Qed.

(** C9: a field whose type is neither in the scalar table, nor an enum
    name, nor a model name keeps its type name as base type under the
    nested policy and gets the base type [any] under the flat policy; the
    list and optional decorations are then applied to that base. *)
Theorem unknown_type_base (f : FieldDef.t)
  (Hscalar : dict_get SCALAR_TS_MAP (FieldDef.type_name f) = None)
  (Henum : set_in (FieldDef.type_name f) enum_names = false)
  (Hmodel : set_in (FieldDef.type_name f) model_names = false) :
  prisma_field_to_ts f model_names enum_names
  = (if FieldDef.is_list f then FieldDef.type_name f ++ py "[]"
     else if FieldDef.is_optional f then FieldDef.type_name f ++ py " | null"
     else FieldDef.type_name f)
  /\ prisma_field_to_ts_flat f enum_names
     = (if FieldDef.is_list f then
          if FieldDef.is_optional f then (py "any" ++ py "[]") ++ py " | null"
          else py "any" ++ py "[]"
        else if FieldDef.is_optional f then py "any" ++ py " | null"
        else py "any").
Proof.
  unfold prisma_field_to_ts, prisma_field_to_ts_flat.
  rewrite Hscalar, Henum, Hmodel.
  destruct (FieldDef.is_list f), (FieldDef.is_optional f); split; reflexivity.
Qed.

(** C10: under the nested policy an optional, non-list field of unknown
    type is rendered as its type name followed by [ | null]. *)
Theorem unknown_optional_nullable (f : FieldDef.t)
  (Hlist : FieldDef.is_list f = false)
  (Hopt : FieldDef.is_optional f = true)
  (Hscalar : dict_get SCALAR_TS_MAP (FieldDef.type_name f) = None)
  (Henum : set_in (FieldDef.type_name f) enum_names = false)
  (Hmodel : set_in (FieldDef.type_name f) model_names = false) :
  prisma_field_to_ts f model_names enum_names
  = FieldDef.type_name f ++ py " | null".
Proof.
  unfold prisma_field_to_ts.
  rewrite Hscalar, Henum, Hmodel, Hlist, Hopt. reflexivity.
Qed.
End TypeMapper.

(** The five cases of the lattice on the fields [tags String[]],
    [bio String?], [owner User], [pets Pet[]] and [role Role], with models
    [User] and [Pet] and enum [Role] declared. *)
Lemma prisma_field_to_ts_lattice_witness :
  let mn := [py "User"; py "Pet"] in
  let en := [py "Role"] in
  prisma_field_to_ts
    (FieldDef.mk (py "tags") (py "String") false true (py "tags String[]")) mn en
  = py "string[]"
  /\ prisma_field_to_ts
       (FieldDef.mk (py "bio") (py "String") true false (py "bio String?")) mn en
     = py "string | null"
  /\ prisma_field_to_ts
       (FieldDef.mk (py "owner") (py "User") false false (py "owner User")) mn en
     = py "User | null"
  /\ prisma_field_to_ts
       (FieldDef.mk (py "owner") (py "User") true false (py "owner User?")) mn en
     = py "User | null"
  /\ prisma_field_to_ts
       (FieldDef.mk (py "pets") (py "Pet") false true (py "pets Pet[]")) mn en
     = py "Pet[] | null"
  /\ prisma_field_to_ts
       (FieldDef.mk (py "role") (py "Role") false false (py "role Role")) mn en
     = py "Role".
Proof.
  intros mn en.
  destruct (@prisma_field_to_ts_lattice mn en (py "String") (py "string")
              (py "User") (py "Role"))
    as (H1 & H2 & _ & H3 & _ & H5); try reflexivity.
  destruct (@prisma_field_to_ts_lattice mn en (py "String") (py "string")
              (py "Pet") (py "Role"))
    as (_ & _ & _ & _ & H4 & _); try reflexivity.
  rewrite H1, H2, !H3, H4, H5. repeat split.
Defined.

Lemma unknown_type_base_witness :
  let f := FieldDef.mk (py "geo") (py "Point") true true (py "geo Point[]?") in
  prisma_field_to_ts f [py "User"] [py "Role"] = py "Point[]"
  /\ prisma_field_to_ts_flat f [py "Role"] = py "any[] | null".
Proof.
  intros f.
  exact (@unknown_type_base [py "User"] [py "Role"] f
           eq_refl eq_refl eq_refl).
Defined.

Lemma unknown_optional_nullable_witness :
  prisma_field_to_ts
    (FieldDef.mk (py "geo") (py "Point") true false (py "geo Point?"))
    [py "User"] [py "Role"]
  = py "Point | null".
Proof.
  exact (@unknown_optional_nullable [py "User"] [py "Role"]
           (FieldDef.mk (py "geo") (py "Point") true false (py "geo Point?"))
           eq_refl eq_refl eq_refl eq_refl eq_refl).
Defined.

(** ** The comment stripper *)

Lemma fold_left_append_map {A B : Type} (f : A -> B) (xs : list A) (acc : list B) :
  fold_left (fun lines x => lines ++ [f x]) xs acc = acc ++ map f xs.
Proof.
  revert acc; induction xs as [|x xs IH]; intros acc; simpl.
  - now rewrite app_nil_r.
  - rewrite IH, <- app_assoc. reflexivity.
Qed.

Lemma strip_line_comments_eq (schema : str) :
  strip_line_comments schema
  = join [nl] (map strip_comment (splitlines schema)).
Proof.
  unfold strip_line_comments. now rewrite fold_left_append_map.
Qed.

Lemma splitlines_one_line (s : str) : Forall one_line (splitlines s).
Proof.
  induction s as [s IH] using (induction_ltof1 _ (@length char)).
  unfold ltof in IH.
  destruct s as [|c s']; [constructor|].
  simpl. destruct (is_linebreak c) eqn:Hc.
  - destruct s' as [|d s''].
    + repeat constructor.
    + destruct (_ && _).
      * constructor; [constructor | apply IH; simpl; lia].
      * constructor; [constructor | apply IH; simpl; lia].
  - assert (H := IH s' ltac:(simpl; lia)).
    destruct (splitlines s') as [|l ls].
    + repeat constructor; assumption.
    + inversion H; subst. constructor; [constructor|]; assumption.
Qed.

Lemma splitlines_nl_cons (rest : str) :
  splitlines (nl :: rest) = [] :: splitlines rest.
Proof. destruct rest; reflexivity. Qed.

Lemma splitlines_line_nl (l rest : str) :
  one_line l -> splitlines (l ++ nl :: rest) = l :: splitlines rest.
Proof.
  intros Hl; induction Hl as [|c l Hc _ IH].
  - apply splitlines_nl_cons.
  - change ((c :: l) ++ nl :: rest) with (c :: (l ++ nl :: rest)).
    cbn [splitlines]. rewrite Hc, IH. reflexivity.
Qed.

Lemma splitlines_single (l : str) :
  one_line l -> splitlines l = if is_empty l then [] else [l].
Proof.
  intros Hl; induction Hl as [|c l Hc Hl IH]; [reflexivity|].
  cbn [splitlines is_empty]. rewrite Hc, IH. destruct l; reflexivity.
Qed.

(** Reading back lines joined by newlines loses at most a final empty line. *)
Lemma splitlines_join (ls : list str) :
  Forall one_line ls -> splitlines (join [nl] ls) = drop_final_empty ls.
Proof.
  induction 1 as [|l ls Hl Hls IH]; [reflexivity|].
  destruct ls as [|l2 ls].
  - simpl. now apply splitlines_single.
  - change (join [nl] (l :: l2 :: ls)) with (l ++ nl :: join [nl] (l2 :: ls)).
    rewrite splitlines_line_nl by assumption.
    rewrite IH. reflexivity.
Qed.

Lemma split_max1_cases (sep s : str) :
  exists h t, split_max1 sep s = h :: t.
Proof.
  destruct s as [|c s]; cbn [split_max1].
  - destruct (startswith [] sep); eauto.
  - destruct (startswith (c :: s) sep); eauto.
    destruct (split_max1 sep s); eauto.
Qed.

Lemma startswith_length (s p : str) :
  startswith s p = true -> length p <= length s.
Proof.
  revert s; induction p as [|a p IH]; intros s H; simpl; [lia|].
  destruct s as [|b s]; [discriminate|].
  simpl in H. apply andb_true_iff in H. destruct H as [_ H].
  apply IH in H. simpl; lia.
Qed.

Lemma startswith_short (s p : str) :
  length s < length p -> startswith s p = false.
Proof.
  intros Hlt. destruct (startswith s p) eqn:E; [|reflexivity].
  apply startswith_length in E. lia.
Qed.

Lemma startswith_app (p a b : str) :
  length p <= length a -> startswith (a ++ b) p = startswith a p.
Proof.
  revert a; induction p as [|x p IHp]; intros a Hle; [reflexivity|].
  destruct a as [|y a]; [simpl in Hle; lia|].
  cbn [app startswith]. rewrite IHp by (simpl in Hle; lia). reflexivity.
Qed.

Lemma contains_sub_short (p t : str) :
  length t < length p -> contains_sub p t = false.
Proof.
  induction t as [|x t IHt]; intros Hlt.
  - destruct p; simpl in *; [lia | reflexivity].
  - cbn [contains_sub]. rewrite IHt by (simpl in *; lia).
    rewrite startswith_short by assumption. reflexivity.
Qed.

(** The head of [split_max1] is the part of the string before the leftmost
    occurrence of the separator. *)
Lemma split_max1_head (sep s : str) :
  sep <> [] ->
  exists rest,
    s = nth 0 (split_max1 sep s) [] ++ rest
    /\ (rest = [] \/ startswith rest sep = true)
    /\ contains_sub sep (nth 0 (split_max1 sep s) [] ++ firstn (length sep - 1) rest)
       = false.
Proof.
  intros Hsep.
  induction s as [|c s IH].
  - exists []. destruct sep as [|a sep]; [congruence|].
    rewrite firstn_nil. simpl. auto.
  - cbn [split_max1]. destruct (startswith (c :: s) sep) eqn:E.
    + exists (c :: s). cbn [nth app]. repeat split; auto.
      apply contains_sub_short. rewrite length_firstn.
      destruct sep; [congruence|]. simpl. lia.
    + destruct IH as (rest & Hs & Hrest & Hno).
      destruct (split_max1 sep s) as [|h t] eqn:Es.
      { destruct (split_max1_cases sep s) as (h & t & Eh); congruence. }
      cbn [nth] in *. exists rest. repeat split; auto.
      * cbn [app]. now f_equal.
      * cbn [app contains_sub]. rewrite Hno, orb_false_r.
        rewrite <- E.
        destruct Hrest as [-> | Hst].
        -- rewrite firstn_nil, app_nil_r in *. subst s. reflexivity.
        -- apply startswith_length in Hst.
           rewrite Hs. symmetry.
           rewrite <- (firstn_skipn (length sep - 1) rest) at 1.
           rewrite app_assoc.
           change (startswith ((c :: h ++ firstn (length sep - 1) rest)
                               ++ skipn (length sep - 1) rest) sep
                   = startswith (c :: h ++ firstn (length sep - 1) rest) sep).
           apply startswith_app.
           simpl length. rewrite length_app, length_firstn.
           destruct sep; [congruence|]. simpl length in *. lia.
Qed.

Lemma one_line_app_l (a b : str) : one_line (a ++ b) -> one_line a.
Proof. unfold one_line; intros H; apply Forall_app in H; tauto. Qed.

(** [strip_comment] keeps exactly the part of the line before the leftmost
    double slash. *)
Lemma strip_comment_prefix (line : str) :
  exists rest,
    line = strip_comment line ++ rest
    /\ (rest = [] \/ startswith rest (py "//") = true)
    /\ contains_sub (py "//") (strip_comment line ++ firstn 1 rest) = false.
Proof.
  unfold strip_comment. destruct (contains_sub (py "//") line) eqn:E.
  - apply (@split_max1_head (py "//") line). discriminate.
  - exists []. rewrite !app_nil_r. auto.
Qed.

Lemma strip_comment_one_line (line : str) :
  one_line line -> one_line (strip_comment line).
Proof.
  intros H. destruct (strip_comment_prefix line) as (rest & E & _).
  rewrite E in H. now apply one_line_app_l in H.
Qed.

(** C7, as stated, fails: on the text [a], newline, newline, which has the
    two lines [a] and the empty line, the result is [a], newline, which has
    one line; the number of newline characters changes as well. *)
Lemma strip_line_comments_loses_final_empty_line :
  let schema := py "a" ++ [nl; nl] in
  strip_line_comments schema = py "a" ++ [nl]
  /\ length (splitlines (strip_line_comments schema))
     <> length (splitlines schema)
  /\ count_occ N.eq_dec (strip_line_comments schema) nl
     <> count_occ N.eq_dec schema nl.
Proof. vm_compute. repeat split; discriminate. Qed.

(** C7 (amended): the lines of the result are the lines of the input, each
    cut at its leftmost double slash, in the same order, except that a last
    line that is empty after the cut is dropped; no line is merged or
    added.  The cut keeps the part of the line before the first double slash
    and nothing else. *)
Theorem strip_line_comments_lines (schema : str) :
  splitlines (strip_line_comments schema)
  = drop_final_empty (map strip_comment (splitlines schema))
  /\ (forall line,
        exists rest,
          line = strip_comment line ++ rest
          /\ (rest = [] \/ startswith rest (py "//") = true)
          /\ contains_sub (py "//") (strip_comment line ++ firstn 1 rest)
             = false).
Proof.
  split; [|apply strip_comment_prefix].
  rewrite strip_line_comments_eq. apply splitlines_join.
  apply Forall_map. eapply Forall_impl; [|apply splitlines_one_line].
  apply strip_comment_one_line.
Qed.

(** ** Whitespace, tokens and stripping *)

Lemma split_ws_tokens (s : str) : Forall is_token (split_ws s).
Proof.
  induction s as [|c s' IH]; [constructor|].
  cbn [split_ws]. destruct (is_space c) eqn:Hc; [assumption|].
  assert (T1 : is_token [c]).
  { split; [discriminate | repeat constructor; assumption]. }
  destruct s' as [|d s'']; [constructor; [exact T1 | constructor]|].
  destruct (is_space d) eqn:Hd; [constructor; assumption|].
  destruct (split_ws (d :: s'')) as [|t ts]; [constructor; [exact T1 | constructor]|].
  inversion IH as [|? ? [_ Ht] Hts]; subst.
  constructor; [|assumption].
  split; [discriminate | constructor; assumption].
Qed.

Lemma split_ws_head_nonspace (c : char) (x : str) :
  is_space c = false -> exists t ts, split_ws (c :: x) = t :: ts.
Proof.
  intros Hc. cbn [split_ws]. rewrite Hc.
  destruct x as [|d x']; [eauto|].
  destruct (is_space d); [eauto|].
  destruct (split_ws (d :: x')); eauto.
Qed.

Lemma dropwhile_head (p : char -> bool) (s : str) :
  dropwhile p s = [] \/ exists c x, dropwhile p s = c :: x /\ p c = false.
Proof.
  induction s as [|c s IH]; [left; reflexivity|].
  simpl. destruct (p c) eqn:E; [assumption|]. right; eauto.
Qed.

Lemma dropwhile_suffix (p : char -> bool) (s : str) :
  exists a, s = a ++ dropwhile p s.
Proof.
  induction s as [|c s [a IH]]; [exists []; reflexivity|].
  simpl. destruct (p c).
  - exists (c :: a). simpl. now f_equal.
  - exists []. reflexivity.
Qed.

Lemma dropwhile_app_keep (p : char -> bool) (a : str) (c : char) (b : str) :
  p c = false -> exists a', dropwhile p (a ++ c :: b) = a' ++ c :: b.
Proof.
  intros Hc. induction a as [|x a IH]; simpl.
  - rewrite Hc. exists []. reflexivity.
  - destruct (p x); [assumption|]. exists (x :: a). reflexivity.
Qed.

(** A stripped string is empty or begins with a character that is not
    whitespace. *)
Lemma strip_head (s : str) :
  strip s = [] \/ exists c x, strip s = c :: x /\ is_space c = false.
Proof.
  unfold strip, rstrip, lstrip.
  destruct (dropwhile_head is_space s) as [-> | (c & x & -> & Hc)].
  - left; reflexivity.
  - right. cbn [rev].
    destruct (@dropwhile_app_keep is_space (rev x) c [] Hc) as (a' & ->).
    rewrite rev_app_distr. simpl. eauto.
Qed.

(** Stripping keeps a contiguous part of the string. *)
Lemma strip_sublist (s : str) : exists a b, s = a ++ strip s ++ b.
Proof.
  unfold strip, rstrip, lstrip.
  destruct (dropwhile_suffix is_space s) as [a Ha].
  destruct (dropwhile_suffix is_space (rev (dropwhile is_space s))) as [b Hb].
  exists a, (rev b).
  rewrite <- rev_app_distr, <- Hb, rev_involutive. assumption.
Qed.

Lemma one_line_app (a b : str) : one_line (a ++ b) <-> one_line a /\ one_line b.
Proof. unfold one_line. apply Forall_app. Qed.

Lemma strip_one_line (s : str) : one_line s -> one_line (strip s).
Proof.
  intros H. destruct (strip_sublist s) as (a & b & E).
  rewrite E in H. apply one_line_app in H. destruct H as [_ H].
  apply one_line_app in H. tauto.
Qed.

Lemma is_linebreak_is_space (c : char) : is_linebreak c = true -> is_space c = true.
Proof.
  unfold is_linebreak, is_space.
  rewrite !orb_true_iff, !andb_true_iff, !N.leb_le, !N.eqb_eq.
  lia.
Qed.

Lemma no_space_one_line (s : str) : no_space s -> one_line s.
Proof.
  unfold no_space, one_line. apply Forall_impl. intros c Hc.
  destruct (is_linebreak c) eqn:E; [|reflexivity].
  apply is_linebreak_is_space in E. congruence.
Qed.

(** ** The parser never raises and never runs out of steps *)

Lemma bind_ret_inv {A B : Type} (c : outcome A) (k : A -> outcome B) (r : B) :
  bind c k = Ret r -> exists a, c = Ret a /\ k a = Ret r.
Proof. destruct c; simpl; intros H; try discriminate. eauto. Qed.

Lemma getitem_ret {A : Type} (l : list A) (i : nat) :
  i < length l -> exists a, getitem l i = Ret a.
Proof.
  intros H. unfold getitem.
  destruct (nth_error l i) eqn:E; [eauto|].
  apply nth_error_None in E. lia.
Qed.

Lemma getitem_In {A : Type} (l : list A) (i : nat) (a : A) :
  getitem l i = Ret a -> In a l.
Proof.
  unfold getitem. destruct (nth_error l i) eqn:E; intros H; inversion H; subst.
  eapply nth_error_In; eassumption.
Qed.

Lemma find_brace_total (lines : list str) (fuel i : nat) :
  length lines - i < fuel ->
  exists j, find_brace fuel lines i = Ret j /\ i <= j.
Proof.
  revert i; induction fuel as [|fuel IH]; intros i Hf; [lia|].
  cbn [find_brace]. destruct (Nat.ltb i (length lines)) eqn:Hi.
  - apply Nat.ltb_lt in Hi.
    destruct (getitem_ret lines Hi) as [cur ->]. cbn [bind].
    destruct (negb (contains_char 123%N cur)).
    + destruct (IH (i + 1)) as (j & -> & Hj); [lia|]. exists j. split; [reflexivity | lia].
    + eauto.
  - eauto.
Qed.

Lemma collect_body_total (lines : list str) (fuel i : nat) (acc : list str) :
  length lines - i < fuel ->
  exists body j, collect_body fuel lines i acc = Ret (body, j) /\ i <= j.
Proof.
  revert i acc; induction fuel as [|fuel IH]; intros i acc Hf; [lia|].
  cbn [collect_body]. destruct (Nat.ltb i (length lines)) eqn:Hi.
  - apply Nat.ltb_lt in Hi.
    destruct (getitem_ret lines Hi) as [cur ->]. cbn [bind].
    destruct (str_eqb (strip cur) (py "}")).
    + eauto.
    + destruct (IH (i + 1) (append acc cur)) as (b & j & -> & Hj); [lia|].
      exists b, j. split; [reflexivity | lia].
  - eauto.
Qed.

Lemma enum_body_step_total (values : list str) (raw : str) :
  exists values', enum_body_step values raw = Ret values'.
Proof.
  unfold enum_body_step.
  destruct (strip_head raw) as [-> | (c & x & -> & Hc)]; [simpl; eauto|].
  cbn [is_empty].
  destruct (startswith (c :: x) (py "@@schema")); [eauto|].
  destruct (startswith (c :: x) (py "@") || startswith (c :: x) (py "@@"));
    [eauto|].
  destruct (@split_ws_head_nonspace c x Hc) as (t & ts & ->).
  cbn [getitem nth_error bind]. destruct (negb (is_empty t)); eauto.
Qed.

Lemma model_body_step_total (st : list FieldDef.t * option str) (raw : str) :
  exists st', model_body_step st raw = Ret st'.
Proof.
  unfold model_body_step. destruct st as [fields schema_name].
  destruct (is_empty (strip raw)); [eauto|].
  destruct (startswith (strip raw) (py "@@schema")).
  { destruct (re_search_schema (strip raw)); eauto. }
  destruct (startswith (strip raw) (py "@") || startswith (strip raw) (py "@@"));
    [eauto|].
  destruct (Nat.ltb (length (split_ws (strip raw))) 2) eqn:Hl; [eauto|].
  apply Nat.ltb_ge in Hl.
  destruct (@getitem_ret _ (split_ws (strip raw)) 0) as [a ->]; [lia|].
  destruct (@getitem_ret _ (split_ws (strip raw)) 1) as [b ->]; [lia|].
  cbn [bind]. eauto.
Qed.

Lemma for_each_total {A S : Type} (body : S -> A -> outcome S) :
  (forall s x, exists s', body s x = Ret s') ->
  forall xs s, exists s', for_each body xs s = Ret s'.
Proof.
  intros Hb xs; induction xs as [|x xs IH]; intros s; simpl; [eauto|].
  destruct (Hb s x) as [s1 ->]. simpl. apply IH.
Qed.

Lemma parse_loop_total (lines : list str) (fuel i : nat)
  (enums : dict EnumDef.t) (models : dict ModelDef.t) :
  length lines - i < fuel ->
  exists r, parse_loop fuel lines i enums models = Ret r.
Proof.
  revert i enums models; induction fuel as [|fuel IH];
    intros i enums models Hf; [lia|].
  cbn [parse_loop]. destruct (Nat.ltb i (length lines)) eqn:Hi; [|eauto].
  apply Nat.ltb_lt in Hi.
  destruct (getitem_ret lines Hi) as [raw ->]. cbn [bind].
  destruct (startswith (strip raw) (py "model ")
            || startswith (strip raw) (py "enum "));
    [|apply IH; lia].
  destruct (Nat.ltb (length (split_ws (strip raw))) 2) eqn:Hl; [apply IH; lia|].
  apply Nat.ltb_ge in Hl.
  destruct (@getitem_ret _ (split_ws (strip raw)) 0) as [kind ->]; [lia|].
  destruct (@getitem_ret _ (split_ws (strip raw)) 1) as [name ->]; [lia|].
  cbn [bind].
  assert (H1 : exists i1,
             (if negb (contains_char 123%N (strip raw))
              then j <- find_brace fuel lines (i + 1) ;; Ret (j + 1)
              else Ret (i + 1)) = Ret i1 /\ i + 1 <= i1).
  { destruct (negb (contains_char 123%N (strip raw))).
    - destruct (@find_brace_total lines fuel (i + 1)) as (j & -> & Hj); [lia|].
      cbn [bind]. exists (j + 1). split; [reflexivity | lia].
    - eauto. }
  destruct H1 as (i1 & -> & Hi1). cbn [bind].
  destruct (@collect_body_total lines fuel i1 []) as (body & i2 & -> & Hi2);
    [lia|].
  cbn [bind].
  destruct (str_eqb kind (py "enum")).
  - destruct (for_each_total enum_body_step enum_body_step_total body [])
      as [values ->].
    cbn [bind]. apply IH; lia.
  - destruct (str_eqb kind (py "model")); [|apply IH; lia].
    destruct (for_each_total model_body_step model_body_step_total body ([], None))
      as [[fields schema_name] ->].
    cbn [bind]. apply IH; lia.
Qed.

Lemma find_brace_mono (lines : list str) (fuel fuel' i j : nat) :
  find_brace fuel lines i = Ret j -> fuel <= fuel' ->
  find_brace fuel' lines i = Ret j.
Proof.
  revert fuel' i; induction fuel as [|fuel IH]; intros fuel' i H Hle;
    [discriminate|].
  destruct fuel' as [|fuel']; [lia|].
  cbn [find_brace] in *. destruct (Nat.ltb i (length lines)); [|assumption].
  destruct (getitem lines i) as [cur| |]; cbn [bind] in *; try discriminate.
  destruct (negb (contains_char 123%N cur)); [|assumption].
  apply IH; [assumption | lia].
Qed.

Lemma collect_body_mono (lines : list str) (fuel fuel' i : nat)
  (acc : list str) (r : list str * nat) :
  collect_body fuel lines i acc = Ret r -> fuel <= fuel' ->
  collect_body fuel' lines i acc = Ret r.
Proof.
  revert fuel' i acc; induction fuel as [|fuel IH]; intros fuel' i acc H Hle;
    [discriminate|].
  destruct fuel' as [|fuel']; [lia|].
  cbn [collect_body] in *. destruct (Nat.ltb i (length lines)); [|assumption].
  destruct (getitem lines i) as [cur| |]; cbn [bind] in *; try discriminate.
  destruct (str_eqb (strip cur) (py "}")); [assumption|].
  apply IH; [assumption | lia].
Qed.

Lemma parse_loop_mono (lines : list str) (fuel fuel' i : nat)
  (enums : dict EnumDef.t) (models : dict ModelDef.t)
  (r : dict EnumDef.t * dict ModelDef.t) :
  parse_loop fuel lines i enums models = Ret r -> fuel <= fuel' ->
  parse_loop fuel' lines i enums models = Ret r.
Proof.
  revert fuel' i enums models; induction fuel as [|fuel IH];
    intros fuel' i enums models H Hle; [discriminate|].
  destruct fuel' as [|fuel']; [lia|].
  assert (Hle' : fuel <= fuel') by lia.
  cbn [parse_loop] in *. destruct (Nat.ltb i (length lines)); [|assumption].
  destruct (getitem lines i) as [raw| |]; cbn [bind] in *; try discriminate.
  destruct (startswith (strip raw) (py "model ")
            || startswith (strip raw) (py "enum "));
    [|apply IH; assumption].
  destruct (Nat.ltb (length (split_ws (strip raw))) 2); [apply IH; assumption|].
  destruct (getitem (split_ws (strip raw)) 0) as [kind| |];
    cbn [bind] in *; try discriminate.
  destruct (getitem (split_ws (strip raw)) 1) as [name| |];
    cbn [bind] in *; try discriminate.
  apply bind_ret_inv in H. destruct H as (i1 & Hi1 & H).
  assert (Hi1' : (if negb (contains_char 123%N (strip raw))
                  then j <- find_brace fuel' lines (i + 1) ;; Ret (j + 1)
                  else Ret (i + 1)) = Ret i1).
  { destruct (negb (contains_char 123%N (strip raw))); [|assumption].
    apply bind_ret_inv in Hi1. destruct Hi1 as (j & Hj & Hi1).
    rewrite (find_brace_mono _ _ Hj Hle'). assumption. }
  rewrite Hi1'. cbn [bind].
  apply bind_ret_inv in H. destruct H as ([body i2] & Hb & H).
  rewrite (collect_body_mono _ _ _ Hb Hle'). cbn [bind].
  destruct (str_eqb kind (py "enum")).
  - destruct (for_each enum_body_step body []) as [values| |];
      cbn [bind] in *; try discriminate.
    apply IH; assumption.
  - destruct (str_eqb kind (py "model")); [|apply IH; assumption].
    destruct (for_each model_body_step body ([], None)) as [[fields sn]| |];
      cbn [bind] in *; try discriminate.
    apply IH; assumption.
Qed.

(** C3: for every input text, [parse_prisma] returns an enum map and a
    model map: no index error is raised and the loops end within the step
    budget, and any larger budget gives the same result. *)
Theorem parse_prisma_total (schema : str) (extra : nat) :
  exists enums models,
    parse_prisma schema = Ret (enums, models)
    /\ parse_prisma_fuel
         (S (length (splitlines (strip_line_comments schema))) + extra) schema
       = Ret (enums, models).
Proof.
  unfold parse_prisma, parse_prisma_fuel.
  set (lines := splitlines (strip_line_comments schema)).
  destruct (@parse_loop_total lines (S (length lines)) 0 [] [])
    as ([enums models] & H); [lia|].
  exists enums, models. split; [assumption|].
  eapply parse_loop_mono; [eassumption | lia].
Qed.

(** ** Dictionaries *)

Lemma dict_set_keys {V : Type} (d : dict V) (k : str) (v : V) :
  dict_keys (dict_set d k v)
  = if dict_mem d k then dict_keys d else dict_keys d ++ [k].
Proof.
  unfold dict_mem, dict_keys, set_in.
  induction d as [|[k' v'] d IH]; [reflexivity|].
  cbn [dict_set map fst existsb]. rewrite (str_eqb_sym k k').
  destruct (str_eqb k' k) eqn:E; [reflexivity|].
  cbn [map fst orb]. rewrite IH.
  destruct (existsb (str_eqb k) (map fst d)); reflexivity.
Qed.

Lemma dict_set_In {V : Type} (d : dict V) (k : str) (v : V) (kv : str * V) :
  In kv (dict_set d k v) -> kv = (k, v) \/ In kv d.
Proof.
  induction d as [|[k' v'] d IH]; simpl.
  - intros [<-|[]]; auto.
  - destruct (str_eqb k' k) eqn:E.
    + apply str_eqb_eq in E; subst. intros [<-|H]; auto.
    + intros [<-|H]; auto. destruct (IH H); auto.
Qed.

Lemma dict_set_NoDup {V : Type} (d : dict V) (k : str) (v : V) :
  NoDup (dict_keys d) -> NoDup (dict_keys (dict_set d k v)).
Proof.
  intros H. rewrite dict_set_keys. unfold dict_mem.
  destruct (set_in k (dict_keys d)) eqn:E; [assumption|].
  apply set_in_not_In in E.
  apply NoDup_app; [assumption | repeat constructor; auto |].
  intros x Hx [<-|[]]. contradiction.
Qed.

Lemma wf_dict_nil {V : Type} (wf : str -> V -> Prop) : wf_dict wf [].
Proof. split; constructor. Qed.

Lemma wf_dict_set {V : Type} (wf : str -> V -> Prop) (d : dict V)
  (k : str) (v : V) :
  wf_dict wf d -> wf k v -> wf_dict wf (dict_set d k v).
Proof.
  intros [Hn Hf] Hkv. split; [now apply dict_set_NoDup|].
  apply Forall_forall. intros kv Hin.
  apply dict_set_In in Hin. destruct Hin as [-> | Hin]; [assumption|].
  rewrite Forall_forall in Hf. now apply Hf.
Qed.

Lemma dict_get_In {V : Type} (d : dict V) (k : str) (v : V) :
  dict_get d k = Some v -> In (k, v) d.
Proof.
  induction d as [|[k' v'] d IH]; simpl; [discriminate|].
  destruct (str_eqb k' k) eqn:E.
  - apply str_eqb_eq in E; subst. intros H; inversion H; auto.
  - auto.
Qed.

Lemma In_dict_get {V : Type} (d : dict V) (k : str) (v : V) :
  NoDup (dict_keys d) -> In (k, v) d -> dict_get d k = Some v.
Proof.
  induction d as [|[k' v'] d IH]; simpl; [tauto|].
  intros Hn Hin. inversion Hn as [|? ? Hk Hn']; subst.
  destruct Hin as [E | Hin].
  - inversion E; subst. now rewrite str_eqb_refl.
  - destruct (str_eqb k' k) eqn:E.
    + apply str_eqb_eq in E; subst. exfalso. apply Hk.
      apply (in_map fst) in Hin. exact Hin.
    + auto.
Qed.

Lemma dict_mem_In {V : Type} (d : dict V) (k : str) :
  dict_mem d k = true <-> In k (dict_keys d).
Proof. apply set_in_In. Qed.

Lemma dict_get_None {V : Type} (d : dict V) (k : str) :
  dict_get d k = None <-> ~ In k (dict_keys d).
Proof.
  induction d as [|[k' v'] d IH]; simpl; [tauto|].
  destruct (str_eqb k' k) eqn:E.
  - apply str_eqb_eq in E; subst. split; [discriminate | tauto].
  - apply str_eqb_neq in E. rewrite IH. tauto.
Qed.

(** ** What the parser stores *)

Lemma startswith_eq (s p : str) :
  startswith s p = true -> s = p ++ skipn (length p) s.
Proof.
  revert s; induction p as [|a p IH]; intros s H; [reflexivity|].
  destruct s as [|b s]; [discriminate|].
  simpl in H. apply andb_true_iff in H. destruct H as [E H].
  apply N.eqb_eq in E; subst. simpl. f_equal. now apply IH.
Qed.

Lemma takewhile_dropwhile (p : char -> bool) (s : str) :
  s = takewhile p s ++ dropwhile p s.
Proof.
  induction s as [|c s IH]; [reflexivity|].
  simpl. destruct (p c); [simpl; now f_equal | reflexivity].
Qed.

Lemma schema_match_here_sub (s g : str) :
  schema_match_here s = Some g -> g <> [] /\ exists a b, s = a ++ g ++ b.
Proof.
  unfold schema_match_here.
  destruct (startswith s (py "@@schema(" ++ [dq])) eqn:E; [|discriminate].
  apply startswith_eq in E.
  set (rest := skipn (length (py "@@schema(" ++ [dq])) s) in *.
  set (f := fun c : N => negb (N.eqb c dq)).
  destruct (is_empty (takewhile f rest)) eqn:Eg; cbn [negb andb]; [discriminate|].
  destruct (startswith (dropwhile f rest) (dq :: py ")")); [|discriminate].
  intros H; inversion H; subst g. split.
  - intros E0. rewrite E0 in Eg. discriminate.
  - exists (py "@@schema(" ++ [dq]), (dropwhile f rest).
    rewrite <- takewhile_dropwhile. exact E.
Qed.

Lemma re_search_schema_sub (s g : str) :
  re_search_schema s = Some g -> g <> [] /\ exists a b, s = a ++ g ++ b.
Proof.
  induction s as [|c s IH]; cbn [re_search_schema].
  - destruct (schema_match_here []) eqn:E; [|discriminate].
    intros H; inversion H; subst. now apply schema_match_here_sub.
  - destruct (schema_match_here (c :: s)) eqn:E.
    + intros H; inversion H; subst. now apply schema_match_here_sub.
    + intros H. destruct (IH H) as (Hg & a & b & ->).
      split; [assumption|]. exists (c :: a), b. reflexivity.
Qed.

Lemma no_space_firstn (n : nat) (s : str) : no_space s -> no_space (firstn n s).
Proof.
  unfold no_space. revert s; induction n as [|n IH]; intros s H; [constructor|].
  destruct s as [|c s]; [constructor|].
  inversion H; subst. simpl. constructor; auto.
Qed.

Lemma enum_body_step_tokens (values values' : list str) (raw : str) :
  enum_body_step values raw = Ret values' ->
  Forall is_token values -> Forall is_token values'.
Proof.
  unfold enum_body_step. intros H Hv.
  destruct (is_empty (strip raw)); [inversion H; subst; assumption|].
  destruct (startswith (strip raw) (py "@@schema"));
    [inversion H; subst; assumption|].
  destruct (startswith (strip raw) (py "@") || startswith (strip raw) (py "@@"));
    [inversion H; subst; assumption|].
  apply bind_ret_inv in H. destruct H as (token & Ht & H).
  apply getitem_In in Ht.
  assert (Htok : is_token token).
  { pose proof (split_ws_tokens (strip raw)) as F.
    rewrite Forall_forall in F. now apply F. }
  destruct (negb (is_empty token)); inversion H; subst; [|assumption].
  apply Forall_app. split; [assumption | constructor; [assumption | constructor]].
Qed.

Lemma model_body_step_wf (st st' : list FieldDef.t * option str) (raw : str) :
  model_body_step st raw = Ret st' -> one_line raw ->
  Forall wf_field (fst st) /\ wf_schema (snd st) ->
  Forall wf_field (fst st') /\ wf_schema (snd st').
Proof.
  unfold model_body_step. destruct st as [fields sn]. intros H Hraw Hst.
  destruct (is_empty (strip raw)); [inversion H; subst; assumption|].
  destruct (startswith (strip raw) (py "@@schema")).
  { destruct (re_search_schema (strip raw)) as [g|] eqn:Eg;
      inversion H; subst; [|assumption].
    split; [apply Hst|]. intros g' Hg'. inversion Hg'; subst g'.
    apply re_search_schema_sub in Eg. destruct Eg as (Hne & a & b & E).
    split; [assumption|].
    apply strip_one_line in Hraw. rewrite E in Hraw.
    apply one_line_app in Hraw. destruct Hraw as [_ Hraw].
    apply one_line_app in Hraw. tauto. }
  destruct (startswith (strip raw) (py "@") || startswith (strip raw) (py "@@"));
    [inversion H; subst; assumption|].
  destruct (Nat.ltb (length (split_ws (strip raw))) 2);
    [inversion H; subst; assumption|].
  apply bind_ret_inv in H. destruct H as (field_name & Hfn & H).
  apply bind_ret_inv in H. destruct H as (type_token & Htt & H).
  apply getitem_In in Hfn. apply getitem_In in Htt.
  pose proof (split_ws_tokens (strip raw)) as F. rewrite Forall_forall in F.
  apply F in Hfn. apply F in Htt. destruct Htt as [_ Htt].
  inversion H; subst. cbn [fst snd] in *. split; [|apply Hst].
  apply Forall_app. split; [apply Hst|].
  constructor; [|constructor]. split; [exact Hfn|].
  cbn [FieldDef.type_name].
  assert (Hraw_type :
            no_space (if endswith type_token (py "?")
                      then drop_last 1 type_token else type_token)).
  { destruct (endswith type_token (py "?")); [apply no_space_firstn|]; assumption. }
  destruct (endswith _ (py "[]")); [apply no_space_firstn|]; assumption.
Qed.

Lemma for_each_inv {A S : Type} (body : S -> A -> outcome S)
  (I : S -> Prop) (Q : A -> Prop) :
  (forall s x s', body s x = Ret s' -> Q x -> I s -> I s') ->
  forall xs s s', for_each body xs s = Ret s' -> Forall Q xs -> I s -> I s'.
Proof.
  intros Hb xs; induction xs as [|x xs IH]; intros s s' H HQ Hs; simpl in H.
  - inversion H; subst; assumption.
  - apply bind_ret_inv in H. destruct H as (s1 & H1 & H).
    inversion HQ; subst. eapply IH; eauto.
Qed.

Lemma collect_body_incl (lines : list str) (fuel i j : nat)
  (acc body : list str) :
  collect_body fuel lines i acc = Ret (body, j) ->
  incl acc lines -> incl body lines.
Proof.
  revert i acc; induction fuel as [|fuel IH]; intros i acc H Hacc;
    [discriminate|].
  cbn [collect_body] in H.
  destruct (Nat.ltb i (length lines)); [|inversion H; subst; assumption].
  apply bind_ret_inv in H. destruct H as (cur & Hcur & H).
  destruct (str_eqb (strip cur) (py "}")); [inversion H; subst; assumption|].
  apply IH in H; [assumption|].
  unfold append. apply incl_app; [assumption|].
  intros x [<-|[]]. eapply getitem_In; eassumption.
Qed.

Section ParseInvariant.
Variable lines : list str.
Variable P : dict EnumDef.t -> dict ModelDef.t -> Prop.

Hypothesis P_enum :
  forall enums models name body values,
    P enums models -> is_token name -> incl body lines ->
    for_each enum_body_step body [] = Ret values ->
    P (dict_set enums name (EnumDef.mk name values)) models.

Hypothesis P_model :
  forall enums models name body fields schema_name,
    P enums models -> is_token name -> incl body lines ->
    for_each model_body_step body ([], None) = Ret (fields, schema_name) ->
    P enums (dict_set models name (ModelDef.mk name fields schema_name)).

(** A property of the two maps that every stored block preserves holds of
    the parser's result. *)
Lemma parse_loop_inv (fuel i : nat) (enums : dict EnumDef.t)
  (models : dict ModelDef.t) (r : dict EnumDef.t * dict ModelDef.t) :
  P enums models ->
  parse_loop fuel lines i enums models = Ret r -> P (fst r) (snd r).
Proof.
  revert i enums models; induction fuel as [|fuel IH];
    intros i enums models HP H; [discriminate|].
  cbn [parse_loop] in H.
  destruct (Nat.ltb i (length lines)); [|inversion H; subst; assumption].
  apply bind_ret_inv in H. destruct H as (raw & Hraw & H).
  destruct (startswith (strip raw) (py "model ")
            || startswith (strip raw) (py "enum "));
    [|eapply IH; eassumption].
  destruct (Nat.ltb (length (split_ws (strip raw))) 2);
    [eapply IH; eassumption|].
  apply bind_ret_inv in H. destruct H as (kind & Hkind & H).
  apply bind_ret_inv in H. destruct H as (name & Hname & H).
  apply bind_ret_inv in H. destruct H as (i1 & Hi1 & H).
  apply bind_ret_inv in H. destruct H as ([body i2] & Hbody & H).
  apply getitem_In in Hname.
  pose proof (split_ws_tokens (strip raw)) as F. rewrite Forall_forall in F.
  apply F in Hname.
  apply collect_body_incl in Hbody; [|intros x []].
  destruct (str_eqb kind (py "enum")).
  - apply bind_ret_inv in H. destruct H as (values & Hv & H).
    eapply IH; [|eassumption]. eapply P_enum; eassumption.
  - destruct (str_eqb kind (py "model")); [|eapply IH; eassumption].
    apply bind_ret_inv in H. destruct H as ([fields sn] & Hf & H).
    eapply IH; [|eassumption]. eapply P_model; eassumption.
Qed.
End ParseInvariant.

(** The maps returned by the parser are well formed: keys are unique and
    equal to the stored names, names and enum values are tokens, type names
    contain no whitespace, partition names are non-empty and lie on one
    line. *)
Lemma parse_prisma_fuel_wf (fuel : nat) (schema : str)
  (enums : dict EnumDef.t) (models : dict ModelDef.t) :
  parse_prisma_fuel fuel schema = Ret (enums, models) ->
  wf_dict wf_enum enums /\ wf_dict wf_model models.
Proof.
  unfold parse_prisma_fuel. intros H.
  set (lines := splitlines (strip_line_comments schema)) in *.
  assert (Hlines : Forall one_line lines) by apply splitlines_one_line.
  apply (@parse_loop_inv lines
           (fun e m => wf_dict wf_enum e /\ wf_dict wf_model m)) in H;
    [exact H | | | split; apply wf_dict_nil].
  - intros e m name body values [He Hm] Hname Hbody Hv. split; [|assumption].
    apply wf_dict_set; [assumption|].
    repeat split; try apply Hname. cbn [EnumDef.values].
    eapply (@for_each_inv _ _ enum_body_step (Forall is_token) (fun _ => True));
      [| eassumption | | constructor].
    + intros s x s' Hs _ Hi. eapply enum_body_step_tokens; eassumption.
    + apply Forall_forall; auto.
  - intros e m name body fields sn [He Hm] Hname Hbody Hf. split; [assumption|].
    apply wf_dict_set; [assumption|].
    assert (G : Forall wf_field (fst (fields, sn)) /\ wf_schema (snd (fields, sn))).
    { eapply (@for_each_inv _ _ model_body_step
                (fun st => Forall wf_field (fst st) /\ wf_schema (snd st))
                one_line); [| eassumption | | ].
      - intros s x s' Hs Hx Hi. eapply model_body_step_wf; eassumption.
      - rewrite Forall_forall in *. intros x Hx. apply Hlines, Hbody, Hx.
      - split; [constructor | intros g Hg; discriminate]. }
    destruct G as [G1 G2].
    repeat split; try apply Hname; try assumption; apply G2; assumption.
Qed.

Lemma parse_prisma_wf (schema : str)
  (enums : dict EnumDef.t) (models : dict ModelDef.t) :
  parse_prisma schema = Ret (enums, models) ->
  wf_dict wf_enum enums /\ wf_dict wf_model models.
Proof. apply parse_prisma_fuel_wf. Qed.

(** C5: the stored type name is the raw type token without one trailing
    [?] and then without one trailing [[]], and nothing more: on the body
    line [a Int[][]] the parser stores the type name [Int[]], and on
    [b String??] it stores [String?], so a stored type name can still
    contain [[]] or [?]. *)
Theorem type_name_keeps_inner_modifiers :
  let schema :=
    py "model M {" ++ [nl] ++ py "  a Int[][]" ++ [nl]
    ++ py "  b String??" ++ [nl] ++ py "}" in
  parse_prisma schema
  = Ret ([],
         [(py "M",
           ModelDef.mk (py "M")
             [FieldDef.mk (py "a") (py "Int[]") false true (py "a Int[][]");
              FieldDef.mk (py "b") (py "String?") true false (py "b String??")]
             None)])
  /\ contains_sub (py "[]") (py "Int[]") = true
  /\ contains_char 63%N (py "String?") = true.
Proof. vm_compute. repeat split. Qed.

(** ** Closed forms of the emitter loops *)

Lemma fold_left_append_flat_map {A B : Type} (f : A -> list B)
  (step : list B -> A -> list B) :
  (forall acc x, step acc x = acc ++ f x) ->
  forall xs acc, fold_left step xs acc = acc ++ flat_map f xs.
Proof.
  intros Hstep xs; induction xs as [|x xs IH]; intros acc; simpl.
  - now rewrite app_nil_r.
  - rewrite IH, Hstep, <- app_assoc. reflexivity.
Qed.

Lemma emit_enums_eq (lines : list str) (enums : dict EnumDef.t) :
  emit_enums lines enums = lines ++ flat_map enum_lines (dict_values enums).
Proof.
  unfold emit_enums. apply fold_left_append_flat_map.
  intros acc e. unfold enum_lines, append.
  destruct (is_empty (EnumDef.values e)).
  - now rewrite app_nil_r.
  - rewrite <- app_assoc. reflexivity.
Qed.

Lemma emit_fields_eq (lines : list str) (fields : list FieldDef.t)
  (model_names enum_names : pyset) :
  emit_fields lines fields model_names enum_names
  = lines ++ map (fun f => field_line f
                             (prisma_field_to_ts f model_names enum_names))
                 fields.
Proof.
  unfold emit_fields, append.
  apply (@fold_left_append_map _ _
           (fun f => field_line f (prisma_field_to_ts f model_names enum_names))).
Qed.

Lemma emit_flat_fields_eq (lines : list str) (fields : list FieldDef.t)
  (model_names enum_names : pyset) :
  emit_flat_fields lines fields model_names enum_names
  = lines ++ map (fun f => field_line f (prisma_field_to_ts_flat f enum_names))
                 (flat_fields model_names fields).
Proof.
  unfold emit_flat_fields, flat_fields, append.
  revert lines; induction fields as [|f fields IH]; intros lines; simpl.
  - now rewrite app_nil_r.
  - rewrite IH. destruct (set_in (FieldDef.type_name f) model_names); simpl.
    + reflexivity.
    + rewrite <- app_assoc. reflexivity.
Qed.

Lemma emit_model_eq (generate_flat : bool) (model_names enum_names : pyset)
  (lines : list str) (m : ModelDef.t) :
  emit_model generate_flat model_names enum_names lines m
  = lines ++ model_lines generate_flat model_names enum_names m.
Proof.
  unfold emit_model, model_lines, full_interface, flat_interface, append.
  rewrite emit_fields_eq, emit_flat_fields_eq.
  destruct generate_flat; repeat (rewrite <- ?app_assoc; cbn [app]);
    rewrite ?app_nil_r; reflexivity.
Qed.

Lemma emit_models_eq (generate_flat : bool) (model_names enum_names : pyset)
  (ms : list ModelDef.t) (lines : list str) :
  fold_left (emit_model generate_flat model_names enum_names) ms lines
  = lines ++ flat_map (model_lines generate_flat model_names enum_names) ms.
Proof.
  apply fold_left_append_flat_map. intros; apply emit_model_eq.
Qed.

(** The lines of the single-file artifact, section by section. *)
Lemma single_file_lines_eq (enums : dict EnumDef.t) (models : dict ModelDef.t)
  (generate_flat : bool) :
  single_file_lines enums models generate_flat
  = [py "// Auto-generated from Prisma schema.";
     py "// Generated by Prisma TypeTags (single file).";
     [];
     py "export type DateTimeString = string;";
     py "export type JsonValue = any;";
     []]
    ++ (if is_empty enums then []
        else [py "// ========================="; py "// ENUM TYPES";
              py "// ========================="; []]
             ++ flat_map enum_lines (dict_values enums))
    ++ [py "// ========================="; py "// FORWARD DECLARATIONS";
        py "// ========================="; []]
    ++ map (fun k => py "export interface " ++ k ++ py " {}") (dict_keys models)
    ++ [[]; py "// ========================="; py "// MODELS";
        py "// ========================="; []]
    ++ flat_map (model_lines generate_flat (dict_keys models) (dict_keys enums))
                (dict_values models).
Proof.
  unfold single_file_lines.
  rewrite emit_models_eq. unfold append.
  rewrite (@fold_left_append_map _ _
             (fun k => py "export interface " ++ k ++ py " {}")).
  rewrite emit_enums_eq.
  destruct (is_empty enums); cbn [negb];
    repeat (rewrite <- ?app_assoc; cbn [app]); reflexivity.
Qed.

(** ** The single-file emitter *)

(** C8: with [generate_flat] set, the artifact contains, for every model,
    its full interface immediately followed by its flat interface, and the
    field lines of the flat interface are exactly those of the model's
    fields whose type name is not a model name, in declaration order, each
    with its flat-policy type. *)
Theorem flat_interface_omits_relations (enums : dict EnumDef.t)
  (models : dict ModelDef.t) (m : ModelDef.t) :
  In m (dict_values models) ->
  exists pre post,
    generate_single_file enums models true
    = join [nl]
        (pre
         ++ full_interface (dict_keys models) (dict_keys enums) m
         ++ ([py "export interface " ++ ModelDef.name m ++ py "Flat " ++ py "{"]
             ++ map (fun f => field_line f
                                (prisma_field_to_ts_flat f (dict_keys enums)))
                    (filter (fun f => negb (set_in (FieldDef.type_name f)
                                                   (dict_keys models)))
                            (ModelDef.fields m))
             ++ [py "}"; []])
         ++ post).
Proof.
  intros Hin. apply in_split in Hin. destruct Hin as (l1 & l2 & E).
  unfold generate_single_file. rewrite single_file_lines_eq.
  match goal with
  | |- context [?a ++ ?b ++ ?c ++ ?d ++ ?e ++ flat_map ?f (dict_values models)] =>
      exists (a ++ b ++ c ++ d ++ e ++ flat_map f l1), (flat_map f l2)
  end.
  f_equal. rewrite E, flat_map_app. cbn [flat_map].
  unfold model_lines at 2, flat_interface, flat_fields.
  rewrite <- !app_assoc. reflexivity.
Qed.

Lemma flat_interface_omits_relations_witness :
  parse_prisma post_schema = Ret ([], post_models)
  /\ exists pre post,
       generate_single_file [] post_models true
       = join [nl]
           (pre
            ++ [py "export interface Post {";
                py "  id: string;";
                py "  author: User | null;";
                py "}";
                []]
            ++ [py "export interface PostFlat {";
                py "  id: string;";
                py "}";
                []]
            ++ post).
Proof.
  split; [vm_compute; reflexivity|].
  assert (Hin : In post_model (dict_values post_models))
    by (right; left; reflexivity).
  exact (@flat_interface_omits_relations [] post_models post_model Hin).
Defined.

(** ** Lines of the artifacts *)

Lemma one_line_forallb (s : str) :
  forallb (fun c => negb (is_linebreak c)) s = true -> one_line s.
Proof.
  rewrite forallb_forall. intros H. apply Forall_forall. intros c Hc.
  apply H in Hc. now destruct (is_linebreak c).
Qed.

Ltac one_line_const := apply one_line_forallb; vm_compute; reflexivity.

Lemma one_line_cons (c : char) (s : str) :
  is_linebreak c = false -> one_line s -> one_line (c :: s).
Proof. intros; constructor; assumption. Qed.

Lemma one_line_nil : one_line [].
Proof. constructor. Qed.

Lemma token_one_line (s : str) : is_token s -> one_line s.
Proof. intros [_ H]. now apply no_space_one_line. Qed.

Lemma one_line_join (sep : str) (ls : list str) :
  one_line sep -> Forall one_line ls -> one_line (join sep ls).
Proof.
  intros Hsep H; induction H as [|l ls Hl Hls IH]; [constructor|].
  cbn [join]. destruct ls as [|l2 ls]; [assumption|].
  apply one_line_app; split; [assumption|].
  apply one_line_app; split; assumption.
Qed.

Lemma flat_map_drop_final_empty {B : Type} (f : str -> list B) (ls : list str) :
  f [] = [] -> flat_map f (drop_final_empty ls) = flat_map f ls.
Proof.
  intros Hf; induction ls as [|l ls IH]; [reflexivity|].
  cbn [drop_final_empty]. destruct ls as [|l2 ls].
  - destruct l; simpl; [now rewrite Hf | reflexivity].
  - cbn [flat_map] in *. now rewrite IH.
Qed.

Lemma declared_identifiers_join (lines : list str) :
  Forall one_line lines ->
  declared_identifiers (join [nl] lines) = flat_map declaration_of lines.
Proof.
  intros H. unfold declared_identifiers.
  rewrite splitlines_join by assumption.
  now apply flat_map_drop_final_empty.
Qed.

Lemma startswith_app_self (p x : str) : startswith (p ++ x) p = true.
Proof.
  induction p as [|a p IH]; [reflexivity|].
  simpl. now rewrite N.eqb_refl.
Qed.

Lemma skipn_app_self {A : Type} (p x : list A) : skipn (length p) (p ++ x) = x.
Proof. induction p; simpl; auto. Qed.

Lemma takewhile_word (w rest : str) (c : char) :
  no_space w -> is_space c = true ->
  takewhile (fun c => negb (is_space c)) (w ++ c :: rest) = w.
Proof.
  intros Hw Hc; induction Hw as [|x w Hx _ IH]; simpl.
  - now rewrite Hc.
  - rewrite Hx. simpl. now f_equal.
Qed.

Lemma declared_identifier_type (w rest : str) :
  no_space w ->
  declared_identifier (py "export type " ++ w ++ 32%N :: rest) = Some w.
Proof.
  intros Hw. unfold declared_identifier.
  rewrite startswith_app_self, skipn_app_self.
  now rewrite takewhile_word.
Qed.

Lemma declared_identifier_interface (w rest : str) :
  no_space w ->
  declared_identifier (py "export interface " ++ w ++ 32%N :: rest) = Some w.
Proof.
  intros Hw. unfold declared_identifier.
  replace (startswith (py "export interface " ++ w ++ 32%N :: rest)
                      (py "export type ")) with false by reflexivity.
  rewrite startswith_app_self, skipn_app_self.
  now rewrite takewhile_word.
Qed.

Lemma declaration_of_field_line (f : FieldDef.t) (ty : str) :
  declaration_of (field_line f ty) = [].
Proof. reflexivity. Qed.

Lemma scalar_target_one_line (base ts : str) :
  dict_get SCALAR_TS_MAP base = Some ts -> one_line ts.
Proof.
  intros H. apply dict_get_In in H.
  repeat (destruct H as [H|H]; [inversion H; subst; one_line_const|]).
  destruct H.
Qed.

Lemma prisma_field_to_ts_one_line (f : FieldDef.t) (mn en : pyset) :
  one_line (FieldDef.type_name f) -> one_line (prisma_field_to_ts f mn en).
Proof.
  intros Hb. unfold prisma_field_to_ts.
  assert (Hbase : one_line
                    match dict_get SCALAR_TS_MAP (FieldDef.type_name f) with
                    | Some ts => ts
                    | None => if set_in (FieldDef.type_name f) en
                              then FieldDef.type_name f
                              else FieldDef.type_name f
                    end).
  { destruct (dict_get SCALAR_TS_MAP (FieldDef.type_name f)) eqn:E.
    - eapply scalar_target_one_line; eassumption.
    - destruct (set_in _ en); assumption. }
  assert (Hn : one_line (py " | null")) by one_line_const.
  assert (Hl : one_line (py "[]")) by one_line_const.
  repeat match goal with
         | |- context [if ?b then _ else _] =>
             lazymatch b with
             | context [dict_get] => fail
             | _ => destruct b
             end
         end;
    repeat (apply one_line_app; split); assumption.
Qed.

Lemma prisma_field_to_ts_flat_one_line (f : FieldDef.t) (en : pyset) :
  one_line (FieldDef.type_name f) -> one_line (prisma_field_to_ts_flat f en).
Proof.
  intros Hb. unfold prisma_field_to_ts_flat.
  assert (Hbase : one_line
                    match dict_get SCALAR_TS_MAP (FieldDef.type_name f) with
                    | Some ts => ts
                    | None => if set_in (FieldDef.type_name f) en
                              then FieldDef.type_name f
                              else py "any"
                    end).
  { destruct (dict_get SCALAR_TS_MAP (FieldDef.type_name f)) eqn:E.
    - eapply scalar_target_one_line; eassumption.
    - destruct (set_in _ en); [assumption | one_line_const]. }
  assert (Hn : one_line (py " | null")) by one_line_const.
  assert (Hl : one_line (py "[]")) by one_line_const.
  destruct (FieldDef.is_list f), (FieldDef.is_optional f);
    repeat (apply one_line_app; split); assumption.
Qed.

Lemma field_line_one_line (f : FieldDef.t) (ty : str) :
  one_line (FieldDef.name f) -> one_line ty -> one_line (field_line f ty).
Proof.
  intros Hn Ht. unfold field_line.
  repeat (apply one_line_app; split); try assumption; one_line_const.
Qed.

Lemma full_interface_one_line (mn en : pyset) (k : str) (m : ModelDef.t) :
  wf_model k m -> Forall one_line (full_interface mn en m).
Proof.
  intros (Hk & Htok & Hf & _). unfold full_interface.
  apply Forall_app; split; [|apply Forall_app; split].
  - constructor; [|constructor]. rewrite Hk.
    repeat (apply one_line_app; split);
      try (apply token_one_line; assumption); one_line_const.
  - apply Forall_map. eapply Forall_impl; [|exact Hf].
    intros f [Hn Ht]. apply field_line_one_line.
    + now apply token_one_line.
    + apply prisma_field_to_ts_one_line. now apply no_space_one_line.
  - repeat constructor.
Qed.

Lemma Forall_filter_impl {A : Type} (P : A -> Prop) (p : A -> bool) (l : list A) :
  Forall P l -> Forall P (filter p l).
Proof.
  intros H. apply Forall_forall. intros x Hx. apply filter_In in Hx.
  rewrite Forall_forall in H. apply H, Hx.
Qed.

Lemma flat_interface_one_line (mn en : pyset) (k : str) (m : ModelDef.t) :
  wf_model k m -> Forall one_line (flat_interface mn en m).
Proof.
  intros (Hk & Htok & Hf & _). unfold flat_interface, flat_fields.
  apply Forall_app; split; [|apply Forall_app; split].
  - constructor; [|constructor]. rewrite Hk.
    repeat (apply one_line_app; split);
      try (apply token_one_line; assumption); one_line_const.
  - apply Forall_map. apply Forall_filter_impl.
    eapply Forall_impl; [|exact Hf].
    intros f [Hn Ht]. apply field_line_one_line.
    + now apply token_one_line.
    + apply prisma_field_to_ts_flat_one_line. now apply no_space_one_line.
  - repeat constructor.
Qed.

Lemma model_lines_one_line (flat : bool) (mn en : pyset) (k : str)
  (m : ModelDef.t) :
  wf_model k m -> Forall one_line (model_lines flat mn en m).
Proof.
  intros H. unfold model_lines. apply Forall_app; split.
  - eapply full_interface_one_line; eassumption.
  - destruct flat; [eapply flat_interface_one_line; eassumption | constructor].
Qed.

Lemma enum_lines_one_line (k : str) (e : EnumDef.t) :
  wf_enum k e -> Forall one_line (enum_lines e).
Proof.
  intros (Hk & Htok & Hv). unfold enum_lines.
  destruct (is_empty (EnumDef.values e)); [constructor|].
  constructor; [|repeat constructor].
  unfold enum_union_line. rewrite Hk.
  repeat (apply one_line_app; split);
    try (apply token_one_line; assumption); try one_line_const.
  apply one_line_join; [one_line_const|].
  apply Forall_map. eapply Forall_impl; [|exact Hv].
  intros v Hvt. apply one_line_cons; [reflexivity|].
  apply one_line_app; split; [now apply token_one_line | one_line_const].
Qed.

Lemma Forall_flat_map_values {V B : Type} (wf : str -> V -> Prop)
  (P : B -> Prop) (g : V -> list B) (d : dict V) :
  (forall k v, wf k v -> Forall P (g v)) ->
  Forall (fun kv => wf (fst kv) (snd kv)) d ->
  Forall P (flat_map g (dict_values d)).
Proof.
  intros Hg H; induction H as [|[k v] d Hkv _ IH]; [constructor|].
  cbn [dict_values map flat_map snd]. apply Forall_app; split; [|exact IH].
  eapply Hg; exact Hkv.
Qed.

Lemma single_file_lines_one_line (enums : dict EnumDef.t)
  (models : dict ModelDef.t) (flat : bool) :
  wf_dict wf_enum enums -> wf_dict wf_model models ->
  Forall one_line (single_file_lines enums models flat).
Proof.
  intros [_ He] [_ Hm]. rewrite single_file_lines_eq.
  repeat (apply Forall_app; split).
  - repeat (constructor; [try apply one_line_nil; one_line_const|]). constructor.
  - destruct (is_empty enums); [constructor|].
    apply Forall_app; split.
    + repeat (constructor; [try apply one_line_nil; one_line_const|]). constructor.
    + eapply Forall_flat_map_values; [|exact He].
      intros k v. apply enum_lines_one_line.
  - repeat (constructor; [try apply one_line_nil; one_line_const|]). constructor.
  - unfold dict_keys. rewrite map_map. apply Forall_map.
    eapply Forall_impl; [|exact Hm].
    intros [k m] (_ & Htok & _). cbn [fst].
    repeat (apply one_line_app; split);
      try (apply token_one_line; assumption); one_line_const.
  - repeat (constructor; [try apply one_line_nil; one_line_const|]). constructor.
  - eapply Forall_flat_map_values; [|exact Hm].
    intros k v. apply model_lines_one_line.
Qed.

(** ** Declared identifiers of the single-file artifact *)

Lemma declaration_of_type_line (w rest : str) :
  no_space w -> declaration_of (py "export type " ++ w ++ 32%N :: rest) = [w].
Proof.
  intros H. unfold declaration_of. now rewrite declared_identifier_type.
Qed.

Lemma declaration_of_interface_line (w rest : str) :
  no_space w ->
  declaration_of (py "export interface " ++ w ++ 32%N :: rest) = [w].
Proof.
  intros H. unfold declaration_of. now rewrite declared_identifier_interface.
Qed.

Lemma declaration_of_enum_lines (k : str) (e : EnumDef.t) :
  wf_enum k e ->
  flat_map declaration_of (enum_lines e)
  = if is_empty (EnumDef.values e) then [] else [k].
Proof.
  intros (Hk & [_ Htok] & _). unfold enum_lines.
  destruct (is_empty (EnumDef.values e)); [reflexivity|].
  cbn [flat_map]. unfold enum_union_line.
  rewrite Hk.
  change (py " = " ++ ?x) with (32%N :: py "= " ++ x).
  rewrite declaration_of_type_line by assumption. reflexivity.
Qed.

Lemma declaration_of_field_lines (g : FieldDef.t -> str) (fs : list FieldDef.t) :
  flat_map declaration_of (map (fun f => field_line f (g f)) fs) = [].
Proof. induction fs as [|f fs IH]; [reflexivity|]. simpl. exact IH. Qed.

Lemma declaration_of_full_interface (mn en : pyset) (k : str) (m : ModelDef.t) :
  wf_model k m -> flat_map declaration_of (full_interface mn en m) = [k].
Proof.
  intros (Hk & [_ Htok] & _). unfold full_interface.
  rewrite !flat_map_app, declaration_of_field_lines. cbn [flat_map].
  rewrite Hk. change (py " " ++ ?x) with (32%N :: x).
  rewrite declaration_of_interface_line by assumption. reflexivity.
Qed.

Lemma declaration_of_flat_interface (mn en : pyset) (k : str) (m : ModelDef.t) :
  wf_model k m ->
  flat_map declaration_of (flat_interface mn en m) = [k ++ py "Flat"].
Proof.
  intros (Hk & [_ Htok] & _). unfold flat_interface.
  rewrite !flat_map_app, declaration_of_field_lines. cbn [flat_map].
  rewrite Hk. change (py "Flat " ++ ?x) with (py "Flat" ++ 32%N :: x).
  rewrite (app_assoc k (py "Flat")).
  rewrite declaration_of_interface_line; [reflexivity|].
  apply Forall_app; split; [assumption | repeat constructor].
Qed.

Lemma declaration_of_model_lines (flat : bool) (mn en : pyset) (k : str)
  (m : ModelDef.t) :
  wf_model k m ->
  flat_map declaration_of (model_lines flat mn en m)
  = k :: (if flat then [k ++ py "Flat"] else []).
Proof.
  intros H. unfold model_lines.
  rewrite flat_map_app, (declaration_of_full_interface mn en H).
  destruct flat; [|reflexivity].
  now rewrite (declaration_of_flat_interface mn en H).
Qed.

Lemma declaration_of_forward_lines (models : dict ModelDef.t) :
  Forall (fun kv => wf_model (fst kv) (snd kv)) models ->
  flat_map declaration_of
    (map (fun k => py "export interface " ++ k ++ py " {}") (dict_keys models))
  = dict_keys models.
Proof.
  unfold dict_keys.
  induction 1 as [|[k m] d (_ & [_ Htok] & _) _ IH]; [reflexivity|].
  cbn [map fst flat_map]. rewrite IH.
  change (py " {}") with (32%N :: py "{}").
  rewrite declaration_of_interface_line by assumption. reflexivity.
Qed.

Lemma declaration_of_enum_section (enums : dict EnumDef.t) :
  Forall (fun kv => wf_enum (fst kv) (snd kv)) enums ->
  flat_map declaration_of (flat_map enum_lines (dict_values enums))
  = dict_keys (filter (fun kv => negb (is_empty (EnumDef.values (snd kv))))
                      enums).
Proof.
  unfold dict_values, dict_keys.
  induction 1 as [|[k e] d Hwf _ IH]; [reflexivity|].
  cbn [map snd flat_map filter].
  cbn [fst snd] in Hwf.
  rewrite flat_map_app, IH, (declaration_of_enum_lines Hwf).
  destruct (is_empty (EnumDef.values e)); reflexivity.
Qed.

Lemma declaration_of_model_section (flat : bool) (mn en : pyset)
  (models : dict ModelDef.t) :
  Forall (fun kv => wf_model (fst kv) (snd kv)) models ->
  flat_map declaration_of (flat_map (model_lines flat mn en) (dict_values models))
  = flat_map (fun k => k :: (if flat then [k ++ py "Flat"] else []))
             (dict_keys models).
Proof.
  unfold dict_values, dict_keys.
  induction 1 as [|[k m] d Hwf _ IH]; [reflexivity|].
  cbn [map fst snd flat_map] in *.
  rewrite flat_map_app, IH, (declaration_of_model_lines flat mn en Hwf).
  reflexivity.
Qed.

Lemma single_file_declarations (enums : dict EnumDef.t)
  (models : dict ModelDef.t) (flat : bool) :
  flat_map declaration_of (single_file_lines enums models flat)
  = [py "DateTimeString"; py "JsonValue"]
    ++ flat_map declaration_of (flat_map enum_lines (dict_values enums))
    ++ flat_map declaration_of
         (map (fun k => py "export interface " ++ k ++ py " {}")
              (dict_keys models))
    ++ flat_map declaration_of
         (flat_map (model_lines flat (dict_keys models) (dict_keys enums))
                   (dict_values models)).
Proof.
  rewrite single_file_lines_eq, !flat_map_app.
  destruct enums as [|kv enums']; [reflexivity|].
  cbn [is_empty]. rewrite flat_map_app. reflexivity.
Qed.

(** C6, as stated, fails: from an enum [E] without values and a model [A]
    without fields, the artifact declares [A] twice (the forward placeholder
    and the full interface) and never declares [E]. *)
Lemma single_file_names_not_once :
  exists enums models,
    parse_prisma empty_blocks_schema = Ret (enums, models)
    /\ In (py "A") (dict_keys models)
    /\ In (py "E") (dict_keys enums)
    /\ count_occ str_eq_dec
         (declared_identifiers (generate_single_file enums models false))
         (py "A") = 2
    /\ count_occ str_eq_dec
         (declared_identifiers (generate_single_file enums models false))
         (py "E") = 0.
Proof.
  exists [(py "E", EnumDef.mk (py "E") [])],
         [(py "A", ModelDef.mk (py "A") [] None)].
  vm_compute. repeat split; auto.
Qed.

(** C6 (amended): for every schema text, the identifiers declared by the
    single-file artifact are, in this order: the two base aliases; the name
    of every parsed enum that has at least one value, once each, in
    declaration order (an enum without values is not declared); every parsed
    model name once, in declaration order (the forward placeholders); and
    every parsed model name once more, in declaration order (the full
    interfaces), each followed by the name suffixed [Flat] when flat
    interfaces are generated.  No enum name and no model name is listed
    twice among the parsed names. *)
Theorem single_file_declared_identifiers (schema : str)
  (enums : dict EnumDef.t) (models : dict ModelDef.t) (generate_flat : bool) :
  parse_prisma schema = Ret (enums, models) ->
  declared_identifiers (generate_single_file enums models generate_flat)
  = [py "DateTimeString"; py "JsonValue"]
    ++ dict_keys (filter (fun kv => negb (is_empty (EnumDef.values (snd kv))))
                         enums)
    ++ dict_keys models
    ++ flat_map (fun k => k :: (if generate_flat then [k ++ py "Flat"] else []))
                (dict_keys models)
  /\ NoDup (dict_keys enums) /\ NoDup (dict_keys models).
Proof.
  intros Hp. apply parse_prisma_wf in Hp. destruct Hp as [He Hm].
  split; [|split; [apply He | apply Hm]].
  unfold generate_single_file.
  etransitivity;
    [apply declared_identifiers_join;
     apply single_file_lines_one_line; assumption|].
  etransitivity; [apply single_file_declarations|].
  destruct He as [_ He], Hm as [_ Hm].
  f_equal. f_equal; [now apply declaration_of_enum_section|].
  f_equal; [now apply declaration_of_forward_lines
           | now apply declaration_of_model_section].
Qed.

Lemma single_file_declared_identifiers_witness :
  declared_identifiers (generate_single_file [] post_models true)
  = [py "DateTimeString"; py "JsonValue"; py "User"; py "Post";
     py "User"; py "UserFlat"; py "Post"; py "PostFlat"]
  /\ NoDup (@dict_keys EnumDef.t []) /\ NoDup (dict_keys post_models).
Proof.
  assert (Hp : parse_prisma post_schema = Ret ([], post_models))
    by (vm_compute; reflexivity).
  exact (@single_file_declared_identifiers post_schema [] post_models true Hp).
Defined.

(** ** Sorting *)

Lemma str_leb_refl (a : str) : str_leb a a = true.
Proof.
  induction a as [|x a IH]; [reflexivity|].
  simpl. rewrite N.eqb_refl, IH. now rewrite orb_true_r.
Qed.

Lemma str_leb_total (a b : str) : str_leb a b = true \/ str_leb b a = true.
Proof.
  revert b; induction a as [|x a IH]; intros [|y b]; simpl; auto.
  destruct (N.ltb_spec x y); [auto|].
  destruct (N.ltb_spec y x); [auto|].
  assert (x = y) by lia. subst. rewrite N.eqb_refl. simpl. apply IH.
Qed.

Lemma str_leb_trans (a b c : str) :
  str_leb a b = true -> str_leb b c = true -> str_leb a c = true.
Proof.
  revert b c; induction a as [|x a IH]; intros [|y b] [|z c]; simpl;
    try (intros; (reflexivity || discriminate)).
  rewrite !orb_true_iff, !andb_true_iff, !N.ltb_lt, !N.eqb_eq.
  intros [H1 | [H1 H1']] [H2 | [H2 H2']].
  - left; lia.
  - left; lia.
  - left; lia.
  - right. split; [lia|]. eapply IH; eassumption.
Qed.

Lemma str_leb_antisym (a b : str) :
  str_leb a b = true -> str_leb b a = true -> a = b.
Proof.
  revert b; induction a as [|x a IH]; intros [|y b]; simpl;
    try (intros; (reflexivity || discriminate)).
  rewrite !orb_true_iff, !andb_true_iff, !N.ltb_lt, !N.eqb_eq.
  intros [H1 | [H1 H1']] [H2 | [H2 H2']]; try lia.
  subst. f_equal. now apply IH.
Qed.

Lemma insert_sorted_In (x y : str) (xs : list str) :
  In y (insert_sorted x xs) <-> y = x \/ In y xs.
Proof.
  induction xs as [|z xs IH]; simpl.
  - intuition.
  - destruct (str_leb x z); simpl; rewrite ?IH; intuition.
Qed.

Lemma sorted_In (y : str) (xs : list str) : In y (sorted xs) <-> In y xs.
Proof.
  induction xs as [|x xs IH]; simpl; [tauto|].
  rewrite insert_sorted_In, IH. intuition.
Qed.

Lemma insert_sorted_strict (x : str) (xs : list str) :
  strictly_sorted xs -> ~ In x xs -> strictly_sorted (insert_sorted x xs).
Proof.
  unfold strictly_sorted.
  induction 1 as [|z xs Hs IH Hz]; intros Hx; simpl.
  - repeat constructor.
  - assert (Hxz : x <> z) by (intros ->; apply Hx; left; reflexivity).
    destruct (str_leb x z) eqn:E.
    + constructor; [constructor; assumption|].
      constructor; [split; assumption|].
      rewrite Forall_forall in *. intros w Hw. destruct (Hz w Hw) as [L N].
      split; [eapply str_leb_trans; eassumption|].
      intros ->. apply Hxz. now apply str_leb_antisym.
    + constructor; [apply IH; intros H; apply Hx; right; exact H|].
      apply Forall_forall. intros w Hw. apply insert_sorted_In in Hw.
      destruct Hw as [-> | Hw].
      * destruct (str_leb_total x z) as [L|L]; [congruence|].
        split; [assumption | congruence].
      * rewrite Forall_forall in Hz. now apply Hz.
Qed.

Lemma sorted_strict (xs : list str) : NoDup xs -> strictly_sorted (sorted xs).
Proof.
  induction 1 as [|x xs Hx _ IH]; simpl; [constructor|].
  apply insert_sorted_strict; [assumption|].
  now rewrite sorted_In.
Qed.

(** ** Sets *)

Lemma set_add_In (s : pyset) (x y : str) : In y (set_add s x) <-> y = x \/ In y s.
Proof.
  unfold set_add. destruct (set_in x s) eqn:E.
  - apply set_in_In in E. split; [auto | intros [->|H]; assumption].
  - rewrite in_app_iff. simpl. intuition.
Qed.

Lemma set_add_NoDup (s : pyset) (x : str) : NoDup s -> NoDup (set_add s x).
Proof.
  intros H. unfold set_add. destruct (set_in x s) eqn:E; [assumption|].
  apply set_in_not_In in E.
  apply NoDup_app; [assumption | repeat constructor; auto |].
  intros y Hy [<-|[]]. contradiction.
Qed.

Lemma set_add_nonempty (s : pyset) (x : str) : set_add s x <> [].
Proof.
  unfold set_add. destruct (set_in x s) eqn:E.
  - apply set_in_In in E. intros ->. destruct E.
  - destruct s; discriminate.
Qed.

(** ** Lookups after updates *)

Lemma dict_get_set {V : Type} (d : dict V) (k k' : str) (v : V) :
  dict_get (dict_set d k v) k'
  = if str_eqb k k' then Some v else dict_get d k'.
Proof.
  induction d as [|[k0 v0] d IH]; simpl.
  - reflexivity.
  - destruct (str_eqb k0 k) eqn:E0; simpl.
    + apply str_eqb_eq in E0; subst k0.
      destruct (str_eqb k k'); reflexivity.
    + destruct (str_eqb k0 k') eqn:E1.
      * apply str_eqb_eq in E1; subst k0.
        rewrite str_eqb_sym, E0. reflexivity.
      * exact IH.
Qed.

Lemma In_iff_dict_get {V : Type} (d : dict V) (k : str) (v : V) :
  NoDup (dict_keys d) -> (In (k, v) d <-> dict_get d k = Some v).
Proof. intros H; split; [now apply In_dict_get | apply dict_get_In]. Qed.

Lemma defaultdict_append_get {A : Type} (d : dict (list A)) (key x : str) (m : A) :
  dict_get (defaultdict_append d key m) x
  = if str_eqb key x
    then Some (match dict_get d key with Some l => l ++ [m] | None => [m] end)
    else dict_get d x.
Proof.
  unfold defaultdict_append, append.
  destruct (dict_get d key); rewrite dict_get_set; reflexivity.
Qed.

Lemma defaultdict_append_NoDup {A : Type} (d : dict (list A)) (key : str) (m : A) :
  NoDup (dict_keys d) -> NoDup (dict_keys (defaultdict_append d key m)).
Proof.
  unfold defaultdict_append. destruct (dict_get d key); apply dict_set_NoDup.
Qed.

Lemma defaultdict_add_get (d : dict pyset) (key x n : str) :
  dict_get (defaultdict_add d key n) x
  = if str_eqb key x
    then Some (set_add (match dict_get d key with Some s => s | None => [] end) n)
    else dict_get d x.
Proof.
  unfold defaultdict_add.
  destruct (dict_get d key); rewrite dict_get_set; reflexivity.
Qed.

Lemma defaultdict_add_NoDup (d : dict pyset) (key n : str) :
  NoDup (dict_keys d) -> NoDup (dict_keys (defaultdict_add d key n)).
Proof.
  unfold defaultdict_add. destruct (dict_get d key); apply dict_set_NoDup.
Qed.

(** ** The partition of the models *)

Lemma partition_fold_get (todo : list ModelDef.t) (d : dict (list ModelDef.t))
  (x : str) :
  dict_get
    (fold_left (fun mbs m => defaultdict_append mbs (schema_or_default m) m)
               todo d) x
  = match dict_get d x with
    | Some l => Some (l ++ filter (fun m => str_eqb (schema_or_default m) x) todo)
    | None =>
        match filter (fun m => str_eqb (schema_or_default m) x) todo with
        | [] => None
        | ms => Some ms
        end
    end.
Proof.
  revert d; induction todo as [|m todo IH]; intros d; cbn [fold_left filter].
  - destruct (dict_get d x); [now rewrite app_nil_r | reflexivity].
  - rewrite IH, defaultdict_append_get.
    destruct (str_eqb (schema_or_default m) x) eqn:E.
    + apply str_eqb_eq in E. rewrite E.
      destruct (dict_get d x).
      * rewrite <- app_assoc. reflexivity.
      * reflexivity.
    + destruct (dict_get d x); reflexivity.
Qed.

Lemma partition_fold_NoDup (todo : list ModelDef.t) (d : dict (list ModelDef.t)) :
  NoDup (dict_keys d) ->
  NoDup (dict_keys
           (fold_left (fun mbs m => defaultdict_append mbs (schema_or_default m) m)
                      todo d)).
Proof.
  revert d; induction todo as [|m todo IH]; intros d H; [exact H|].
  apply IH. now apply defaultdict_append_NoDup.
Qed.

(** Each partition holds the models of that partition, in declaration
    order; there is no empty partition. *)
Lemma partition_models_get (models : dict ModelDef.t) (x : str) :
  dict_get (partition_models models) x
  = match filter (fun m => str_eqb (schema_or_default m) x) (dict_values models)
    with
    | [] => None
    | ms => Some ms
    end.
Proof. unfold partition_models. now rewrite partition_fold_get. Qed.

Lemma partition_models_NoDup (models : dict ModelDef.t) :
  NoDup (dict_keys (partition_models models)).
Proof. apply partition_fold_NoDup. constructor. Qed.

Lemma partition_models_complete (models : dict ModelDef.t) (m : ModelDef.t) :
  In m (dict_values models) ->
  exists ms, In (schema_or_default m, ms) (partition_models models) /\ In m ms.
Proof.
  intros Hin.
  assert (Hf : In m (filter (fun m' => str_eqb (schema_or_default m')
                                               (schema_or_default m))
                            (dict_values models))).
  { apply filter_In. split; [assumption | apply str_eqb_refl]. }
  pose proof (partition_models_get models (schema_or_default m)) as G.
  destruct (filter _ (dict_values models)) as [|m0 ms] eqn:E; [destruct Hf|].
  exists (m0 :: ms). split; [|assumption].
  now apply dict_get_In.
Qed.

Lemma partition_models_sound (models : dict ModelDef.t) (x : str)
  (ms : list ModelDef.t) (m : ModelDef.t) :
  In (x, ms) (partition_models models) -> In m ms ->
  In m (dict_values models) /\ schema_or_default m = x.
Proof.
  intros Hin Hm.
  apply In_dict_get in Hin; [|apply partition_models_NoDup].
  rewrite partition_models_get in Hin.
  assert (E : ms = filter (fun m => str_eqb (schema_or_default m) x)
                          (dict_values models)).
  { destruct (filter _ (dict_values models)); inversion Hin; reflexivity. }
  subst ms. apply filter_In in Hm. destruct Hm as [H1 H2].
  apply str_eqb_eq in H2. auto.
Qed.

(** ** The name-to-partition lookup *)

Lemma fold_dict_set_get {V : Type} (assigns : list (str * V)) (d : dict V)
  (k : str) (v : V) :
  (forall v', In (k, v') assigns -> v' = v) ->
  In (k, v) assigns \/ dict_get d k = Some v ->
  dict_get (fold_left (fun d kv => dict_set d (fst kv) (snd kv)) assigns d) k
  = Some v.
Proof.
  revert d; induction assigns as [|[k1 v1] assigns IH]; intros d Hc Hin.
  - destruct Hin as [[]|H]; exact H.
  - cbn [fold_left fst snd]. apply IH.
    + intros v' Hv'. apply Hc. right; exact Hv'.
    + rewrite dict_get_set. destruct (str_eqb k1 k) eqn:E.
      * apply str_eqb_eq in E; subst k1. right. f_equal.
        apply Hc. left; reflexivity.
      * destruct Hin as [[H|H]|H]; auto.
        inversion H; subst. rewrite str_eqb_refl in E. discriminate.
Qed.

Lemma build_model_to_schema_eq (mbs : dict (list ModelDef.t)) :
  build_model_to_schema mbs
  = fold_left (fun d kv => dict_set d (fst kv) (snd kv))
      (flat_map (fun item : str * list ModelDef.t =>
                   map (fun m => (ModelDef.name m, fst item)) (snd item))
                mbs)
      [].
Proof.
  unfold build_model_to_schema. generalize (@nil (str * str)) as d.
  induction mbs as [|[x lst] mbs IH]; intros d; [reflexivity|].
  cbn [fold_left flat_map fst snd]. rewrite fold_left_app, IH. f_equal.
  clear IH. revert d; induction lst as [|m lst IHl]; intros d; [reflexivity|].
  cbn [fold_left map fst snd]. apply IHl.
Qed.

Lemma wf_dict_value_unique {V : Type} (wf : str -> V -> Prop) (d : dict V)
  (k : str) (v v' : V) :
  wf_dict wf d -> In (k, v) d -> In (k, v') d -> v = v'.
Proof.
  intros [Hn _] H1 H2.
  apply (@In_dict_get _ d k v Hn) in H1. apply (@In_dict_get _ d k v' Hn) in H2.
  congruence.
Qed.

Lemma wf_models_value_key (models : dict ModelDef.t) (m : ModelDef.t) :
  wf_dict wf_model models -> In m (dict_values models) ->
  In (ModelDef.name m, m) models.
Proof.
  intros [_ Hf] Hin. unfold dict_values in Hin. apply in_map_iff in Hin.
  destruct Hin as ([k m0] & E & Hin). cbn [snd] in E. subst m0.
  rewrite Forall_forall in Hf. destruct (Hf _ Hin) as (Hk & _).
  cbn [fst snd] in Hk. now rewrite Hk.
Qed.

(** Every declared model name is sent to the partition of its model. *)
Lemma model_to_schema_get (models : dict ModelDef.t) (k : str) (m' : ModelDef.t) :
  wf_dict wf_model models -> dict_get models k = Some m' ->
  dict_get (build_model_to_schema (partition_models models)) k
  = Some (schema_or_default m').
Proof.
  intros Hwf Hget. apply dict_get_In in Hget.
  assert (Hname : ModelDef.name m' = k).
  { destruct Hwf as [_ Hf]. rewrite Forall_forall in Hf.
    destruct (Hf _ Hget) as (Hk & _). exact Hk. }
  rewrite build_model_to_schema_eq. apply fold_dict_set_get.
  - intros v' Hin. apply in_flat_map in Hin.
    destruct Hin as ([x ms] & Hx & Hin). cbn [fst snd] in Hin.
    apply in_map_iff in Hin. destruct Hin as (m & E & Hm).
    inversion E; subst v'. 
    destruct (@partition_models_sound models x ms m Hx Hm) as [Hv Hp].
    apply (@wf_models_value_key models m Hwf) in Hv.
    assert (m = m').
    { eapply wf_dict_value_unique; [exact Hwf | | exact Hget].
      rewrite <- H0. exact Hv. }
    subst m. symmetry. exact Hp.
  - left.
    assert (Hv : In m' (dict_values models)).
    { unfold dict_values. apply in_map_iff. exists (k, m'). auto. }
    destruct (@partition_models_complete models m' Hv) as (ms & Hx & Hm).
    apply in_flat_map. exists (schema_or_default m', ms). split; [exact Hx|].
    cbn [fst snd]. apply in_map_iff. exists m'. split; [|exact Hm].
    now rewrite Hname.
Qed.

(** ** The cross-partition imports *)

Lemma collect_cross_imports_eq (x : str) (ms : list ModelDef.t) (mn : pyset)
  (mts : dict str) :
  collect_cross_imports x ms mn mts
  = fold_left (fun d p => defaultdict_add d (fst p) (snd p))
              (cross_pairs x ms mn mts) [].
Proof.
  unfold collect_cross_imports, cross_pairs. generalize (@nil (str * pyset)) as d.
  induction ms as [|m ms IH]; intros d; [reflexivity|].
  cbn [fold_left flat_map]. rewrite fold_left_app, IH. f_equal.
  clear IH. generalize (ModelDef.fields m) as fs. intros fs. revert d.
  induction fs as [|f fs IHf]; intros d; [reflexivity|].
  cbn [fold_left flat_map]. rewrite fold_left_app, IHf. f_equal.
  destruct (set_in (FieldDef.type_name f) mn); [|reflexivity].
  destruct (negb (str_eqb _ x)); reflexivity.
Qed.

Lemma cross_fold_complete (pairs : list (str * str)) (d : dict pyset)
  (o n : str) :
  In (o, n) pairs \/ (exists s, dict_get d o = Some s /\ In n s) ->
  exists names,
    dict_get (fold_left (fun d p => defaultdict_add d (fst p) (snd p)) pairs d) o
    = Some names /\ In n names.
Proof.
  revert d; induction pairs as [|[o1 n1] pairs IH]; intros d H.
  - destruct H as [[]|H]; exact H.
  - cbn [fold_left fst snd]. apply IH.
    rewrite defaultdict_add_get.
    destruct H as [[H|H]|(s & Hs & Hn)].
    + inversion H; subst. right. rewrite str_eqb_refl.
      eexists; split; [reflexivity|]. apply set_add_In. auto.
    + auto.
    + right. destruct (str_eqb o1 o) eqn:E.
      * apply str_eqb_eq in E; subst o1. rewrite Hs.
        eexists; split; [reflexivity|]. apply set_add_In. auto.
      * eauto.
Qed.

Lemma cross_fold_sound (pairs : list (str * str)) (d : dict pyset)
  (o : str) (names : pyset) :
  dict_get (fold_left (fun d p => defaultdict_add d (fst p) (snd p)) pairs d) o
  = Some names ->
  (forall o' s, dict_get d o' = Some s -> s <> [] /\ NoDup s) ->
  names <> [] /\ NoDup names
  /\ forall n, In n names ->
               In (o, n) pairs \/ (exists s, dict_get d o = Some s /\ In n s).
Proof.
  revert d; induction pairs as [|[o1 n1] pairs IH]; intros d H Hd.
  - cbn [fold_left] in H. destruct (Hd _ _ H) as [H1 H2].
    repeat split; try assumption. intros n Hn. right; eauto.
  - cbn [fold_left fst snd] in H. apply IH in H.
    + destruct H as (H1 & H2 & H3). repeat split; try assumption.
      intros n Hn. destruct (H3 n Hn) as [Hp | (s & Hs & Hns)].
      * left; right; exact Hp.
      * rewrite defaultdict_add_get in Hs.
        destruct (str_eqb o1 o) eqn:E.
        -- apply str_eqb_eq in E; subst o1. inversion Hs; subst s.
           apply set_add_In in Hns. destruct Hns as [-> | Hns].
           ++ left; left; reflexivity.
           ++ destruct (dict_get d o) as [s0|]; [right; eauto | destruct Hns].
        -- right; eauto.
    + intros o' s Hs. rewrite defaultdict_add_get in Hs.
      destruct (str_eqb o1 o').
      * inversion Hs; subst s. split; [apply set_add_nonempty|].
        apply set_add_NoDup.
        destruct (dict_get d o1) as [s0|] eqn:E0; [|constructor].
        apply (Hd _ _ E0).
      * apply (Hd _ _ Hs).
Qed.

Lemma cross_fold_NoDup (pairs : list (str * str)) (d : dict pyset) :
  NoDup (dict_keys d) ->
  NoDup (dict_keys
           (fold_left (fun d p => defaultdict_add d (fst p) (snd p)) pairs d)).
Proof.
  revert d; induction pairs as [|p pairs IH]; intros d H; [exact H|].
  apply IH. now apply defaultdict_add_NoDup.
Qed.

Lemma emit_cross_imports_eq (lines : list str) (cross : dict pyset) :
  emit_cross_imports lines cross = lines ++ cross_import_lines cross.
Proof.
  unfold emit_cross_imports, cross_import_lines.
  apply fold_left_append_flat_map.
  intros acc [o names]. cbn [fst snd]. unfold append.
  destruct (is_empty names); [now rewrite app_nil_r | reflexivity].
Qed.

Lemma wf_models_value (models : dict ModelDef.t) (m : ModelDef.t) :
  wf_dict wf_model models -> In m (dict_values models) ->
  wf_model (ModelDef.name m) m.
Proof.
  intros Hwf Hin. pose proof (@wf_models_value_key models m Hwf Hin) as H.
  destruct Hwf as [_ Hf]. rewrite Forall_forall in Hf. apply (Hf _ H).
Qed.

Lemma schema_or_default_one_line (k : str) (m : ModelDef.t) :
  wf_model k m -> one_line (schema_or_default m).
Proof.
  intros (_ & _ & _ & Hs). unfold schema_or_default.
  destruct (ModelDef.schema m) as [s|] eqn:E; [|one_line_const].
  destruct (is_empty s); [one_line_const|]. now apply (Hs s).
Qed.

Section CrossPairs.
Variable models : dict ModelDef.t.
Hypothesis Hwf : wf_dict wf_model models.

(** The recorded pairs are exactly the relation fields that point to a
    model of another partition. *)
Lemma cross_pairs_In (x : str) (ms : list ModelDef.t) (o n : str) :
  In (o, n) (cross_pairs x ms (dict_keys models) (build_model_to_schema (partition_models models)))
  <-> exists m f m',
        In m ms /\ In f (ModelDef.fields m) /\ FieldDef.type_name f = n
        /\ dict_get models n = Some m' /\ schema_or_default m' = o /\ o <> x.
Proof.
  unfold cross_pairs. rewrite in_flat_map. split.
  - intros (m & Hm & H). apply in_flat_map in H. destruct H as (f & Hf & H).
    cbn zeta in H.
    destruct (set_in (FieldDef.type_name f) (dict_keys models)) eqn:Es; [|destruct H].
    apply set_in_In in Es.
    destruct (dict_get models (FieldDef.type_name f)) as [m'|] eqn:Eg;
      [|apply dict_get_None in Eg; contradiction].
    unfold dict_get_default in H.
    rewrite (@model_to_schema_get models _ m' Hwf Eg) in H.
    destruct (str_eqb (schema_or_default m') x) eqn:Ex; [destruct H|].
    cbn [negb] in H. destruct H as [H|[]]. inversion H; subst.
    apply str_eqb_neq in Ex. exists m, f, m'. auto 10.
  - intros (m & f & m' & Hm & Hf & Hn & Hg & Ho & Hx).
    exists m. split; [assumption|]. apply in_flat_map. exists f.
    split; [assumption|]. cbn zeta. rewrite Hn.
    assert (Es : set_in n (dict_keys models) = true).
    { apply set_in_In. apply dict_get_In in Hg.
      unfold dict_keys. apply in_map_iff. exists (n, m'). auto. }
    rewrite Es. unfold dict_get_default.
    rewrite (@model_to_schema_get models n m' Hwf Hg), Ho.
    apply str_eqb_neq in Hx. rewrite Hx. left; reflexivity.
Qed.

Lemma cross_imports_entries (x : str) (ms : list ModelDef.t) (o : str)
  (names : pyset) :
  (forall m, In m ms -> In m (dict_values models)) ->
  In (o, names) (collect_cross_imports x ms (dict_keys models) (build_model_to_schema (partition_models models))) ->
  names <> [] /\ NoDup names /\ one_line o /\ Forall one_line names.
Proof.
  intros Hms Hin. rewrite collect_cross_imports_eq in Hin.
  apply In_dict_get in Hin; [|apply cross_fold_NoDup; constructor].
  apply cross_fold_sound in Hin; [|intros o' s Hs; discriminate].
  destruct Hin as (H1 & H2 & H3).
  assert (G : forall n, In n names ->
                        exists m f m',
                          In m ms /\ In f (ModelDef.fields m)
                          /\ FieldDef.type_name f = n
                          /\ dict_get models n = Some m'
                          /\ schema_or_default m' = o /\ o <> x).
  { intros n Hn. destruct (H3 n Hn) as [Hp | (s & Hs & _)]; [|discriminate].
    now apply cross_pairs_In. }
  repeat split; try assumption.
  - destruct names as [|n names]; [congruence|].
    destruct (G n (or_introl eq_refl)) as (m & f & m' & _ & _ & _ & Hg & Ho & _).
    rewrite <- Ho. apply dict_get_In in Hg.
    destruct Hwf as [_ Hf]. rewrite Forall_forall in Hf.
    eapply schema_or_default_one_line. apply (Hf _ Hg).
  - apply Forall_forall. intros n Hn.
    destruct (G n Hn) as (m & f & m' & Hm & Hf & Ht & _).
    pose proof (@wf_models_value models m Hwf (Hms m Hm)) as (_ & _ & Hfs & _).
    rewrite Forall_forall in Hfs. destruct (Hfs f Hf) as [_ Hns].
    rewrite <- Ht. now apply no_space_one_line.
Qed.
End CrossPairs.

Lemma schema_file_lines_eq (enums : dict EnumDef.t) (flat : bool)
  (mn en : pyset) (mts : dict str) (x : str) (ms : list ModelDef.t) :
  schema_file_lines enums flat mn en mts x ms
  = [py "// Auto-generated by Prisma TypeTags";
     py "// Types for schema: " ++ x;
     py "import type { DateTimeString, JsonValue } from "
     ++ [dq] ++ py "../common/base" ++ [dq] ++ py ";"]
    ++ (if is_empty enums then []
        else [py "import type { " ++ join (py ", ") (sorted en) ++ py " } from "
              ++ [dq] ++ py "../common/enums" ++ [dq] ++ py ";"])
    ++ [[]]
    ++ cross_import_lines (collect_cross_imports x ms mn mts)
    ++ (if is_empty (collect_cross_imports x ms mn mts) then [] else [[]])
    ++ flat_map (model_lines flat mn en) ms.
Proof.
  unfold schema_file_lines. rewrite emit_models_eq.
  rewrite emit_cross_imports_eq. unfold append.
  destruct (is_empty enums), (is_empty (collect_cross_imports x ms mn mts));
    cbn [negb]; repeat (rewrite <- ?app_assoc; cbn [app]); reflexivity.
Qed.

Lemma import_line_one_line (names : list str) (o : str) :
  Forall one_line names -> one_line o -> one_line (import_line names o).
Proof.
  intros Hn Ho. unfold import_line.
  repeat (apply one_line_app; split); try assumption; try one_line_const.
  apply one_line_join; [one_line_const | assumption].
Qed.

Lemma Forall_sorted (P : str -> Prop) (xs : list str) :
  Forall P xs -> Forall P (sorted xs).
Proof.
  rewrite !Forall_forall. intros H x Hx. apply H. now apply sorted_In.
Qed.

Lemma partition_nonempty (models : dict ModelDef.t) (x : str)
  (ms : list ModelDef.t) :
  In (x, ms) (partition_models models) -> exists m, In m ms.
Proof.
  intros Hin. apply In_dict_get in Hin; [|apply partition_models_NoDup].
  rewrite partition_models_get in Hin.
  destruct (filter _ (dict_values models)) as [|m l]; [discriminate|].
  inversion Hin. exists m. left; reflexivity.
Qed.

Lemma schema_file_lines_one_line (enums : dict EnumDef.t)
  (models : dict ModelDef.t) (flat : bool) (x : str) (ms : list ModelDef.t) :
  wf_dict wf_enum enums -> wf_dict wf_model models ->
  In (x, ms) (partition_models models) ->
  Forall one_line
    (schema_file_lines enums flat (dict_keys models) (dict_keys enums)
       (build_model_to_schema (partition_models models)) x ms).
Proof.
  intros He Hm Hx. rewrite schema_file_lines_eq.
  assert (Hms : forall m, In m ms -> In m (dict_values models)).
  { intros m Hin. eapply partition_models_sound; eassumption. }
  assert (Hxl : one_line x).
  { destruct (partition_nonempty _ _ _ Hx) as [m Hin].
    destruct (@partition_models_sound models x ms m Hx Hin) as [Hv <-].
    eapply schema_or_default_one_line. eapply wf_models_value; eassumption. }
  repeat (apply Forall_app; split).
  - constructor; [one_line_const|]. constructor; [|constructor; [one_line_const|constructor]].
    apply one_line_app; split; [one_line_const | assumption].
  - destruct (is_empty enums); [constructor|].
    constructor; [|constructor].
    repeat (apply one_line_app; split); try one_line_const.
    apply one_line_join; [one_line_const|]. apply Forall_sorted.
    destruct He as [_ He]. unfold dict_keys. apply Forall_map.
    eapply Forall_impl; [|exact He].
    intros [k e] (_ & Hk & _). now apply token_one_line.
  - repeat constructor.
  - unfold cross_import_lines. apply Forall_forall. intros l Hl.
    apply in_flat_map in Hl. destruct Hl as ([o names] & Hin & Hl).
    cbn [fst snd] in Hl.
    destruct (@cross_imports_entries models Hm x ms o names Hms Hin)
      as (_ & _ & Ho & Hn).
    destruct (is_empty names); [destruct Hl|].
    destruct Hl as [<-|[]].
    apply import_line_one_line; [now apply Forall_sorted | assumption].
  - destruct (is_empty _); repeat constructor.
  - apply Forall_forall. intros l Hl. apply in_flat_map in Hl.
    destruct Hl as (m & Hin & Hl).
    pose proof (@wf_models_value models m Hm (Hms m Hin)) as Hw.
    pose proof (@model_lines_one_line flat (dict_keys models) (dict_keys enums)
                  _ m Hw) as F.
    rewrite Forall_forall in F. now apply F.
Qed.

(** ** The artifact of a partition *)

Lemma index_key_distinct (x : str) : py "index.ts" <> x ++ py "/models.ts".
Proof.
  intros E. apply (f_equal (@length char)) in E.
  rewrite length_app in E.
  change (length (py "index.ts")) with 8 in E.
  change (length (py "/models.ts")) with 10 in E. lia.
Qed.

Lemma fold_files_eq {A : Type} (h : str -> A -> str) (sfx : str)
  (items : list (str * A)) (d : dict str) :
  fold_left (fun files (item : str * A) =>
               let '(schema_name, schema_models) := item in
               dict_set files (schema_name ++ sfx) (h schema_name schema_models))
            items d
  = fold_left (fun d kv => dict_set d (fst kv) (snd kv))
              (map (fun item : str * A =>
                      (fst item ++ sfx, h (fst item) (snd item)))
                   items)
              d.
Proof.
  revert d; induction items as [|[s l] items IH]; intros d; [reflexivity|].
  cbn [fold_left map fst snd]. apply IH.
Qed.

Lemma split_files_partition (enums : dict EnumDef.t) (models : dict ModelDef.t)
  (flat idx : bool) (x : str) (ms : list ModelDef.t) :
  In (x, ms) (partition_models models) ->
  dict_get (generate_split_files enums models flat idx) (x ++ py "/models.ts")
  = Some (join [nl]
            (schema_file_lines enums flat (dict_keys models) (dict_keys enums)
               (build_model_to_schema (partition_models models)) x ms)).
Proof.
  intros Hx. unfold generate_split_files.
  set (files0 := dict_set (dict_set [] (py "common/base.ts") _)
                          (py "common/enums.ts") _).
  rewrite (@fold_files_eq _
             (schema_file_lines_text enums flat (dict_keys models)
                (dict_keys enums)
                (build_model_to_schema (partition_models models)))).
  assert (G : dict_get
                (fold_left (fun d kv => dict_set d (fst kv) (snd kv))
                   (map (fun item : str * list ModelDef.t =>
                           (fst item ++ py "/models.ts",
                            schema_file_lines_text enums flat (dict_keys models)
                              (dict_keys enums)
                              (build_model_to_schema (partition_models models))
                              (fst item) (snd item)))
                        (partition_models models))
                   files0)
                (x ++ py "/models.ts")
              = Some (schema_file_lines_text enums flat (dict_keys models)
                        (dict_keys enums)
                        (build_model_to_schema (partition_models models)) x ms)).
  { apply fold_dict_set_get.
    - intros v' Hin. apply in_map_iff in Hin.
      destruct Hin as ([s l] & E & Hin). cbn [fst snd] in E.
      inversion E as [[E1 E2]]. apply app_inv_tail in E1. subst s.
      assert (l = ms).
      { pose proof (partition_models_NoDup models) as Hn.
        apply (@In_dict_get _ _ x l Hn) in Hin.
        apply (@In_dict_get _ _ x ms Hn) in Hx. congruence. }
      subst l. reflexivity.
    - left. apply in_map_iff. exists (x, ms). auto. }
  destruct idx; [|exact G].
  rewrite dict_get_set.
  destruct (str_eqb (py "index.ts") (x ++ py "/models.ts")) eqn:E; [|exact G].
  apply str_eqb_eq in E. exfalso. exact (index_key_distinct x E).
Qed.

Lemma drop_final_empty_In (l : str) (ls : list str) :
  In l ls -> l <> [] -> In l (drop_final_empty ls).
Proof.
  induction ls as [|a ls IH]; intros Hin Hne; [destruct Hin|].
  cbn [drop_final_empty]. destruct ls as [|b ls].
  - destruct Hin as [->|[]]. destruct l; [congruence | left; reflexivity].
  - destruct Hin as [->|Hin]; [left; reflexivity | right; now apply IH].
Qed.

Lemma drop_final_empty_incl (l : str) (ls : list str) :
  In l (drop_final_empty ls) -> In l ls.
Proof.
  induction ls as [|a ls IH]; intros Hin; [destruct Hin|].
  cbn [drop_final_empty] in Hin. destruct ls as [|b ls].
  - destruct a; [destruct Hin | exact Hin].
  - destruct Hin as [->|Hin]; [left; reflexivity | right; now apply IH].
Qed.

Lemma endswith_app_suffix (s t p : str) :
  length p <= length t -> endswith (s ++ t) p = endswith t p.
Proof.
  intros H. unfold endswith. rewrite rev_app_distr.
  apply startswith_app. now rewrite !length_rev.
Qed.

Lemma model_lines_not_import (flat : bool) (mn en : pyset) (m : ModelDef.t)
  (line : str) :
  In line (model_lines flat mn en m) -> is_models_import line = false.
Proof.
  unfold model_lines, full_interface, flat_interface.
  rewrite !in_app_iff.
  assert (Hf : forall (g : FieldDef.t -> str) fs,
             In line (map (fun f => field_line f (g f)) fs) ->
             is_models_import line = false).
  { intros g fs H. apply in_map_iff in H. destruct H as (f & <- & _).
    reflexivity. }
  intros [[H | [H | H]] | H].
  - destruct H as [<-|[]]. reflexivity.
  - eapply Hf; exact H.
  - destruct H as [<-|[<-|[]]]; reflexivity.
  - destruct flat; [|destruct H].
    rewrite !in_app_iff in H. destruct H as [H | [H | H]].
    + destruct H as [<-|[]]. reflexivity.
    + eapply Hf; exact H.
    + destruct H as [<-|[<-|[]]]; reflexivity.
Qed.

Lemma enum_import_not_models_import (names : str) :
  is_models_import
    (py "import type { " ++ names ++ py " } from "
     ++ [dq] ++ py "../common/enums" ++ [dq] ++ py ";") = false.
Proof.
  unfold is_models_import. apply andb_false_iff. right.
  rewrite !app_assoc. rewrite <- (app_assoc _ [dq] (py ";")).
  rewrite <- (app_assoc _ (py "../common/enums")).
  rewrite endswith_app_suffix; [reflexivity|].
  vm_compute. lia.
Qed.

(** ** Cross-partition imports of the split-file output *)

(** C2: in the split-file output, the artifact of the partition of a model
    [m] exists, and (1) for every field of [m] whose type name is a model
    of another partition [y], it has the line [import type { names } from
    ../y/models;] (the path between double quotes), where the names, joined
    by a comma and a space, are a strictly increasing list containing the
    type name; (2) when no model of the partition has such a field, it has
    no line importing from a models artifact. *)
Theorem cross_partition_imports (schema : str) (enums : dict EnumDef.t)
  (models : dict ModelDef.t) (generate_flat generate_index : bool)
  (m : ModelDef.t) :
  parse_prisma schema = Ret (enums, models) ->
  In m (dict_values models) ->
  exists text,
    dict_get (generate_split_files enums models generate_flat generate_index)
             (schema_or_default m ++ py "/models.ts") = Some text
    /\ (forall f m',
          In f (ModelDef.fields m) ->
          dict_get models (FieldDef.type_name f) = Some m' ->
          schema_or_default m' <> schema_or_default m ->
          exists names,
            In (py "import type { " ++ join (py ", ") names ++ py " } from "
                ++ [dq] ++ py "../" ++ schema_or_default m' ++ py "/models"
                ++ [dq] ++ py ";")
               (splitlines text)
            /\ In (FieldDef.type_name f) names
            /\ strictly_sorted names)
    /\ ((forall m2 f m',
           In m2 (dict_values models) ->
           schema_or_default m2 = schema_or_default m ->
           In f (ModelDef.fields m2) ->
           dict_get models (FieldDef.type_name f) = Some m' ->
           schema_or_default m' = schema_or_default m) ->
        forall line, In line (splitlines text) -> is_models_import line = false).
Proof.
  intros Hp Hm. apply parse_prisma_wf in Hp. destruct Hp as [Hwe Hwm].
  destruct (@partition_models_complete models m Hm) as (ms & Hx & Hin).
  set (x := schema_or_default m) in *.
  set (mts := build_model_to_schema (partition_models models)).
  set (lines := schema_file_lines enums generate_flat (dict_keys models)
                  (dict_keys enums) mts x ms).
  assert (Hl : Forall one_line lines)
    by (apply schema_file_lines_one_line; assumption).
  assert (Hms : forall m0, In m0 ms -> In m0 (dict_values models)).
  { intros m0 H0. eapply partition_models_sound; eassumption. }
  exists (join [nl] lines). split; [|split].
  - apply (@split_files_partition enums models generate_flat generate_index
             x ms Hx).
  - intros f m' Hf Hg Hne.
    assert (Hpair : In (schema_or_default m', FieldDef.type_name f)
                       (cross_pairs x ms (dict_keys models) mts)).
    { apply (@cross_pairs_In models Hwm). exists m, f, m'. auto 10. }
    destruct (@cross_fold_complete
                (cross_pairs x ms (dict_keys models) mts) []
                (schema_or_default m') (FieldDef.type_name f)
                (or_introl Hpair)) as (names & Hget & Hn).
    rewrite <- collect_cross_imports_eq in Hget. apply dict_get_In in Hget.
    destruct (@cross_imports_entries models Hwm x ms _ names Hms Hget)
      as (Hne' & Hnd & _ & _).
    exists (sorted names). split; [|split].
    + change (In (import_line (sorted names) (schema_or_default m'))
                 (splitlines (join [nl] lines))).
      rewrite splitlines_join by assumption.
      apply drop_final_empty_In; [|discriminate].
      unfold lines. rewrite schema_file_lines_eq.
      rewrite !in_app_iff. right; right; right; left.
      unfold cross_import_lines. apply in_flat_map.
      exists (schema_or_default m', names). split; [exact Hget|].
      cbn [fst snd]. destruct names; [congruence | left; reflexivity].
    + now apply sorted_In.
    + now apply sorted_strict.
  - intros Hnone line Hline.
    rewrite splitlines_join in Hline by assumption.
    apply drop_final_empty_incl in Hline.
    assert (Hpairs : cross_pairs x ms (dict_keys models) mts = []).
    { destruct (cross_pairs x ms (dict_keys models) mts) as [|[o n] ps] eqn:E;
        [reflexivity|].
      assert (Hp : In (o, n) (cross_pairs x ms (dict_keys models) mts))
        by (rewrite E; left; reflexivity).
      apply (@cross_pairs_In models Hwm) in Hp.
      destruct Hp as (m2 & f & m' & H2 & Hf & Ht & Hg & Ho & Hox).
      exfalso. apply Hox. rewrite <- Ho.
      destruct (@partition_models_sound models x ms m2 Hx H2) as [Hv Hpx].
      apply (Hnone m2 f m' Hv Hpx Hf). now rewrite Ht. }
    unfold lines in Hline. rewrite schema_file_lines_eq in Hline.
    rewrite collect_cross_imports_eq, Hpairs in Hline.
    cbn [fold_left] in Hline.
    rewrite !in_app_iff in Hline.
    destruct Hline as [H | [H | [H | [H | [H | H]]]]].
    + destruct H as [<-|[<-|[<-|[]]]]; reflexivity.
    + destruct (is_empty enums); [destruct H|].
      destruct H as [<-|[]]. apply enum_import_not_models_import.
    + destruct H as [<-|[]]. reflexivity.
    + destruct H.
    + destruct H.
    + apply in_flat_map in H. destruct H as (m0 & _ & H).
      eapply model_lines_not_import; exact H.
Qed.

Lemma cross_partition_imports_witness :
  parse_prisma ab_schema = Ret ([], ab_models)
  /\ (exists text,
        dict_get (generate_split_files [] ab_models false false)
                 (py "x/models.ts") = Some text
        /\ In (py "import type { B } from " ++ [dq] ++ py "../y/models"
               ++ [dq] ++ py ";")
              (splitlines text)
        /\ exists names,
             In (py "import type { " ++ join (py ", ") names ++ py " } from "
                 ++ [dq] ++ py "../y/models" ++ [dq] ++ py ";")
                (splitlines text)
             /\ In (py "B") names /\ strictly_sorted names)
  /\ (exists text,
        dict_get (generate_split_files [] ab_models false false)
                 (py "y/models.ts") = Some text
        /\ forall line, In line (splitlines text) ->
                        is_models_import line = false).
Proof.
  assert (Hp : parse_prisma ab_schema = Ret ([], ab_models))
    by (vm_compute; reflexivity).
  split; [exact Hp|]. split.
  - destruct (@cross_partition_imports ab_schema [] ab_models false false
                a_model Hp (or_introl eq_refl)) as (text & Hget & H1 & _).
    exists text. split; [exact Hget|]. split.
    + assert (E : dict_get (generate_split_files [] ab_models false false)
                           (py "x/models.ts")
                  = Some (schema_file_lines_text [] false
                            (dict_keys ab_models) []
                            (build_model_to_schema (partition_models ab_models))
                            (py "x") [a_model]))
        by (vm_compute; reflexivity).
      change (schema_or_default a_model ++ py "/models.ts")
        with (py "x/models.ts") in Hget.
      rewrite E in Hget. inversion Hget; subst text.
      vm_compute. right; right; right; right; left; reflexivity.
    + apply (H1 (FieldDef.mk (py "b") (py "B") false false (py "b B")) b_model).
      * left; reflexivity.
      * reflexivity.
      * discriminate.
  - destruct (@cross_partition_imports ab_schema [] ab_models false false
                b_model Hp (or_intror (or_introl eq_refl)))
      as (text & Hget & _ & H2).
    exists text. split; [exact Hget|]. apply H2.
    intros m2 f m' [<-|[<-|[]]] Hs Hf Hg.
    + discriminate.
    + destruct Hf.
Defined.

(* ================================================================== *)
(** * Further properties of the parser *)
(* ================================================================== *)

Lemma getitem_app_mid {A : Type} (pre : list A) (x : A) (post : list A) :
  getitem (pre ++ x :: post) (length pre) = Ret x.
Proof.
  unfold getitem. rewrite nth_error_app2 by lia.
  rewrite Nat.sub_diag. reflexivity.
Qed.

Lemma parse_loop_no_header (lines : list str) (fuel i : nat)
  (enums : dict EnumDef.t) (models : dict ModelDef.t) :
  Forall no_header lines -> length lines - i < fuel ->
  parse_loop fuel lines i enums models = Ret (enums, models).
Proof.
  intros Hn. revert i; induction fuel as [|fuel IH]; intros i Hf; [lia|].
  cbn [parse_loop]. destruct (Nat.ltb i (length lines)) eqn:Hi; [|reflexivity].
  apply Nat.ltb_lt in Hi.
  destruct (@getitem_ret _ lines i Hi) as [raw Hraw]. rewrite Hraw. cbn [bind].
  apply getitem_In in Hraw. rewrite Forall_forall in Hn.
  rewrite (Hn raw Hraw). apply IH. lia.
Qed.

(** X1: text in which no line, once comments and surrounding whitespace are
    removed, begins with the keyword [model] or [enum] followed by a space
    parses to two empty maps. *)
Theorem parse_prisma_without_header (schema : str) :
  Forall no_header (splitlines (strip_line_comments schema)) ->
  parse_prisma schema = Ret ([], []).
Proof.
  intros H. unfold parse_prisma, parse_prisma_fuel.
  apply parse_loop_no_header; [assumption | lia].
Qed.

Lemma parse_prisma_without_header_witness :
  parse_prisma (py "datasource db {" ++ [nl] ++ py "  provider = x // model M {"
                ++ [nl] ++ py "}" ++ [nl] ++ py "modelX {}")
  = Ret ([], []).
Proof.
  apply parse_prisma_without_header.
  vm_compute. repeat constructor.
Defined.

(** ** Blocks *)

Lemma find_brace_skips (fuel : nat) (pre gap : list str) (brace_line : str)
  (post : list str) :
  Forall (fun g => contains_char lbrace g = false) gap ->
  contains_char lbrace brace_line = true ->
  length gap < fuel ->
  find_brace fuel (pre ++ gap ++ brace_line :: post) (length pre)
  = Ret (length pre + length gap).
Proof.
  intros Hgap Hb. revert fuel pre.
  induction Hgap as [|g gap Hg _ IH]; intros fuel pre Hf.
  - destruct fuel as [|fuel]; [simpl in Hf; lia|].
    cbn [find_brace app length].
    replace (Nat.ltb (length pre) (length (pre ++ brace_line :: post))) with true
      by (symmetry; apply Nat.ltb_lt; rewrite length_app; simpl; lia).
    rewrite getitem_app_mid. cbn [bind].
    unfold lbrace in Hb. rewrite Hb. cbn [negb]. f_equal. lia.
  - destruct fuel as [|fuel]; [simpl in Hf; lia|].
    cbn [find_brace app length].
    replace (Nat.ltb (length pre) (length (pre ++ g :: gap ++ brace_line :: post)))
      with true
      by (symmetry; apply Nat.ltb_lt; rewrite length_app; simpl; lia).
    rewrite getitem_app_mid. cbn [bind].
    unfold lbrace in Hg. rewrite Hg. cbn [negb].
    replace (pre ++ g :: gap ++ brace_line :: post)
      with ((pre ++ [g]) ++ gap ++ brace_line :: post)
      by (rewrite <- app_assoc; reflexivity).
    replace (length pre + 1) with (length (pre ++ [g]))
      by (rewrite length_app; reflexivity).
    rewrite IH by (simpl in Hf; lia).
    f_equal. rewrite length_app. simpl. lia.
Qed.

Lemma find_brace_none (fuel : nat) (pre gap : list str) :
  Forall (fun g => contains_char lbrace g = false) gap ->
  length gap < fuel ->
  find_brace fuel (pre ++ gap) (length pre) = Ret (length pre + length gap).
Proof.
  intros Hgap. revert fuel pre.
  induction Hgap as [|g gap Hg _ IH]; intros fuel pre Hf.
  - destruct fuel as [|fuel]; [simpl in Hf; lia|].
    cbn [find_brace]. rewrite app_nil_r, Nat.ltb_irrefl. simpl. f_equal. lia.
  - destruct fuel as [|fuel]; [simpl in Hf; lia|].
    cbn [find_brace length].
    replace (Nat.ltb (length pre) (length (pre ++ g :: gap))) with true
      by (symmetry; apply Nat.ltb_lt; rewrite length_app; simpl; lia).
    rewrite getitem_app_mid. cbn [bind].
    unfold lbrace in Hg. rewrite Hg. cbn [negb].
    replace (pre ++ g :: gap) with ((pre ++ [g]) ++ gap)
      by (rewrite <- app_assoc; reflexivity).
    replace (length pre + 1) with (length (pre ++ [g]))
      by (rewrite length_app; reflexivity).
    rewrite IH by (simpl in Hf; lia).
    f_equal. rewrite length_app. simpl. lia.
Qed.

Lemma collect_body_closed (fuel : nat) (pre body : list str) (close : str)
  (post acc : list str) :
  Forall not_closing body -> strip close = py "}" ->
  length body < fuel ->
  collect_body fuel (pre ++ body ++ close :: post) (length pre) acc
  = Ret (acc ++ body, length pre + length body).
Proof.
  intros Hbody Hc. revert fuel pre acc.
  induction Hbody as [|b body Hb _ IH]; intros fuel pre acc Hf.
  - destruct fuel as [|fuel]; [simpl in Hf; lia|].
    cbn [collect_body app length].
    replace (Nat.ltb (length pre) (length (pre ++ close :: post))) with true
      by (symmetry; apply Nat.ltb_lt; rewrite length_app; simpl; lia).
    rewrite getitem_app_mid. cbn [bind].
    rewrite Hc, str_eqb_refl, app_nil_r. f_equal. f_equal. lia.
  - destruct fuel as [|fuel]; [simpl in Hf; lia|].
    cbn [collect_body app length].
    replace (Nat.ltb (length pre) (length (pre ++ b :: body ++ close :: post)))
      with true
      by (symmetry; apply Nat.ltb_lt; rewrite length_app; simpl; lia).
    rewrite getitem_app_mid. cbn [bind].
    apply str_eqb_neq in Hb. rewrite Hb.
    replace (pre ++ b :: body ++ close :: post)
      with ((pre ++ [b]) ++ body ++ close :: post)
      by (rewrite <- app_assoc; reflexivity).
    replace (length pre + 1) with (length (pre ++ [b]))
      by (rewrite length_app; reflexivity).
    rewrite IH by (simpl in Hf; lia).
    unfold append. rewrite <- app_assoc, length_app. simpl.
    f_equal. f_equal. lia.
Qed.

Lemma collect_body_open (fuel : nat) (pre body acc : list str) :
  Forall not_closing body -> length body < fuel ->
  collect_body fuel (pre ++ body) (length pre) acc
  = Ret (acc ++ body, length pre + length body).
Proof.
  intros Hbody. revert fuel pre acc.
  induction Hbody as [|b body Hb _ IH]; intros fuel pre acc Hf.
  - destruct fuel as [|fuel]; [simpl in Hf; lia|].
    cbn [collect_body]. rewrite !app_nil_r, Nat.ltb_irrefl. simpl.
    f_equal. f_equal. lia.
  - destruct fuel as [|fuel]; [simpl in Hf; lia|].
    cbn [collect_body length].
    replace (Nat.ltb (length pre) (length (pre ++ b :: body))) with true
      by (symmetry; apply Nat.ltb_lt; rewrite length_app; simpl; lia).
    rewrite getitem_app_mid. cbn [bind].
    apply str_eqb_neq in Hb. rewrite Hb.
    replace (pre ++ b :: body) with ((pre ++ [b]) ++ body)
      by (rewrite <- app_assoc; reflexivity).
    replace (length pre + 1) with (length (pre ++ [b]))
      by (rewrite length_app; reflexivity).
    rewrite IH by (simpl in Hf; lia).
    unfold append. rewrite <- app_assoc, length_app. simpl.
    f_equal. f_equal. lia.
Qed.

Lemma collect_body_past_end (fuel : nat) (lines acc : list str) (i : nat) :
  length lines <= i -> 0 < fuel ->
  collect_body fuel lines i acc = Ret (acc, i).
Proof.
  intros Hi Hf. destruct fuel as [|fuel]; [lia|].
  cbn [collect_body].
  replace (Nat.ltb i (length lines)) with false
    by (symmetry; apply Nat.ltb_ge; lia).
  reflexivity.
Qed.

Lemma split_ws_model (rest : str) :
  split_ws (py "model " ++ rest) = py "model" :: split_ws rest.
Proof. reflexivity. Qed.

Lemma split_ws_enum (rest : str) :
  split_ws (py "enum " ++ rest) = py "enum" :: split_ws rest.
Proof. reflexivity. Qed.

Lemma parse_loop_more_fuel (lines : list str) (fuel i : nat)
  (enums : dict EnumDef.t) (models : dict ModelDef.t) :
  length lines - i < fuel ->
  parse_loop fuel lines i enums models
  = parse_loop (S (length lines)) lines i enums models.
Proof.
  intros Hf.
  destruct (@parse_loop_total lines fuel i enums models Hf) as [r Hr].
  destruct (@parse_loop_total lines (S (length lines)) i enums models
              ltac:(lia)) as [r' Hr'].
  rewrite Hr, Hr'. f_equal.
  destruct (Nat.le_ge_cases fuel (S (length lines))) as [L|L].
  - rewrite (@parse_loop_mono lines fuel (S (length lines)) i enums models r Hr L)
      in Hr'. congruence.
  - rewrite (@parse_loop_mono lines (S (length lines)) fuel i enums models r' Hr' L)
      in Hr. congruence.
Qed.

Lemma opening_index (fuel : nat) (pre : list str) (hdr : str)
  (opening tail : list str) :
  opening_of hdr opening -> length opening < fuel ->
  (if negb (contains_char 123%N (strip hdr))
   then j <- find_brace fuel (pre ++ hdr :: opening ++ tail) (length pre + 1) ;;
        Ret (j + 1)
   else Ret (length pre + 1))
  = Ret (length pre + 1 + length opening).
Proof.
  intros Ho Hf. destruct Ho as [Hb | gap bl Hb Hgap Hbl].
  - unfold lbrace in Hb. rewrite Hb. cbn [negb length]. f_equal. lia.
  - unfold lbrace in Hb. rewrite Hb. cbn [negb].
    replace (pre ++ hdr :: (gap ++ [bl]) ++ tail)
      with ((pre ++ [hdr]) ++ gap ++ bl :: tail)
      by (rewrite <- !app_assoc; reflexivity).
    replace (length pre + 1) with (length (pre ++ [hdr]))
      by (rewrite length_app; reflexivity).
    rewrite length_app in Hf. simpl in Hf.
    rewrite find_brace_skips by (assumption || lia).
    cbn [bind]. f_equal. rewrite !length_app. simpl. lia.
Qed.

Lemma header_tokens (is_enum : bool) (rest name : str) (tl : list str) :
  split_ws rest = name :: tl ->
  split_ws (header_keyword is_enum ++ rest)
  = (if is_enum then py "enum" else py "model") :: name :: tl.
Proof.
  intros H. destruct is_enum; cbn [header_keyword].
  - now rewrite split_ws_enum, H.
  - now rewrite split_ws_model, H.
Qed.

Lemma header_startswith (is_enum : bool) (rest : str) :
  startswith (header_keyword is_enum ++ rest) (py "model ")
  || startswith (header_keyword is_enum ++ rest) (py "enum ") = true.
Proof. destruct is_enum; reflexivity. Qed.

(** One turn of the main loop on a header line whose block is closed. *)
Lemma parse_block_step (is_enum : bool) (pre : list str) (hdr : str)
  (opening body : list str) (close : str) (post : list str)
  (rest name : str) (tl : list str)
  (enums : dict EnumDef.t) (models : dict ModelDef.t) :
  strip hdr = header_keyword is_enum ++ rest ->
  split_ws rest = name :: tl ->
  opening_of hdr opening ->
  Forall not_closing body ->
  strip close = py "}" ->
  parse_loop (S (length (pre ++ hdr :: opening ++ body ++ close :: post)))
             (pre ++ hdr :: opening ++ body ++ close :: post)
             (length pre) enums models
  = ('(enums', models') <- store_block is_enum name body enums models ;;
     parse_loop (S (length (pre ++ hdr :: opening ++ body ++ close :: post)))
                (pre ++ hdr :: opening ++ body ++ close :: post)
                (length pre + 1 + length opening + length body + 1)
                enums' models').
Proof.
  intros Hhdr Hname Hopen Hbody Hclose.
  set (L := pre ++ hdr :: opening ++ body ++ close :: post).
  assert (HL : length L
               = length pre + 1 + length opening + length body + 1 + length post).
  { unfold L. rewrite !length_app. simpl. rewrite !length_app. simpl. lia. }
  cbn [parse_loop].
  replace (Nat.ltb (length pre) (length L)) with true
    by (symmetry; apply Nat.ltb_lt; lia).
  unfold L at 1. rewrite getitem_app_mid. cbn [bind]. fold L.
  pose proof (@opening_index (length L) pre hdr opening (body ++ close :: post)
                Hopen ltac:(lia)) as Hidx.
  fold L in Hidx.
  rewrite Hhdr in *.
  rewrite header_startswith, (@header_tokens is_enum rest name tl Hname).
  cbn [length Nat.ltb Nat.leb getitem nth_error bind].
  rewrite Hidx. cbn [bind].
  assert (Hcol : collect_body (length L) L (length pre + 1 + length opening) []
                 = Ret (body, length pre + 1 + length opening + length body)).
  { unfold L.
    replace (pre ++ hdr :: opening ++ body ++ close :: post)
      with ((pre ++ hdr :: opening) ++ body ++ close :: post)
      by (rewrite <- app_assoc; reflexivity).
    replace (length pre + 1 + length opening)
      with (length (pre ++ hdr :: opening))
      by (rewrite length_app; simpl; lia).
    rewrite collect_body_closed; try assumption; [reflexivity|].
    repeat (rewrite length_app; cbn [length]). lia. }
  rewrite Hcol. cbn [bind].
  unfold store_block. destruct is_enum.
  - replace (str_eqb (py "enum") (py "enum")) with true by reflexivity.
    destruct (for_each enum_body_step body []) as [values| |]; cbn [bind];
      try reflexivity.
    apply parse_loop_more_fuel. lia.
  - replace (str_eqb (py "model") (py "enum")) with false by reflexivity.
    replace (str_eqb (py "model") (py "model")) with true by reflexivity.
    destruct (for_each model_body_step body ([], None)) as [[fields sn]| |];
      cbn [bind]; try reflexivity.
    apply parse_loop_more_fuel. lia.
Qed.

Lemma store_block_total (is_enum : bool) (name : str) (body : list str)
  (enums : dict EnumDef.t) (models : dict ModelDef.t) :
  exists enums' models',
    store_block is_enum name body enums models = Ret (enums', models').
Proof.
  unfold store_block. destruct is_enum.
  - destruct (@for_each_total _ _ enum_body_step enum_body_step_total body [])
      as [values ->].
    cbn [bind]. eauto.
  - destruct (@for_each_total _ _ model_body_step model_body_step_total body
                ([], None)) as [[fields sn] ->].
    cbn [bind]. eauto.
Qed.

(** X2: a block is consumed as one unit.  When a line is a header (keyword
    [model] or [enum], a space, and a name as next token), the lines after
    its opening up to the first line that is exactly a closing brace are its
    body; the definition built from them is stored under the name, which
    never raises, and parsing goes on after the closing line. *)
Theorem parse_block (is_enum : bool) (pre : list str) (hdr : str)
  (opening body : list str) (close : str) (post : list str)
  (rest name : str) (tl : list str)
  (enums : dict EnumDef.t) (models : dict ModelDef.t) :
  strip hdr = header_keyword is_enum ++ rest ->
  split_ws rest = name :: tl ->
  opening_of hdr opening ->
  Forall not_closing body ->
  strip close = py "}" ->
  exists enums' models',
    store_block is_enum name body enums models = Ret (enums', models')
    /\ parse_loop (S (length (pre ++ hdr :: opening ++ body ++ close :: post)))
                  (pre ++ hdr :: opening ++ body ++ close :: post)
                  (length pre) enums models
       = parse_loop (S (length (pre ++ hdr :: opening ++ body ++ close :: post)))
                    (pre ++ hdr :: opening ++ body ++ close :: post)
                    (length pre + 1 + length opening + length body + 1)
                    enums' models'.
Proof.
  intros Hhdr Hname Hopen Hbody Hclose.
  destruct (store_block_total is_enum name body enums models)
    as (enums' & models' & Hs).
  exists enums', models'. split; [exact Hs|].
  rewrite (@parse_block_step is_enum pre hdr opening body close post rest name
             tl enums models Hhdr Hname Hopen Hbody Hclose).
  rewrite Hs. reflexivity.
Qed.

Lemma parse_block_witness :
  parse_prisma (py "model A" ++ [nl] ++ py "{" ++ [nl] ++ py "  id Int" ++ [nl]
                ++ py "}")
  = Ret ([], [(py "A",
               ModelDef.mk (py "A")
                 [FieldDef.mk (py "id") (py "Int") false false (py "id Int")]
                 None)]).
Proof.
  destruct (@parse_block false [] (py "model A") [py "{"] [py "  id Int"]
              (py "}") [] (py "A") (py "A") [] [] [])
    as (enums' & models' & Hs & Hstep).
  - reflexivity.
  - reflexivity.
  - apply (@opening_later (py "model A") [] (py "{"));
      [reflexivity | constructor | reflexivity].
  - constructor; [|constructor]. intros H. vm_compute in H. discriminate.
  - reflexivity.
  - etransitivity; [exact Hstep|].
    vm_compute in Hs. inversion Hs; subst enums' models'. reflexivity.
Defined.

Lemma parse_loop_past_end (lines : list str) (fuel i : nat)
  (enums : dict EnumDef.t) (models : dict ModelDef.t) :
  length lines <= i -> 0 < fuel ->
  parse_loop fuel lines i enums models = Ret (enums, models).
Proof.
  intros Hi Hf. destruct fuel as [|fuel]; [lia|].
  cbn [parse_loop].
  replace (Nat.ltb i (length lines)) with false
    by (symmetry; apply Nat.ltb_ge; lia).
  reflexivity.
Qed.

(** X3: a block that the input ends before closing is still stored.  When
    no line that is exactly a closing brace follows the opening, every
    remaining line is body; when the header has no brace and no later line
    has one, the body is empty. *)
Theorem parse_block_at_end_of_input (is_enum : bool) (pre : list str)
  (hdr : str) (tail body : list str) (rest name : str) (tl : list str)
  (enums : dict EnumDef.t) (models : dict ModelDef.t) :
  strip hdr = header_keyword is_enum ++ rest ->
  split_ws rest = name :: tl ->
  (exists opening,
      opening_of hdr opening /\ Forall not_closing body
      /\ tail = opening ++ body)
  \/ (contains_char lbrace (strip hdr) = false
      /\ Forall (fun g => contains_char lbrace g = false) tail
      /\ body = []) ->
  parse_loop (S (length (pre ++ hdr :: tail))) (pre ++ hdr :: tail)
             (length pre) enums models
  = store_block is_enum name body enums models.
Proof.
  intros Hhdr Hname Hcase.
  set (L := pre ++ hdr :: tail).
  assert (HL : length L = length pre + 1 + length tail).
  { unfold L. rewrite length_app. simpl. lia. }
  cbn [parse_loop].
  replace (Nat.ltb (length pre) (length L)) with true
    by (symmetry; apply Nat.ltb_lt; lia).
  unfold L at 1. rewrite getitem_app_mid. cbn [bind]. fold L.
  assert (Hstep :
            exists i2,
              length L <= i2
              /\ (i1 <- (if negb (contains_char 123%N (strip hdr))
                         then j <- find_brace (length L) L (length pre + 1) ;;
                              Ret (j + 1)
                         else Ret (length pre + 1)) ;;
                  collect_body (length L) L i1 [])
                 = Ret (body, i2)).
  { destruct Hcase as [(opening & Hopen & Hbody & ->) | (Hb & Hgap & ->)].
    - exists (length L). split; [lia|].
      pose proof (@opening_index (length L) pre hdr opening body Hopen) as Hidx.
      fold L in Hidx. rewrite length_app in HL.
      rewrite Hidx by lia. cbn [bind]. unfold L.
      replace (pre ++ hdr :: opening ++ body)
        with ((pre ++ hdr :: opening) ++ body)
        by (rewrite <- app_assoc; reflexivity).
      replace (length pre + 1 + length opening)
        with (length (pre ++ hdr :: opening))
        by (rewrite length_app; simpl; lia).
      rewrite collect_body_open; try assumption.
      + cbn [app]. f_equal. f_equal. repeat (rewrite length_app; cbn [length]). lia.
      + repeat (rewrite length_app; cbn [length]). lia.
    - exists (length L + 1). split; [lia|].
      unfold lbrace in Hb. rewrite Hb. cbn [negb]. unfold L.
      replace (pre ++ hdr :: tail) with ((pre ++ [hdr]) ++ tail)
        by (rewrite <- app_assoc; reflexivity).
      replace (length pre + 1) with (length (pre ++ [hdr]))
        by (rewrite length_app; reflexivity).
      rewrite find_brace_none;
        [|assumption | repeat (rewrite length_app; cbn [length]); lia].
      cbn [bind]. rewrite collect_body_past_end.
      + do 2 f_equal. repeat (rewrite length_app; cbn [length]). lia.
      + repeat (rewrite length_app; cbn [length]). lia.
      + repeat (rewrite length_app; cbn [length]). lia. }
  destruct Hstep as (i2 & Hi2 & Hstep).
  rewrite Hhdr in *.
  rewrite header_startswith, (@header_tokens is_enum rest name tl Hname).
  cbn [length Nat.ltb Nat.leb getitem nth_error bind].
  apply bind_ret_inv in Hstep. destruct Hstep as (i1 & Hi1 & Hcol).
  rewrite Hi1. cbn [bind]. rewrite Hcol. cbn [bind].
  unfold store_block. destruct is_enum.
  - replace (str_eqb (py "enum") (py "enum")) with true by reflexivity.
    destruct (for_each enum_body_step body []) as [values| |]; cbn [bind];
      try reflexivity.
    apply parse_loop_past_end; lia.
  - replace (str_eqb (py "model") (py "enum")) with false by reflexivity.
    replace (str_eqb (py "model") (py "model")) with true by reflexivity.
    destruct (for_each model_body_step body ([], None)) as [[fields sn]| |];
      cbn [bind]; try reflexivity.
    apply parse_loop_past_end; lia.
Qed.

Lemma parse_block_at_end_of_input_witness :
  parse_prisma (py "enum Role {" ++ [nl] ++ py "  ADMIN" ++ [nl] ++ py "  USER")
  = Ret ([(py "Role", EnumDef.mk (py "Role") [py "ADMIN"; py "USER"])], [])
  /\ parse_prisma (py "model A" ++ [nl] ++ py "  id Int")
     = Ret ([], [(py "A", ModelDef.mk (py "A") [] None)]).
Proof.
  split.
  - change (parse_loop (S (length ([] ++ py "enum Role {"
                                      :: [py "  ADMIN"; py "  USER"])))
                       ([] ++ py "enum Role {" :: [py "  ADMIN"; py "  USER"])
                       (length (@nil str)) [] []
            = store_block true (py "Role") [py "  ADMIN"; py "  USER"] [] []).
    apply (@parse_block_at_end_of_input true [] (py "enum Role {")
             [py "  ADMIN"; py "  USER"] [py "  ADMIN"; py "  USER"]
             (py "Role {") (py "Role") [py "{"]).
    + reflexivity.
    + reflexivity.
    + left. exists []. split; [apply opening_inline; reflexivity|].
      split; [|reflexivity].
      repeat (constructor; [intros H; vm_compute in H; discriminate|]).
      constructor.
  - change (parse_loop (S (length ([] ++ py "model A" :: [py "  id Int"])))
                       ([] ++ py "model A" :: [py "  id Int"])
                       (length (@nil str)) [] []
            = store_block false (py "A") [] [] []).
    apply (@parse_block_at_end_of_input false [] (py "model A")
             [py "  id Int"] [] (py "A") (py "A") []).
    + reflexivity.
    + reflexivity.
    + right. split; [reflexivity|]. split; [|reflexivity].
      repeat constructor.
Defined.

Lemma parse_loop_skip (pre skip post : list str)
  (enums : dict EnumDef.t) (models : dict ModelDef.t) :
  Forall no_header skip ->
  parse_loop (S (length (pre ++ skip ++ post))) (pre ++ skip ++ post)
             (length pre) enums models
  = parse_loop (S (length (pre ++ skip ++ post))) (pre ++ skip ++ post)
               (length (pre ++ skip)) enums models.
Proof.
  intros H. revert pre. induction H as [|x skip Hx Hs IH]; intros pre.
  - rewrite app_nil_r. reflexivity.
  - set (L := pre ++ (x :: skip) ++ post).
    assert (HL : length L = length pre + S (length skip + length post)).
    { unfold L. cbn [app]. rewrite ?length_app. cbn [length]. rewrite ?length_app. lia. }
    cbn [parse_loop].
    replace (Nat.ltb (length pre) (length L)) with true
      by (symmetry; apply Nat.ltb_lt; lia).
    unfold L at 1. cbn [app]. rewrite getitem_app_mid. cbn [bind]. fold L.
    unfold no_header in Hx. rewrite Hx.
    rewrite parse_loop_more_fuel by lia.
    assert (EL : L = (pre ++ [x]) ++ skip ++ post).
    { unfold L. rewrite <- app_assoc. reflexivity. }
    replace (length pre + 1) with (length (pre ++ [x]))
      by (rewrite length_app; reflexivity).
    replace (pre ++ x :: skip) with ((pre ++ [x]) ++ skip)
      by (rewrite <- app_assoc; reflexivity).
    rewrite EL. apply IH.
Qed.

(** Lines that start no block, then a closed block. *)
Lemma parse_skip_block (is_enum : bool) (pre skip : list str) (hdr : str)
  (opening body : list str) (close : str) (post : list str)
  (rest name : str) (tl : list str)
  (enums : dict EnumDef.t) (models : dict ModelDef.t) :
  Forall no_header skip ->
  strip hdr = header_keyword is_enum ++ rest ->
  split_ws rest = name :: tl ->
  opening_of hdr opening ->
  Forall not_closing body ->
  strip close = py "}" ->
  parse_loop
    (S (length (pre ++ skip ++ hdr :: opening ++ body ++ close :: post)))
    (pre ++ skip ++ hdr :: opening ++ body ++ close :: post)
    (length pre) enums models
  = ('(enums', models') <- store_block is_enum name body enums models ;;
     parse_loop
       (S (length (pre ++ skip ++ hdr :: opening ++ body ++ close :: post)))
       (pre ++ skip ++ hdr :: opening ++ body ++ close :: post)
       (length (pre ++ skip ++ hdr :: opening ++ body ++ [close]))
       enums' models').
Proof.
  intros Hskip Hhdr Hname Hopen Hbody Hclose.
  rewrite parse_loop_skip by assumption.
  assert (EL : pre ++ skip ++ hdr :: opening ++ body ++ close :: post
               = (pre ++ skip) ++ hdr :: opening ++ body ++ close :: post)
    by (rewrite <- app_assoc; reflexivity).
  rewrite EL.
  replace (length (pre ++ skip ++ hdr :: opening ++ body ++ [close]))
    with (length (pre ++ skip) + 1 + length opening + length body + 1)
    by (repeat (rewrite !length_app; cbn [length]); lia).
  now apply parse_block_step with (rest := rest) (tl := tl).
Qed.

(** X4: last write wins.  When the comment-free lines of a schema hold two
    closed model blocks declaring the same name, each with its opening brace
    on the header line or on a later line, and every line before, between
    and after the two blocks starts no block, the parser returns a single
    model entry, and it holds the fields and partition of the second
    block. *)
Theorem duplicate_model_last_wins (schema : str)
  (pre : list str) (hdr1 : str) (opening1 body1 : list str) (close1 : str)
  (mid : list str) (hdr2 : str) (opening2 body2 : list str) (close2 : str)
  (post : list str)
  (rest1 rest2 name : str) (tl1 tl2 : list str)
  (fields2 : list FieldDef.t) (schema2 : option str) :
  splitlines (strip_line_comments schema)
  = pre ++ hdr1 :: opening1 ++ body1 ++ close1
        :: mid ++ hdr2 :: opening2 ++ body2 ++ close2 :: post ->
  Forall no_header pre -> Forall no_header mid -> Forall no_header post ->
  strip hdr1 = py "model " ++ rest1 -> split_ws rest1 = name :: tl1 ->
  opening_of hdr1 opening1 ->
  strip hdr2 = py "model " ++ rest2 -> split_ws rest2 = name :: tl2 ->
  opening_of hdr2 opening2 ->
  Forall not_closing body1 -> strip close1 = py "}" ->
  Forall not_closing body2 -> strip close2 = py "}" ->
  for_each model_body_step body2 ([], None) = Ret (fields2, schema2) ->
  parse_prisma schema
  = Ret ([], [(name, ModelDef.mk name fields2 schema2)]).
Proof.
  intros Hlines Hpre Hmid Hpost Hh1 Hn1 Ho1 Hh2 Hn2 Ho2 Hbody1 Hc1 Hbody2 Hc2
         Hf2.
  unfold parse_prisma, parse_prisma_fuel. cbv zeta. rewrite Hlines. clear Hlines.
  set (L := pre ++ hdr1 :: opening1 ++ body1 ++ close1
                :: mid ++ hdr2 :: opening2 ++ body2 ++ close2 :: post).
  assert (E1 : L = [] ++ pre ++ hdr1 :: opening1 ++ body1 ++ close1
                      :: (mid ++ hdr2 :: opening2 ++ body2 ++ close2 :: post))
    by reflexivity.
  assert (E2 : L = ([] ++ pre ++ hdr1 :: opening1 ++ body1 ++ [close1])
                   ++ mid ++ hdr2 :: opening2 ++ body2 ++ close2 :: post).
  { unfold L. repeat (progress (rewrite <- ?app_assoc; cbn [app])).
    reflexivity. }
  assert (E3 : L = (([] ++ pre ++ hdr1 :: opening1 ++ body1 ++ [close1])
                    ++ mid ++ hdr2 :: opening2 ++ body2 ++ [close2])
                   ++ post ++ []).
  { unfold L. rewrite app_nil_r.
    repeat (progress (rewrite <- ?app_assoc; cbn [app])). reflexivity. }
  change (parse_loop (S (length L)) L (length (@nil str)) [] []
          = Ret ([], [(name, ModelDef.mk name fields2 schema2)])).
  pose proof (@parse_skip_block false [] pre hdr1 opening1 body1 close1
                (mid ++ hdr2 :: opening2 ++ body2 ++ close2 :: post)
                rest1 name tl1 [] [] Hpre Hh1 Hn1 Ho1 Hbody1 Hc1) as B1.
  rewrite <- E1 in B1. rewrite B1. clear B1.
  destruct (@for_each_total _ _ model_body_step model_body_step_total body1
              ([], None)) as [[fields1 schema1] Hf1].
  unfold store_block at 1. rewrite Hf1. cbn [bind dict_set].
  pose proof (@parse_skip_block false
                ([] ++ pre ++ hdr1 :: opening1 ++ body1 ++ [close1])
                mid hdr2 opening2 body2 close2 post rest2 name tl2 []
                [(name, ModelDef.mk name fields1 schema1)]
                Hmid Hh2 Hn2 Ho2 Hbody2 Hc2) as B2.
  rewrite <- E2 in B2. rewrite B2. clear B2.
  unfold store_block. rewrite Hf2. cbn [bind dict_set].
  rewrite str_eqb_refl.
  pose proof (@parse_loop_skip
                (([] ++ pre ++ hdr1 :: opening1 ++ body1 ++ [close1])
                 ++ mid ++ hdr2 :: opening2 ++ body2 ++ [close2])
                post [] [] [(name, ModelDef.mk name fields2 schema2)] Hpost)
    as B3.
  rewrite <- E3 in B3.
  etransitivity; [exact B3|]. clear B3.
  apply parse_loop_past_end; [|lia].
  rewrite E3 at 1. rewrite app_nil_r. lia.
Qed.

Lemma duplicate_model_last_wins_witness :
  parse_prisma (py "generator client {" ++ [nl] ++ py "}" ++ [nl]
                ++ py "model A" ++ [nl] ++ py "{" ++ [nl]
                ++ py "  id Int" ++ [nl] ++ py "}" ++ [nl]
                ++ [nl]
                ++ py "model A {" ++ [nl] ++ py "  name String?" ++ [nl]
                ++ py "}" ++ [nl] ++ py "type X // end")
  = Ret ([], [(py "A",
               ModelDef.mk (py "A")
                 [FieldDef.mk (py "name") (py "String") true false
                              (py "name String?")]
                 None)]).
Proof.
  apply (@duplicate_model_last_wins _
           [py "generator client {"; py "}"]
           (py "model A") [py "{"] [py "  id Int"] (py "}")
           [[]]
           (py "model A {") [] [py "  name String?"] (py "}")
           [py "type X "]
           (py "A") (py "A {") (py "A") [] [py "{"]);
    try reflexivity.
  - repeat (constructor; [reflexivity|]). constructor.
  - repeat (constructor; [reflexivity|]). constructor.
  - repeat (constructor; [reflexivity|]). constructor.
  - apply (@opening_later (py "model A") [] (py "{"));
      [reflexivity | constructor | reflexivity].
  - apply opening_inline. reflexivity.
  - constructor; [intros H; vm_compute in H; discriminate | constructor].
  - constructor; [intros H; vm_compute in H; discriminate | constructor].
Defined.

(** ** Stored fields and values *)

Lemma endswith_drop_last (s p : str) :
  endswith s p = true -> s = drop_last (length p) s ++ p.
Proof.
  unfold endswith, drop_last. intros H. apply startswith_eq in H.
  rewrite length_rev, skipn_rev in H.
  apply (f_equal (@rev char)) in H.
  rewrite rev_involutive, rev_app_distr, !rev_involutive in H. exact H.
Qed.

Lemma type_token_decomposition (type_token : str) :
  let is_optional := endswith type_token (py "?") in
  let raw_type := if is_optional then drop_last 1 type_token else type_token in
  let is_list := endswith raw_type (py "[]") in
  let base_type := if is_list then drop_last 2 raw_type else raw_type in
  type_token
  = base_type ++ (if is_list then py "[]" else [])
    ++ (if is_optional then py "?" else []).
Proof.
  cbv zeta.
  destruct (endswith type_token (py "?")) eqn:Eo.
  - apply endswith_drop_last in Eo. change (length (py "?")) with 1 in Eo.
    destruct (endswith (drop_last 1 type_token) (py "[]")) eqn:El.
    + apply endswith_drop_last in El. change (length (py "[]")) with 2 in El.
      rewrite app_assoc, <- El. exact Eo.
    + rewrite app_nil_l. exact Eo.
  - destruct (endswith type_token (py "[]")) eqn:El.
    + apply endswith_drop_last in El. change (length (py "[]")) with 2 in El.
      rewrite app_nil_r. exact El.
    + now rewrite !app_nil_r.
Qed.

Lemma split_ws_head_char (c : char) (x : str) :
  is_space c = false -> exists t ts, split_ws (c :: x) = (c :: t) :: ts.
Proof.
  intros Hc. cbn [split_ws]. rewrite Hc.
  destruct x as [|d x']; [eauto|].
  destruct (is_space d); [eauto|].
  destruct (split_ws (d :: x')); eauto.
Qed.

Lemma getitem_two {A : Type} (l : list A) (a b : A) :
  getitem l 0 = Ret a -> getitem l 1 = Ret b -> exists tl, l = a :: b :: tl.
Proof.
  destruct l as [|x [|y tl]]; cbn; try discriminate.
  intros H1 H2. inversion H1; inversion H2; subst. eauto.
Qed.

Lemma first_token_not_at (l : str) (t : str) (ts : list str) :
  l <> [] -> (l = [] \/ exists c x, l = c :: x /\ is_space c = false) ->
  startswith l (py "@") = false ->
  split_ws l = t :: ts -> startswith t (py "@") = false.
Proof.
  intros Hne [->|(c & x & -> & Hc)] Hat Hsplit; [congruence|].
  destruct (@split_ws_head_char c x Hc) as (t' & ts' & E).
  rewrite E in Hsplit. inversion Hsplit; subst.
  exact Hat.
Qed.

Lemma model_body_step_faithful (st st' : list FieldDef.t * option str)
  (raw : str) :
  model_body_step st raw = Ret st' ->
  Forall field_faithful (fst st) -> Forall field_faithful (fst st').
Proof.
  unfold model_body_step. destruct st as [fields sn]. intros H Hst.
  destruct (is_empty (strip raw)) eqn:Ee; [inversion H; subst; assumption|].
  destruct (startswith (strip raw) (py "@@schema")).
  { destruct (re_search_schema (strip raw)); inversion H; subst; assumption. }
  destruct (startswith (strip raw) (py "@")) eqn:Eat;
    [inversion H; subst; assumption|].
  cbn [orb] in H.
  destruct (startswith (strip raw) (py "@@")); [inversion H; subst; assumption|].
  destruct (Nat.ltb (length (split_ws (strip raw))) 2);
    [inversion H; subst; assumption|].
  apply bind_ret_inv in H. destruct H as (field_name & Hfn & H).
  apply bind_ret_inv in H. destruct H as (type_token & Htt & H).
  destruct (@getitem_two _ _ _ _ Hfn Htt) as (tl & Hparts).
  inversion H; subst. cbn [fst]. unfold append.
  apply Forall_app. split; [exact Hst|]. constructor; [|constructor].
  unfold field_faithful, type_token_of.
  cbn [FieldDef.name FieldDef.type_name FieldDef.is_list FieldDef.is_optional
       FieldDef.raw_line].
  split; [|split].
  - exists tl. rewrite Hparts. f_equal. f_equal.
    apply type_token_decomposition.
  - exact Eat.
  - eapply first_token_not_at; [| apply strip_head | exact Eat | exact Hparts].
    intros E0. rewrite E0 in Ee. discriminate.
Qed.

Lemma enum_body_step_not_at (values values' : list str) (raw : str) :
  enum_body_step values raw = Ret values' ->
  Forall (fun v => startswith v (py "@") = false) values ->
  Forall (fun v => startswith v (py "@") = false) values'.
Proof.
  unfold enum_body_step. intros H Hv.
  destruct (is_empty (strip raw)) eqn:Ee; [inversion H; subst; assumption|].
  destruct (startswith (strip raw) (py "@@schema"));
    [inversion H; subst; assumption|].
  destruct (startswith (strip raw) (py "@")) eqn:Eat;
    [inversion H; subst; assumption|].
  cbn [orb] in H.
  destruct (startswith (strip raw) (py "@@")); [inversion H; subst; assumption|].
  apply bind_ret_inv in H. destruct H as (token & Ht & H).
  assert (Hs : exists ts, split_ws (strip raw) = token :: ts).
  { unfold getitem in Ht. destruct (split_ws (strip raw)) as [|t ts];
      cbn in Ht; inversion Ht; subst. eauto. }
  destruct Hs as [ts Hs].
  destruct (negb (is_empty token)); inversion H; subst; [|assumption].
  apply Forall_app. split; [assumption|]. constructor; [|constructor].
  eapply first_token_not_at; [| apply strip_head | exact Eat | exact Hs].
  intros E0. rewrite E0 in Ee. discriminate.
Qed.

(** X5: the parser stores fields without loss.  For every field of every
    parsed model, the first two tokens of the stored raw line are the field
    name and the type name followed by the list marker when [is_list] is
    set and by the optional marker when [is_optional] is set; neither the
    raw line nor the field name begins with [@].  No stored enum value
    begins with [@]. *)
Theorem parsed_fields_faithful (schema : str)
  (enums : dict EnumDef.t) (models : dict ModelDef.t) :
  parse_prisma schema = Ret (enums, models) ->
  (forall k m f,
      In (k, m) models -> In f (ModelDef.fields m) -> field_faithful f)
  /\ (forall k e v,
        In (k, e) enums -> In v (EnumDef.values e) ->
        startswith v (py "@") = false).
Proof.
  unfold parse_prisma, parse_prisma_fuel. intros H.
  set (lines := splitlines (strip_line_comments schema)) in *.
  apply (@parse_loop_inv lines
           (fun e m =>
              (forall k m0 f, In (k, m0) m -> In f (ModelDef.fields m0) ->
                              field_faithful f)
              /\ (forall k e0 v, In (k, e0) e -> In v (EnumDef.values e0) ->
                                 startswith v (py "@") = false))) in H.
  - exact H.
  - intros e m name body values [Hm He] _ _ Hv. split; [exact Hm|].
    intros k e0 v Hin Hval. apply dict_set_In in Hin.
    destruct Hin as [E | Hin]; [|eapply He; eassumption].
    inversion E; subst. cbn [EnumDef.values] in Hval.
    assert (F : Forall (fun v => startswith v (py "@") = false) values).
    { eapply (@for_each_inv _ _ enum_body_step
                (Forall (fun v => startswith v (py "@") = false))
                (fun _ => True)); [| exact Hv | | constructor].
      - intros s x s' Hs _ Hi. eapply enum_body_step_not_at; eassumption.
      - apply Forall_forall; auto. }
    rewrite Forall_forall in F. now apply F.
  - intros e m name body fields sn [Hm He] _ _ Hf. split; [|exact He].
    intros k m0 f Hin Hfield. apply dict_set_In in Hin.
    destruct Hin as [E | Hin]; [|eapply Hm; eassumption].
    inversion E; subst. cbn [ModelDef.fields] in Hfield.
    assert (F : Forall field_faithful (fst (fields, sn))).
    { eapply (@for_each_inv _ _ model_body_step
                (fun st => Forall field_faithful (fst st)) (fun _ => True));
        [| exact Hf | | constructor].
      - intros s x s' Hs _ Hi. eapply model_body_step_faithful; eassumption.
      - apply Forall_forall; auto. }
    cbn [fst] in F. rewrite Forall_forall in F. now apply F.
  - split; intros ? ? ? [].
Qed.

Lemma parsed_fields_faithful_witness :
  field_faithful
    (FieldDef.mk (py "author") (py "User") false false (py "author User"))
  /\ (forall k e v,
        In (k, e) (@nil (str * EnumDef.t)) -> In v (EnumDef.values e) ->
        startswith v (py "@") = false).
Proof.
  assert (Hp : parse_prisma post_schema = Ret ([], post_models))
    by (vm_compute; reflexivity).
  destruct (@parsed_fields_faithful post_schema [] post_models Hp) as [H1 H2].
  split; [|exact H2].
  apply (H1 (py "Post") post_model).
  - right; left; reflexivity.
  - right; left; reflexivity.
Defined.

Lemma takewhile_Forall (p : char -> bool) (s : str) :
  Forall (fun c => p c = true) (takewhile p s).
Proof.
  induction s as [|c s IH]; [constructor|].
  simpl. destruct (p c) eqn:E; constructor; assumption.
Qed.

Lemma re_search_schema_no_dq (s g : str) :
  re_search_schema s = Some g -> ~ In dq g.
Proof.
  assert (Hhere : forall t, schema_match_here t = Some g -> ~ In dq g).
  { intros t. unfold schema_match_here.
    destruct (startswith t (py "@@schema(" ++ [dq])); [|discriminate].
    destruct (negb (is_empty _) && startswith _ (dq :: py ")"));
      [|discriminate].
    intros H; inversion H; subst g. intros Hin.
    pose proof (takewhile_Forall (fun c => negb (N.eqb c dq))
                  (skipn (length (py "@@schema(" ++ [dq])) t)) as F.
    rewrite Forall_forall in F. apply F in Hin.
    rewrite N.eqb_refl in Hin. discriminate. }
  induction s as [|c s IH]; cbn [re_search_schema].
  - destruct (schema_match_here []) eqn:E; [|discriminate].
    intros H; inversion H; subst. eapply Hhere; eassumption.
  - destruct (schema_match_here (c :: s)) eqn:E.
    + intros H; inversion H; subst. eapply Hhere; eassumption.
    + exact IH.
Qed.

Lemma model_body_step_schema_no_dq (st st' : list FieldDef.t * option str)
  (raw : str) :
  model_body_step st raw = Ret st' ->
  (forall g, snd st = Some g -> ~ In dq g) ->
  forall g, snd st' = Some g -> ~ In dq g.
Proof.
  unfold model_body_step. destruct st as [fields sn]. intros H Hst.
  destruct (is_empty (strip raw)); [inversion H; subst; assumption|].
  destruct (startswith (strip raw) (py "@@schema")).
  { destruct (re_search_schema (strip raw)) as [g0|] eqn:Eg;
      inversion H; subst; [|assumption].
    cbn [snd]. intros g Hg. inversion Hg; subst.
    eapply re_search_schema_no_dq; eassumption. }
  destruct (startswith (strip raw) (py "@") || startswith (strip raw) (py "@@"));
    [inversion H; subst; assumption|].
  destruct (Nat.ltb (length (split_ws (strip raw))) 2);
    [inversion H; subst; assumption|].
  apply bind_ret_inv in H. destruct H as (field_name & Hfn & H).
  apply bind_ret_inv in H. destruct H as (type_token & Htt & H).
  inversion H; subst. exact Hst.
Qed.

(** X6: what the parser stores is clean.  Every key of the two maps is
    the name of its definition and is a token (non-empty, free of
    whitespace); enum values and field names are tokens; type names contain
    no whitespace; a partition name, when present, is non-empty, lies on one
    line and contains no double quote. *)
Theorem parsed_names_are_tokens (schema : str)
  (enums : dict EnumDef.t) (models : dict ModelDef.t) :
  parse_prisma schema = Ret (enums, models) ->
  (forall k e,
      In (k, e) enums ->
      EnumDef.name e = k /\ is_token k /\ Forall is_token (EnumDef.values e))
  /\ (forall k m,
        In (k, m) models ->
        ModelDef.name m = k /\ is_token k
        /\ (forall f, In f (ModelDef.fields m) ->
                      is_token (FieldDef.name f)
                      /\ no_space (FieldDef.type_name f))
        /\ (forall g, ModelDef.schema m = Some g ->
                      g <> [] /\ one_line g /\ ~ In dq g)).
Proof.
  intros H. pose proof (@parse_prisma_wf schema enums models H) as [[_ He] [_ Hm]].
  rewrite Forall_forall in He, Hm.
  split.
  - intros k e Hin. exact (He _ Hin).
  - intros k m Hin. destruct (Hm _ Hin) as (H1 & H2 & H3 & H4).
    cbn [fst snd] in *.
    split; [exact H1|]. split; [exact H2|]. split.
    { intros f Hf. rewrite Forall_forall in H3. exact (H3 f Hf). }
    intros g Hg. destruct (H4 g Hg) as [G1 G2].
    split; [exact G1|]. split; [exact G2|].
    clear G1 G2. revert k m g Hin Hg H1 H2 H3 H4.
    unfold parse_prisma, parse_prisma_fuel in H.
    set (P := fun (_ : dict EnumDef.t) (ms : dict ModelDef.t) =>
                forall k0 m0 g, In (k0, m0) ms ->
                                ModelDef.schema m0 = Some g -> ~ In dq g).
    assert (G : P (fst (enums, models)) (snd (enums, models))).
    { refine (@parse_loop_inv (splitlines (strip_line_comments schema)) P
                _ _ _ _ _ _ _ _ H).
      - intros e0 m0 name body values Hinv _ _ _. exact Hinv.
      - intros e0 ms name body fields sn Hinv _ _ Hf k0 m0 g Hin0 Hg.
        apply dict_set_In in Hin0.
        destruct Hin0 as [E | Hin0]; [|eapply Hinv; eassumption].
        inversion E; subst. cbn [ModelDef.schema] in Hg.
        assert (G : forall g', snd (fields, sn) = Some g' -> ~ In dq g').
        { eapply (@for_each_inv _ _ model_body_step
                    (fun st => forall g', snd st = Some g' -> ~ In dq g')
                    (fun _ => True)); [| exact Hf | | ].
          - intros s x s' Hs _ Hi.
            eapply model_body_step_schema_no_dq; eassumption.
          - apply Forall_forall; auto.
          - intros g' Hg'. discriminate. }
        now apply G.
      - intros k0 m0 g []. }
    unfold P in G.
    cbn [fst snd] in G. intros k m g Hin Hg _ _ _ _. eapply G; eassumption.
Qed.

Lemma parsed_names_are_tokens_witness :
  ModelDef.name a_model = py "A" /\ is_token (py "A")
  /\ (forall f, In f (ModelDef.fields a_model) ->
                is_token (FieldDef.name f) /\ no_space (FieldDef.type_name f))
  /\ (forall g, ModelDef.schema a_model = Some g ->
                g <> [] /\ one_line g /\ ~ In dq g).
Proof.
  assert (Hp : parse_prisma ab_schema = Ret ([], ab_models))
    by (vm_compute; reflexivity).
  destruct (@parsed_names_are_tokens ab_schema [] ab_models Hp) as [_ H].
  apply (H (py "A") a_model). left; reflexivity.
Defined.

(** ** Decoding one body line *)

Lemma endswith_app_self (x p : str) : endswith (x ++ p) p = true.
Proof. unfold endswith. rewrite rev_app_distr. apply startswith_app_self. Qed.

Lemma drop_last_app (x p : str) : drop_last (length p) (x ++ p) = x.
Proof.
  unfold drop_last. rewrite length_app.
  replace (length x + length p - length p) with (length x) by lia.
  rewrite firstn_app, Nat.sub_diag, firstn_all. simpl. apply app_nil_r.
Qed.

Lemma startswith_at_prefix (l p : str) :
  startswith l (py "@") = false -> startswith l (py "@" ++ p) = false.
Proof.
  destruct l as [|c l]; [reflexivity|].
  change (py "@" ++ p) with (64%N :: p). change (py "@") with [64%N].
  cbn [startswith]. destruct (N.eqb 64 c); [discriminate | reflexivity].
Qed.

(** X7: decoding a field line.  A body line that does not begin with [@]
    and whose first two tokens are a name and a base type followed by an
    optional list marker and an optional optional marker, the base type
    itself ending in neither marker, adds exactly the field with that name,
    that base type and those two flags, and leaves the partition name
    alone. *)
Theorem field_line_decodes (fields : list FieldDef.t) (schema_name : option str)
  (raw fname base : str) (tl : list str) (is_list is_optional : bool) :
  startswith (strip raw) (py "@") = false ->
  split_ws (strip raw)
  = fname :: (base ++ (if is_list then py "[]" else [])
                   ++ (if is_optional then py "?" else [])) :: tl ->
  endswith base (py "?") = false ->
  endswith base (py "[]") = false ->
  model_body_step (fields, schema_name) raw
  = Ret (fields ++ [FieldDef.mk fname base is_optional is_list (strip raw)],
         schema_name).
Proof.
  intros Hat Hsplit Hq Hl. unfold model_body_step.
  destruct (strip raw) as [|c l] eqn:El; [discriminate|].
  cbn [is_empty].
  assert (H1 : startswith (c :: l) (py "@@schema") = false)
    by exact (@startswith_at_prefix (c :: l) (py "@schema") Hat).
  assert (H2 : startswith (c :: l) (py "@@") = false)
    by exact (@startswith_at_prefix (c :: l) (py "@") Hat).
  rewrite H1, H2, Hat. cbn [orb]. rewrite Hsplit.
  cbn [length Nat.ltb Nat.leb getitem nth_error bind].
  unfold append. do 2 f_equal.
  assert (D1 : forall x, drop_last 1 (x ++ py "?") = x)
    by (intros x; exact (drop_last_app x (py "?"))).
  assert (D2 : forall x, drop_last 2 (x ++ py "[]") = x)
    by (intros x; exact (drop_last_app x (py "[]"))).
  destruct is_optional, is_list.
  - rewrite app_assoc, endswith_app_self, D1, endswith_app_self, D2.
    reflexivity.
  - rewrite app_nil_l, endswith_app_self, D1, Hl. reflexivity.
  - rewrite app_nil_r.
    rewrite (@endswith_app_suffix base (py "[]") (py "?")) by (simpl; lia).
    replace (endswith (py "[]") (py "?")) with false by reflexivity.
    rewrite endswith_app_self, D2. reflexivity.
  - rewrite !app_nil_r, Hq, Hl. reflexivity.
Qed.

Lemma field_line_decodes_witness :
  model_body_step ([], None) (py "  tags   String[]?  @default(x)")
  = Ret ([FieldDef.mk (py "tags") (py "String") true true
                      (py "tags   String[]?  @default(x)")],
         None).
Proof.
  apply (@field_line_decodes [] None (py "  tags   String[]?  @default(x)")
           (py "tags") (py "String") [py "@default(x)"] true true);
    reflexivity.
Defined.

Lemma takewhile_app_stop (p : char -> bool) (g : str) (c : char) (rest : str) :
  Forall (fun x => p x = true) g -> p c = false ->
  takewhile p (g ++ c :: rest) = g /\ dropwhile p (g ++ c :: rest) = c :: rest.
Proof.
  intros Hg Hc; induction Hg as [|x g Hx _ [IH1 IH2]]; simpl.
  - rewrite Hc. auto.
  - rewrite Hx. split; [now f_equal | assumption].
Qed.

(** X8: decoding a partition annotation.  A model body line that, once
    stripped, begins with [@@schema(], a double quote, a non-empty name
    without double quote, a double quote and [)], sets the partition name to
    that name and adds no field. *)
Theorem schema_annotation_decodes (fields : list FieldDef.t)
  (schema_name : option str) (raw g rest : str) :
  strip raw = py "@@schema(" ++ [dq] ++ g ++ [dq] ++ py ")" ++ rest ->
  g <> [] -> ~ In dq g ->
  model_body_step (fields, schema_name) raw = Ret (fields, Some g).
Proof.
  intros Hraw Hne Hdq. unfold model_body_step. rewrite Hraw.
  replace (is_empty (py "@@schema(" ++ [dq] ++ g ++ [dq] ++ py ")" ++ rest))
    with false by reflexivity.
  replace (startswith (py "@@schema(" ++ [dq] ++ g ++ [dq] ++ py ")" ++ rest)
                      (py "@@schema")) with true by reflexivity.
  assert (Hm : schema_match_here
                 (py "@@schema(" ++ [dq] ++ g ++ [dq] ++ py ")" ++ rest)
               = Some g).
  { unfold schema_match_here. cbv zeta.
    rewrite (app_assoc (py "@@schema(") [dq]).
    rewrite startswith_app_self, skipn_app_self.
    assert (Hg : Forall (fun x => negb (N.eqb x dq) = true) g).
    { apply Forall_forall. intros x Hx.
      destruct (N.eqb_spec x dq); [subst; contradiction | reflexivity]. }
    destruct (@takewhile_app_stop (fun c => negb (N.eqb c dq)) g dq
                (py ")" ++ rest) Hg) as [E1 E2]; [reflexivity|].
    change ([dq] ++ py ")" ++ rest) with (dq :: py ")" ++ rest).
    unfold char in *. rewrite E1, E2.
    destruct g; [exfalso; apply Hne; reflexivity|]. reflexivity. }
  assert (Hs : re_search_schema
                 (py "@@schema(" ++ [dq] ++ g ++ [dq] ++ py ")" ++ rest)
               = Some g).
  { destruct (py "@@schema(" ++ [dq] ++ g ++ [dq] ++ py ")" ++ rest) eqn:E;
      cbn [re_search_schema]; rewrite Hm; reflexivity. }
  rewrite Hs. reflexivity.
Qed.

Lemma schema_annotation_decodes_witness :
  model_body_step ([], None)
    (py "  @@schema(" ++ [dq] ++ py "billing" ++ [dq] ++ py ")  ")
  = Ret ([], Some (py "billing")).
Proof.
  apply (@schema_annotation_decodes [] None _ (py "billing") []).
  - reflexivity.
  - discriminate.
  - vm_compute. intuition discriminate.
Defined.

(* ================================================================== *)
(** * Further properties of the type mapper *)
(* ================================================================== *)

(** X9: the two policies compared.  For a field whose type is not a model
    name and is a scalar or an enum name, the flat policy gives the same
    type expression as the nested policy, except for a field that is both a
    list and optional: there the nested policy ignores the optional flag
    and the flat policy appends [ | null]. *)
Theorem flat_agrees_with_nested (f : FieldDef.t) (model_names enum_names : pyset) :
  set_in (FieldDef.type_name f) model_names = false ->
  dict_mem SCALAR_TS_MAP (FieldDef.type_name f) = true
  \/ set_in (FieldDef.type_name f) enum_names = true ->
  prisma_field_to_ts_flat f enum_names
  = if FieldDef.is_list f && FieldDef.is_optional f
    then prisma_field_to_ts f model_names enum_names ++ py " | null"
    else prisma_field_to_ts f model_names enum_names.
Proof.
  intros Hm Hk. unfold prisma_field_to_ts_flat, prisma_field_to_ts.
  rewrite Hm.
  destruct (dict_get SCALAR_TS_MAP (FieldDef.type_name f)) as [ts|] eqn:Es.
  - destruct (FieldDef.is_list f), (FieldDef.is_optional f); reflexivity.
  - destruct Hk as [Hk | Hk].
    + apply dict_mem_In in Hk. apply dict_get_None in Es. contradiction.
    + rewrite Hk.
      destruct (FieldDef.is_list f), (FieldDef.is_optional f); reflexivity.
Qed.

Lemma flat_agrees_with_nested_witness :
  let f := FieldDef.mk (py "tags") (py "String") true true (py "tags String[]?") in
  prisma_field_to_ts f [py "User"] [py "Role"] = py "string[]"
  /\ prisma_field_to_ts_flat f [py "Role"] = py "string[] | null".
Proof.
  intros f. split; [reflexivity|].
  exact (@flat_agrees_with_nested f [py "User"] [py "Role"] eq_refl
           (or_introl eq_refl)).
Defined.

Lemma endswith_last_differs (x p : str) (c d : char) :
  c <> d -> endswith (x ++ [c]) (p ++ [d]) = false.
Proof.
  intros H. unfold endswith. rewrite !rev_app_distr. cbn.
  destruct (N.eqb_spec d c); [congruence | reflexivity].
Qed.

Lemma endswith_no_space (s : str) :
  no_space s -> endswith s (py " | null") = false.
Proof.
  intros Hs. destruct (endswith s (py " | null")) eqn:E; [|reflexivity].
  apply endswith_drop_last in E. rewrite E in Hs.
  apply Forall_app in Hs. destruct Hs as [_ Hs].
  inversion Hs as [|? ? Hsp _]. discriminate.
Qed.

Lemma scalar_target_no_space (base ts : str) :
  dict_get SCALAR_TS_MAP base = Some ts -> no_space ts.
Proof.
  intros H. apply dict_get_In in H.
  repeat (destruct H as [H|H];
          [inversion H; subst; vm_compute; repeat constructor|]).
  destruct H.
Qed.

(** X10: when the nested policy makes a type nullable.  For a field whose
    type name contains no whitespace, the nested type expression ends with
    [ | null] exactly when the type is a model name, or the field is optional
    and not a list.  In particular an optional list of scalars is not
    nullable. *)
Theorem nested_nullable_iff (f : FieldDef.t) (model_names enum_names : pyset) :
  no_space (FieldDef.type_name f) ->
  endswith (prisma_field_to_ts f model_names enum_names) (py " | null")
  = set_in (FieldDef.type_name f) model_names
    || (negb (FieldDef.is_list f) && FieldDef.is_optional f).
Proof.
  intros Hns. unfold prisma_field_to_ts.
  set (ts_base := match dict_get SCALAR_TS_MAP (FieldDef.type_name f) with
                  | Some ts => ts
                  | None => if set_in (FieldDef.type_name f) enum_names
                            then FieldDef.type_name f else FieldDef.type_name f
                  end).
  assert (Hb : no_space ts_base).
  { unfold ts_base.
    destruct (dict_get SCALAR_TS_MAP (FieldDef.type_name f)) eqn:E.
    - eapply scalar_target_no_space; eassumption.
    - destruct (set_in _ enum_names); assumption. }
  assert (Hlist : endswith (ts_base ++ py "[]") (py " | null") = false).
  { change (py "[]") with (py "[" ++ [93%N]).
    change (py " | null") with (py " | nul" ++ [108%N]).
    rewrite app_assoc. apply endswith_last_differs. discriminate. }
  destruct (FieldDef.is_list f), (set_in (FieldDef.type_name f) model_names),
    (FieldDef.is_optional f); cbn [negb andb orb];
    rewrite ?endswith_app_self, ?Hlist, ?(endswith_no_space Hb); reflexivity.
Qed.

Lemma nested_nullable_iff_witness :
  endswith (prisma_field_to_ts
              (FieldDef.mk (py "tags") (py "String") true true
                           (py "tags String[]?"))
              [py "User"] [py "Role"])
           (py " | null")
  = false.
Proof.
  apply (@nested_nullable_iff
           (FieldDef.mk (py "tags") (py "String") true true (py "tags String[]?"))
           [py "User"] [py "Role"]).
  vm_compute. repeat constructor.
Defined.

(* ================================================================== *)
(** * Further properties of the comment stripper *)
(* ================================================================== *)

Lemma startswith_app_l (a b p : str) :
  startswith a p = true -> startswith (a ++ b) p = true.
Proof.
  revert a; induction p as [|x p IH]; intros a H; [reflexivity|].
  destruct a as [|y a]; [discriminate|].
  cbn [app startswith] in *. apply andb_true_iff in H. destruct H as [H1 H2].
  rewrite H1. cbn [andb]. now apply IH.
Qed.

Lemma contains_sub_app_l (p a b : str) :
  contains_sub p (a ++ b) = false -> contains_sub p a = false.
Proof.
  induction a as [|c a IH]; intros H.
  - cbn [contains_sub]. rewrite orb_false_r.
    destruct (startswith [] p) eqn:E; [|reflexivity].
    cbn [app] in H.
    assert (G : startswith b p = true) by (exact (@startswith_app_l [] b p E)).
    destruct b; cbn [contains_sub] in H; rewrite G in H; discriminate.
  - cbn [app contains_sub] in *. apply orb_false_iff in H. destruct H as [H1 H2].
    rewrite (IH H2), orb_false_r.
    destruct (startswith (c :: a) p) eqn:E; [|reflexivity].
    pose proof (@startswith_app_l (c :: a) b p E) as G.
    cbn [app] in G. rewrite G in H1. discriminate.
Qed.

Lemma contains_slashes_across_newline (l r : str) :
  contains_sub (py "//") l = false -> contains_sub (py "//") r = false ->
  contains_sub (py "//") (l ++ nl :: r) = false.
Proof.
  intros Hl Hr. induction l as [|c l IH].
  - cbn [app contains_sub]. rewrite Hr. reflexivity.
  - cbn [app contains_sub] in *. apply orb_false_iff in Hl.
    destruct Hl as [H1 H2]. rewrite (IH H2), orb_false_r.
    destruct l as [|d l].
    + change (py "//") with [47%N; 47%N]. cbn [app startswith].
      replace (N.eqb 47 nl) with false by reflexivity.
      now rewrite andb_false_r.
    + exact H1.
Qed.

Lemma contains_slashes_join (ls : list str) :
  Forall (fun l => contains_sub (py "//") l = false) ls ->
  contains_sub (py "//") (join [nl] ls) = false.
Proof.
  induction 1 as [|l ls Hl Hls IH]; [reflexivity|].
  cbn [join]. destruct ls as [|l2 ls]; [exact Hl|].
  apply contains_slashes_across_newline; assumption.
Qed.

(** X11: the result of [strip_line_comments] contains no double slash
    anywhere, whatever the input. *)
Theorem strip_line_comments_has_no_marker (schema : str) :
  contains_sub (py "//") (strip_line_comments schema) = false.
Proof.
  rewrite strip_line_comments_eq. apply contains_slashes_join.
  apply Forall_map. apply Forall_forall. intros line _.
  destruct (strip_comment_prefix line) as (rest & _ & _ & H).
  eapply contains_sub_app_l. exact H.
Qed.

(* ================================================================== *)
(** * Further properties of the split-file emitter *)
(* ================================================================== *)

Lemma fold_dict_set_keys {V : Type} (assigns : list (str * V)) (d : dict V) :
  NoDup (dict_keys d ++ map fst assigns) ->
  dict_keys (fold_left (fun d kv => dict_set d (fst kv) (snd kv)) assigns d)
  = dict_keys d ++ map fst assigns.
Proof.
  revert d; induction assigns as [|[k v] assigns IH]; intros d Hn.
  - cbn. now rewrite app_nil_r.
  - cbn [fold_left map fst snd] in *.
    assert (Hk : dict_keys (dict_set d k v) = dict_keys d ++ [k]).
    { rewrite dict_set_keys. unfold dict_mem.
      destruct (set_in k (dict_keys d)) eqn:E; [|reflexivity].
      apply set_in_In in E. apply NoDup_remove_2 in Hn.
      exfalso. apply Hn. apply in_or_app. left; exact E. }
    rewrite IH; rewrite Hk, <- app_assoc; [reflexivity | exact Hn].
Qed.

Lemma fold_dict_set_get_other {V : Type} (assigns : list (str * V)) (d : dict V)
  (k : str) :
  ~ In k (map fst assigns) ->
  dict_get (fold_left (fun d kv => dict_set d (fst kv) (snd kv)) assigns d) k
  = dict_get d k.
Proof.
  revert d; induction assigns as [|[k1 v1] assigns IH]; intros d Hn;
    [reflexivity|].
  cbn [fold_left map fst snd] in *.
  rewrite IH by (intros H; apply Hn; right; exact H).
  rewrite dict_get_set. destruct (str_eqb k1 k) eqn:E; [|reflexivity].
  apply str_eqb_eq in E. subst. exfalso. apply Hn. left; reflexivity.
Qed.

Lemma models_path_not_const (x name : str) :
  endswith name (py "/models.ts") = false -> models_path x <> name.
Proof.
  intros H E. subst name. unfold models_path in H.
  rewrite endswith_app_self in H. discriminate.
Qed.

Lemma models_path_inj (x y : str) : models_path x = models_path y -> x = y.
Proof. apply app_inv_tail. Qed.

Lemma NoDup_models_paths (xs : list str) :
  NoDup xs -> NoDup (map models_path xs).
Proof.
  induction 1 as [|x xs Hx _ IH]; [constructor|].
  cbn [map]. constructor; [|exact IH].
  intros Hin. apply in_map_iff in Hin. destruct Hin as (y & E & Hy).
  apply models_path_inj in E. subst. contradiction.
Qed.

Lemma In_models_paths_not_const (xs : list str) (name : str) :
  endswith name (py "/models.ts") = false -> ~ In name (map models_path xs).
Proof.
  intros H Hin. apply in_map_iff in Hin. destruct Hin as (y & E & _).
  exact (@models_path_not_const y name H E).
Qed.

Lemma split_fold_keys (h : str -> list ModelDef.t -> str)
  (parts : dict (list ModelDef.t)) (v1 v2 : str) :
  NoDup (dict_keys parts) ->
  dict_keys
    (fold_left (fun files (item : str * list ModelDef.t) =>
                  let '(schema_name, schema_models) := item in
                  dict_set files (schema_name ++ py "/models.ts")
                           (h schema_name schema_models))
               parts
               (dict_set (dict_set [] (py "common/base.ts") v1)
                         (py "common/enums.ts") v2))
  = [py "common/base.ts"; py "common/enums.ts"]
    ++ map models_path (dict_keys parts).
Proof.
  intros Hn. rewrite fold_files_eq.
  etransitivity; [apply fold_dict_set_keys|].
  - match goal with
    | |- NoDup (_ ++ ?M) =>
        assert (Hk : M = map models_path (dict_keys parts))
          by (unfold dict_keys; rewrite !map_map; reflexivity);
        rewrite Hk
    end.
    cbn. constructor; [|constructor].
    + intros [H|H]; [discriminate|].
      revert H. apply In_models_paths_not_const. reflexivity.
    + apply In_models_paths_not_const. reflexivity.
    + now apply NoDup_models_paths.
  - match goal with
    | |- _ ++ ?M = _ =>
        assert (Hk : M = map models_path (dict_keys parts))
          by (unfold dict_keys; rewrite !map_map; reflexivity);
        rewrite Hk
    end.
    reflexivity.
Qed.

Lemma split_fold_get_const (h : str -> list ModelDef.t -> str)
  (parts : dict (list ModelDef.t)) (d : dict str) (name : str) :
  endswith name (py "/models.ts") = false ->
  dict_get
    (fold_left (fun files (item : str * list ModelDef.t) =>
                  let '(schema_name, schema_models) := item in
                  dict_set files (schema_name ++ py "/models.ts")
                           (h schema_name schema_models))
               parts d) name
  = dict_get d name.
Proof.
  intros H. rewrite fold_files_eq. apply fold_dict_set_get_other.
  rewrite map_map. cbn [fst].
  intros Hin. apply in_map_iff in Hin. destruct Hin as ([x l] & E & _).
  cbn [fst] in E. exact (@models_path_not_const x name H E).
Qed.

Lemma split_files_keys_eq (enums : dict EnumDef.t) (models : dict ModelDef.t)
  (generate_flat generate_index : bool) :
  dict_keys (generate_split_files enums models generate_flat generate_index)
  = [py "common/base.ts"; py "common/enums.ts"]
    ++ map models_path (dict_keys (partition_models models))
    ++ (if generate_index then [py "index.ts"] else []).
Proof.
  unfold generate_split_files. destruct generate_index.
  - rewrite dict_set_keys.
    match goal with
    | |- context [dict_mem ?F (py "index.ts")] =>
        assert (KF : dict_keys F
                     = [py "common/base.ts"; py "common/enums.ts"]
                       ++ map models_path (dict_keys (partition_models models)))
          by (apply split_fold_keys; apply partition_models_NoDup);
        unfold dict_mem; rewrite KF
    end.
    replace (set_in (py "index.ts") _) with false.
    + rewrite <- app_assoc. reflexivity.
    + symmetry. apply set_in_not_In. intros Hin.
      apply in_app_or in Hin. destruct Hin as [Hin | Hin].
      * cbn in Hin. destruct Hin as [H|[H|[]]]; discriminate.
      * revert Hin. apply In_models_paths_not_const. reflexivity.
  - rewrite app_nil_r. apply split_fold_keys. apply partition_models_NoDup.
Qed.

(** X12: the paths of the split-file output.  The artifact map has, in
    this order, the base artifact, the enum artifact, one models artifact per
    partition in order of first appearance, and the index when it is
    requested; no path occurs twice, so no artifact overwrites another. *)
Theorem split_files_paths (enums : dict EnumDef.t) (models : dict ModelDef.t)
  (generate_flat generate_index : bool) :
  dict_keys (generate_split_files enums models generate_flat generate_index)
  = [py "common/base.ts"; py "common/enums.ts"]
    ++ map models_path (dict_keys (partition_models models))
    ++ (if generate_index then [py "index.ts"] else [])
  /\ NoDup (dict_keys
              (generate_split_files enums models generate_flat generate_index)).
Proof.
  pose proof (split_files_keys_eq enums models generate_flat generate_index)
    as K.
  split; [exact K|]. rewrite K.
  constructor; [|constructor].
  - intros [H|H]; [discriminate|]. apply in_app_or in H. destruct H as [H|H].
    + revert H. apply In_models_paths_not_const. reflexivity.
    + destruct generate_index; [destruct H as [H|[]]; discriminate | destruct H].
  - intros H. apply in_app_or in H. destruct H as [H|H].
    + revert H. apply In_models_paths_not_const. reflexivity.
    + destruct generate_index; [destruct H as [H|[]]; discriminate | destruct H].
  - apply NoDup_app.
    + apply NoDup_models_paths. apply partition_models_NoDup.
    + destruct generate_index; repeat constructor. intros [].
    + intros p Hp Hq. destruct generate_index; [|destruct Hq].
      destruct Hq as [<-|[]]. revert Hp.
      apply In_models_paths_not_const. reflexivity.
Qed.

(** X13: the index artifact.  It exists exactly when it is requested; it
    re-exports the base artifact, the enum artifact and then every partition
    artifact, the partitions in strictly increasing order of their names;
    the partition of every model is among them. *)
Theorem split_files_index (enums : dict EnumDef.t) (models : dict ModelDef.t)
  (generate_flat generate_index : bool) :
  dict_get (generate_split_files enums models generate_flat generate_index)
           (py "index.ts")
  = (if generate_index then
       Some (join [nl]
               ([py "export * from " ++ [dq] ++ py "./common/base" ++ [dq] ++ py ";";
                 py "export * from " ++ [dq] ++ py "./common/enums" ++ [dq] ++ py ";"]
                ++ map export_line (sorted (dict_keys (partition_models models)))
                ++ [[]]))
     else None)
  /\ strictly_sorted (sorted (dict_keys (partition_models models)))
  /\ (forall m, In m (dict_values models) ->
                In (schema_or_default m)
                   (sorted (dict_keys (partition_models models)))).
Proof.
  split; [|split].
  - unfold generate_split_files. destruct generate_index.
    + rewrite dict_get_set, str_eqb_refl. do 2 f_equal.
      unfold append.
      rewrite (@fold_left_append_map _ _ export_line). cbn [app].
      reflexivity.
    + rewrite split_fold_get_const by reflexivity. reflexivity.
  - apply sorted_strict. apply partition_models_NoDup.
  - intros m Hm. apply sorted_In.
    destruct (@partition_models_complete models m Hm) as (ms & Hin & _).
    unfold dict_keys. apply in_map_iff. exists (schema_or_default m, ms). auto.
Qed.

(** X14: the partition of the models.  The partitions are keyed in order
    of first appearance of their name among the models; the bucket of a name
    is the list of the models with that partition name ([default] when the
    model has none), in declaration order; no bucket is empty. *)
Theorem partition_models_buckets (models : dict ModelDef.t) :
  dict_keys (partition_models models)
  = fold_left set_add (map schema_or_default (dict_values models)) []
  /\ NoDup (dict_keys (partition_models models))
  /\ (forall x,
        dict_get (partition_models models) x
        = match filter (fun m => str_eqb (schema_or_default m) x)
                       (dict_values models) with
          | [] => None
          | ms => Some ms
          end)
  /\ (forall x ms, In (x, ms) (partition_models models) -> ms <> []).
Proof.
  split; [|split; [apply partition_models_NoDup|split]].
  - unfold partition_models.
    assert (G : forall todo (d : dict (list ModelDef.t)),
               dict_keys
                 (fold_left
                    (fun mbs m => defaultdict_append mbs (schema_or_default m) m)
                    todo d)
               = fold_left set_add (map schema_or_default todo) (dict_keys d)).
    { induction todo as [|m todo IH]; intros d; [reflexivity|].
      cbn [fold_left map]. rewrite IH. f_equal.
      unfold defaultdict_append.
      destruct (dict_get d (schema_or_default m)); apply dict_set_keys. }
    apply (G (dict_values models) []).
  - apply partition_models_get.
  - intros x ms Hin E. subst ms.
    destruct (@partition_nonempty models x [] Hin) as [m []].
Qed.

Lemma declaration_of_cross_import_lines (cross : dict pyset) :
  flat_map declaration_of (cross_import_lines cross) = [].
Proof.
  unfold cross_import_lines.
  induction cross as [|[o names] cross IH]; [reflexivity|].
  cbn [flat_map fst snd]. rewrite flat_map_app, IH, app_nil_r.
  destruct (is_empty names); reflexivity.
Qed.

Lemma declaration_of_models_of (flat : bool) (mn en : pyset)
  (models : dict ModelDef.t) (ms : list ModelDef.t) :
  wf_dict wf_model models ->
  (forall m, In m ms -> In m (dict_values models)) ->
  flat_map declaration_of (flat_map (model_lines flat mn en) ms)
  = flat_map (fun m => ModelDef.name m
                       :: (if flat then [ModelDef.name m ++ py "Flat"] else []))
             ms.
Proof.
  intros Hwf. induction ms as [|m ms IH]; intros Hms; [reflexivity|].
  cbn [flat_map]. rewrite flat_map_app, IH by (intros; apply Hms; now right).
  f_equal.
  apply declaration_of_model_lines.
  apply (@wf_models_value models m Hwf). apply Hms. now left.
Qed.

(** X15: the declarations of a partition artifact.  For a parsed schema,
    the artifact of a partition declares exactly the models of that
    partition, in declaration order, each followed by its [Flat] variant
    when flat interfaces are generated; its header and import lines declare
    nothing. *)
Theorem partition_artifact_declarations (schema : str)
  (enums : dict EnumDef.t) (models : dict ModelDef.t)
  (generate_flat generate_index : bool) (x : str) (ms : list ModelDef.t) :
  parse_prisma schema = Ret (enums, models) ->
  In (x, ms) (partition_models models) ->
  ms = filter (fun m => str_eqb (schema_or_default m) x) (dict_values models)
  /\ exists text,
       dict_get (generate_split_files enums models generate_flat generate_index)
                (models_path x) = Some text
       /\ declared_identifiers text
          = flat_map (fun m => ModelDef.name m
                               :: (if generate_flat
                                   then [ModelDef.name m ++ py "Flat"] else []))
                     ms.
Proof.
  intros Hp Hx. apply parse_prisma_wf in Hp. destruct Hp as [Hwe Hwm].
  split.
  - pose proof Hx as Hg.
    apply In_dict_get in Hg; [|apply partition_models_NoDup].
    rewrite partition_models_get in Hg.
    destruct (filter _ (dict_values models)); inversion Hg; reflexivity.
  - eexists. split.
    + apply (@split_files_partition enums models generate_flat generate_index
               x ms Hx).
    + etransitivity;
        [apply declared_identifiers_join;
         apply schema_file_lines_one_line; assumption|].
      rewrite schema_file_lines_eq, !flat_map_app.
      rewrite declaration_of_cross_import_lines.
      rewrite (@declaration_of_models_of generate_flat _ _ models ms Hwm)
        by (intros m Hm; eapply partition_models_sound; eassumption).
      destruct (is_empty enums), (is_empty (collect_cross_imports _ _ _ _));
        reflexivity.
Qed.

Lemma partition_artifact_declarations_witness :
  [a_model] = filter (fun m => str_eqb (schema_or_default m) (py "x"))
                     (dict_values ab_models)
  /\ exists text,
       dict_get (generate_split_files [] ab_models true false)
                (models_path (py "x")) = Some text
       /\ declared_identifiers text = [py "A"; py "AFlat"].
Proof.
  assert (Hp : parse_prisma ab_schema = Ret ([], ab_models))
    by (vm_compute; reflexivity).
  apply (@partition_artifact_declarations ab_schema [] ab_models true false
           (py "x") [a_model] Hp).
  vm_compute. left; reflexivity.
Defined.

(** X16: the declarations of the shared enum artifact.  For a parsed
    schema, the artifact [common/enums.ts] declares exactly the enums that
    have at least one value, once each, in declaration order; an enum without
    values is declared nowhere in it. *)
Theorem enums_artifact_declarations (schema : str)
  (enums : dict EnumDef.t) (models : dict ModelDef.t)
  (generate_flat generate_index : bool) :
  parse_prisma schema = Ret (enums, models) ->
  exists text,
    dict_get (generate_split_files enums models generate_flat generate_index)
             (py "common/enums.ts") = Some text
    /\ declared_identifiers text
       = dict_keys (filter (fun kv => negb (is_empty (EnumDef.values (snd kv))))
                           enums).
Proof.
  intros Hp. apply parse_prisma_wf in Hp. destruct Hp as [[_ Hwe] _].
  eexists. split.
  - unfold generate_split_files.
    destruct generate_index;
      [rewrite dict_get_set;
       replace (str_eqb (py "index.ts") (py "common/enums.ts")) with false
         by reflexivity|];
      rewrite split_fold_get_const by reflexivity;
      rewrite dict_get_set, str_eqb_refl; reflexivity.
  - etransitivity; [apply declared_identifiers_join|].
    + unfold append. cbn [app].
      destruct (is_empty enums); cbn [negb].
      * repeat (constructor; [one_line_const|]). constructor.
      * rewrite emit_enums_eq. cbn [app].
        repeat (constructor; [try apply one_line_nil; one_line_const|]).
        eapply Forall_flat_map_values; [|exact Hwe].
        intros k v. apply enum_lines_one_line.
    + unfold append. cbn [app].
      destruct enums as [|kv enums']; [reflexivity|].
      cbn [is_empty negb]. rewrite emit_enums_eq. cbn [app flat_map].
      change (declaration_of (py "// Auto-generated by Prisma TypeTags"))
        with (@nil str).
      change (declaration_of (py "// Enums for the whole schema"))
        with (@nil str).
      change (declaration_of []) with (@nil str).
      cbn [app].
      now apply declaration_of_enum_section.
Qed.

Lemma enums_artifact_declarations_witness :
  exists text,
    dict_get (generate_split_files [(py "E", EnumDef.mk (py "E") [])]
                [(py "A", ModelDef.mk (py "A") [] None)] false false)
             (py "common/enums.ts") = Some text
    /\ declared_identifiers text = [].
Proof.
  assert (Hp : parse_prisma empty_blocks_schema
               = Ret ([(py "E", EnumDef.mk (py "E") [])],
                      [(py "A", ModelDef.mk (py "A") [] None)]))
    by (vm_compute; reflexivity).
  exact (@enums_artifact_declarations empty_blocks_schema _ _ false false Hp).
Defined.

(* ================================================================== *)
(** * The entry points *)
(* ================================================================== *)

(** X17: [prisma_to_ts] never raises: for every text it returns the
    single-file artifact of the parsed schema, generated without flat
    interfaces, so that the artifact declares the two base aliases, the enums
    that have values, and every model name twice (placeholder and
    interface). *)
Theorem prisma_to_ts_total (schema : str) :
  exists enums models,
    parse_prisma schema = Ret (enums, models)
    /\ prisma_to_ts schema = Ret (generate_single_file enums models false)
    /\ declared_identifiers (generate_single_file enums models false)
       = [py "DateTimeString"; py "JsonValue"]
         ++ dict_keys (filter (fun kv =>
                                 negb (is_empty (EnumDef.values (snd kv))))
                              enums)
         ++ dict_keys models ++ dict_keys models.
Proof.
  unfold prisma_to_ts.
  destruct (@parse_loop_total (splitlines (strip_line_comments schema))
              (S (length (splitlines (strip_line_comments schema)))) 0 [] []
              ltac:(lia)) as ([enums models] & Hp).
  change (parse_prisma schema = Ret (enums, models)) in Hp.
  exists enums, models. split; [exact Hp|]. split; [now rewrite Hp|].
  destruct (@parse_prisma_wf schema enums models Hp) as [He Hm].
  unfold generate_single_file.
  etransitivity;
    [apply declared_identifiers_join;
     apply single_file_lines_one_line; assumption|].
  etransitivity; [apply single_file_declarations|].
  destruct He as [_ He], Hm as [_ Hm].
  f_equal. f_equal; [now apply declaration_of_enum_section|].
  f_equal; [now apply declaration_of_forward_lines|].
  etransitivity; [now apply declaration_of_model_section|].
  induction (dict_keys models) as [|k ks IH]; [reflexivity|].
  cbn [flat_map app]. now rewrite IH.
Qed.

Lemma insert_sorted_cons (x : str) (xs : list str) :
  exists y ys, insert_sorted x xs = y :: ys.
Proof. destruct xs as [|z xs]; cbn; [eauto|]. destruct (str_leb x z); eauto. Qed.

Lemma sorted_head_least (xs : list str) (p : str) (rest : list str) :
  NoDup xs -> sorted xs = p :: rest ->
  In p xs /\ forall k, In k xs -> str_leb p k = true.
Proof.
  intros Hn E. pose proof (sorted_strict Hn) as S. rewrite E in S.
  split.
  - apply sorted_In. rewrite E. left; reflexivity.
  - intros k Hk. apply sorted_In in Hk. rewrite E in Hk.
    destruct Hk as [<-|Hk]; [apply str_leb_refl|].
    apply StronglySorted_inv in S. destruct S as [_ F].
    rewrite Forall_forall in F. apply (F k Hk).
Qed.

Lemma In_keys_dict_get {V : Type} (d : dict V) (k : str) :
  In k (dict_keys d) -> exists v, dict_get d k = Some v.
Proof.
  intros H. destruct (dict_get d k) eqn:E; [eauto|].
  apply dict_get_None in E. contradiction.
Qed.

Lemma preview_name_choice (files : dict str) :
  dict_keys files <> [] -> NoDup (dict_keys files) ->
  exists preview,
    (if dict_mem files (py "models.ts") then Ret (py "models.ts")
     else if dict_mem files (py "index.ts") then Ret (py "index.ts")
     else getitem (sorted (dict_keys files)) 0) = Ret preview
    /\ In preview (dict_keys files)
    /\ (In (py "models.ts") (dict_keys files) -> preview = py "models.ts")
    /\ (~ In (py "models.ts") (dict_keys files) ->
        In (py "index.ts") (dict_keys files) -> preview = py "index.ts")
    /\ (~ In (py "models.ts") (dict_keys files) ->
        ~ In (py "index.ts") (dict_keys files) ->
        forall k, In k (dict_keys files) -> str_leb preview k = true).
Proof.
  intros Hne Hn.
  destruct (dict_mem files (py "models.ts")) eqn:E1.
  { apply dict_mem_In in E1. exists (py "models.ts"). tauto. }
  assert (N1 : ~ In (py "models.ts") (dict_keys files)).
  { intros H. apply dict_mem_In in H. congruence. }
  destruct (dict_mem files (py "index.ts")) eqn:E2.
  { apply dict_mem_In in E2. exists (py "index.ts"). tauto. }
  assert (N2 : ~ In (py "index.ts") (dict_keys files)).
  { intros H. apply dict_mem_In in H. congruence. }
  destruct (sorted (dict_keys files)) as [|p rest] eqn:Es.
  { exfalso. destruct (dict_keys files) as [|k ks]; [congruence|].
    cbn [sorted fold_right] in Es.
    destruct (insert_sorted_cons k (fold_right insert_sorted [] ks))
      as (y & ys & Ey).
    rewrite Ey in Es. discriminate. }
  destruct (@sorted_head_least (dict_keys files) p rest Hn Es) as [Hp Hl].
  exists p. cbn. tauto.
Qed.

Lemma split_keys_not_const (name : str) (generate_index : bool)
  (parts : list str) :
  endswith name (py "/models.ts") = false ->
  name <> py "common/base.ts" -> name <> py "common/enums.ts" ->
  (generate_index = true -> name <> py "index.ts") ->
  ~ In name ([py "common/base.ts"; py "common/enums.ts"]
             ++ map models_path parts
             ++ (if generate_index then [py "index.ts"] else [])).
Proof.
  intros He H1 H2 H3 Hin. rewrite !in_app_iff in Hin.
  destruct Hin as [Hin | [Hin | Hin]].
  - destruct Hin as [E|[E|[]]]; congruence.
  - exact (@In_models_paths_not_const parts name He Hin).
  - destruct generate_index; [|destruct Hin].
    destruct Hin as [E|[]]. symmetry in E. exact (H3 eq_refl E).
Qed.

(** X18: the generation step of the application never fails.  When the
    schema pane holds only whitespace nothing is generated; otherwise the
    [try] block returns without raising, the preview file is one of the
    generated files and the preview text ends with its content.  The preview
    file is [models.ts] in single-file mode, [index.ts] in split mode with an
    index, and the least path in split mode without index. *)
Theorem generate_ts_never_fails (schema : str)
  (split_by_schema generate_flat generate_index : bool) :
  exists r,
    generate_ts schema split_by_schema generate_flat generate_index = Ret r
    /\ (r = None <-> is_empty (strip schema) = true)
    /\ forall files preview text,
         r = Some (files, preview, text) ->
         (exists header body,
             dict_get files preview = Some body /\ text = header ++ body)
         /\ (split_by_schema = false -> preview = py "models.ts")
         /\ (split_by_schema = true -> generate_index = true ->
             preview = py "index.ts")
         /\ (split_by_schema = true -> generate_index = false ->
             forall k, In k (dict_keys files) -> str_leb preview k = true).
Proof.
  unfold generate_ts.
  destruct (is_empty (strip schema)) eqn:Ee.
  { exists None. split; [reflexivity|]. split; [tauto|]. discriminate. }
  unfold generate_ts_body.
  destruct (@parse_loop_total (splitlines (strip_line_comments schema))
              (S (length (splitlines (strip_line_comments schema)))) 0 [] []
              ltac:(lia)) as ([enums models] & Hp).
  change (parse_prisma schema = Ret (enums, models)) in Hp.
  rewrite Hp. cbn [bind]. cbv zeta.
  set (files := if split_by_schema
                then generate_split_files enums models generate_flat
                                          generate_index
                else if generate_index
                     then dict_set
                            (dict_set [] (py "models.ts")
                               (generate_single_file enums models generate_flat))
                            (py "index.ts")
                            (py "export * from " ++ [dq] ++ py "./models" ++ [dq]
                             ++ py ";" ++ [nl])
                     else dict_set [] (py "models.ts")
                            (generate_single_file enums models generate_flat)).
  assert (Hk : dict_keys files
               = if split_by_schema
                 then [py "common/base.ts"; py "common/enums.ts"]
                      ++ map models_path (dict_keys (partition_models models))
                      ++ (if generate_index then [py "index.ts"] else [])
                 else if generate_index then [py "models.ts"; py "index.ts"]
                      else [py "models.ts"]).
  { unfold files. destruct split_by_schema; [apply split_files_keys_eq|].
    destruct generate_index; reflexivity. }
  assert (Hn : NoDup (dict_keys files)).
  { unfold files. destruct split_by_schema.
    - rewrite split_files_keys_eq.
      constructor; [|constructor].
      + intros [H|H]; [discriminate|]. apply in_app_or in H.
        destruct H as [H|H].
        * revert H. apply In_models_paths_not_const. reflexivity.
        * destruct generate_index; [destruct H as [H|[]]; discriminate
                                   | destruct H].
      + intros H. apply in_app_or in H. destruct H as [H|H].
        * revert H. apply In_models_paths_not_const. reflexivity.
        * destruct generate_index; [destruct H as [H|[]]; discriminate
                                   | destruct H].
      + apply NoDup_app.
        * apply NoDup_models_paths. apply partition_models_NoDup.
        * destruct generate_index; repeat constructor. intros [].
        * intros p Hpin Hq. destruct generate_index; [|destruct Hq].
          destruct Hq as [<-|[]]. revert Hpin.
          apply In_models_paths_not_const. reflexivity.
    - destruct generate_index; cbn.
      + constructor; [intros [H|[]]; discriminate|]. repeat constructor. intros [].
      + repeat constructor. intros []. }
  assert (Hne : dict_keys files <> []).
  { rewrite Hk. destruct split_by_schema; [discriminate|].
    destruct generate_index; discriminate. }
  destruct (@preview_name_choice files Hne Hn)
    as (preview & Hprev & Hin & H1 & H2 & H3).
  rewrite Hprev. cbn [bind].
  destruct (@In_keys_dict_get _ files preview Hin) as [body Hbody].
  unfold getitem_key. rewrite Hbody. cbn [bind].
  eexists. split; [reflexivity|]. split; [split; discriminate|].
  intros files' preview' text' E. inversion E; subst files' preview' text'.
  split; [eauto|].
  assert (Nm : split_by_schema = true ->
               ~ In (py "models.ts") (dict_keys files)).
  { intros ->. rewrite Hk. apply split_keys_not_const;
      [reflexivity | discriminate | discriminate | discriminate]. }
  split; [|split].
  - intros ->. apply H1. rewrite Hk.
    destruct generate_index; left; reflexivity.
  - intros Hs ->. apply H2; [now apply Nm|]. rewrite Hk, Hs.
    rewrite !in_app_iff. right; right. left; reflexivity.
  - intros Hs Hi. apply H3; [now apply Nm|].
    rewrite Hk, Hs. apply split_keys_not_const;
      [reflexivity | discriminate | discriminate | congruence].
Qed.

Lemma generate_ts_never_fails_witness :
  exists files preview text,
    generate_ts ab_schema true false false = Ret (Some (files, preview, text))
    /\ (exists header body,
          dict_get files preview = Some body /\ text = header ++ body)
    /\ forall k, In k (dict_keys files) -> str_leb preview k = true.
Proof.
  destruct (generate_ts_never_fails ab_schema true false false)
    as (r & Hr & Hnone & H).
  destruct r as [[[files preview] text]|].
  - exists files, preview, text. split; [exact Hr|].
    destruct (H files preview text eq_refl) as (H1 & _ & _ & H4).
    split; [exact H1 | exact (H4 eq_refl eq_refl)].
  - destruct Hnone as [Hnone _]. specialize (Hnone eq_refl).
    vm_compute in Hnone. discriminate.
Defined.

Lemma split_files_index_witness :
  dict_get (generate_split_files [] ab_models false true) (py "index.ts")
  = Some (join [nl]
            ([py "export * from " ++ [dq] ++ py "./common/base" ++ [dq] ++ py ";";
              py "export * from " ++ [dq] ++ py "./common/enums" ++ [dq] ++ py ";"]
             ++ map export_line (sorted (dict_keys (partition_models ab_models)))
             ++ [[]]))
  /\ strictly_sorted (sorted (dict_keys (partition_models ab_models)))
  /\ In (schema_or_default b_model)
        (sorted (dict_keys (partition_models ab_models))).
Proof.
  destruct (split_files_index [] ab_models false true) as (H1 & H2 & H3).
  split; [exact H1|]. split; [exact H2|].
  apply H3. right; left; reflexivity.
Defined.

Lemma partition_models_buckets_witness :
  dict_keys (partition_models ab_models) = [py "x"; py "y"]
  /\ dict_get (partition_models ab_models) (py "y") = Some [b_model]
  /\ [a_model] <> [].
Proof.
  destruct (partition_models_buckets ab_models) as (H1 & _ & H3 & H4).
  split; [exact H1|]. split; [exact (H3 (py "y"))|].
  apply (H4 (py "x")). left; reflexivity.
Defined.

(** X19: both emitters write the same interfaces.  The block of lines of a
    model (its full interface, and its flat interface when requested) occurs
    as it is in the single-file artifact and in the artifact of the model's
    partition. *)
Theorem split_and_single_agree (enums : dict EnumDef.t)
  (models : dict ModelDef.t) (generate_flat generate_index : bool)
  (m : ModelDef.t) :
  In m (dict_values models) ->
  exists pre post pre' post',
    generate_single_file enums models generate_flat
    = join [nl]
        (pre ++ model_lines generate_flat (dict_keys models) (dict_keys enums) m
             ++ post)
    /\ dict_get (generate_split_files enums models generate_flat generate_index)
                (models_path (schema_or_default m))
       = Some (join [nl]
                 (pre' ++ model_lines generate_flat (dict_keys models)
                                      (dict_keys enums) m
                       ++ post')).
Proof.
  intros Hm.
  destruct (@partition_models_complete models m Hm) as (ms & Hx & Hin).
  apply in_split in Hm. destruct Hm as (l1 & l2 & E).
  apply in_split in Hin. destruct Hin as (k1 & k2 & E').
  unfold generate_single_file. rewrite single_file_lines_eq.
  pose proof (@split_files_partition enums models generate_flat generate_index
                (schema_or_default m) ms Hx) as Hs.
  unfold schema_file_lines_text in Hs. rewrite schema_file_lines_eq in Hs.
  rewrite E' in Hs. rewrite E. rewrite !flat_map_app in *.
  cbn [flat_map] in *.
  match goal with
  | |- context [join _ (?a ++ ?b ++ ?c ++ ?d ++ ?e ++ ?f ++ _ ++ ?g)] =>
      exists (a ++ b ++ c ++ d ++ e ++ f), g
  end.
  match type of Hs with
  | _ = Some (join _ (?a ++ ?b ++ ?c ++ ?d ++ ?e ++ ?f ++ _ ++ ?g)) =>
      exists (a ++ b ++ c ++ d ++ e ++ f), g
  end.
  split.
  - f_equal. rewrite <- !app_assoc. reflexivity.
  - unfold models_path. rewrite Hs. do 2 f_equal.
    rewrite <- !app_assoc. reflexivity.
Qed.

Lemma split_and_single_agree_witness :
  exists pre post pre' post',
    generate_single_file [] ab_models true
    = join [nl]
        (pre ++ model_lines true (dict_keys ab_models) [] a_model ++ post)
    /\ dict_get (generate_split_files [] ab_models true true)
                (models_path (py "x"))
       = Some (join [nl]
                 (pre' ++ model_lines true (dict_keys ab_models) [] a_model
                       ++ post')).
Proof.
  exact (@split_and_single_agree [] ab_models true true a_model
           (or_introl eq_refl)).
Defined.
